(** * bezier-canvas: a shallow embedding of the spline editing engine

    The development follows the TypeScript sources:
    - [Point.ts], [ConstructionPoint.ts]: the point and knot objects;
    - [BezierUtils.ts]: the per-segment arc-length sampler;
    - [BezierCanvas.ts]: the editor (insertion, removal, hit tests, tangent
      constraint, import/export, regular sampling);
    - [HistoryManagerAbstract.ts]: the bounded undo/redo stack.

    JavaScript numbers are kept abstract behind the class [JSNumber].  Two
    instances are given: IEEE binary64 (Rocq's primitive floats), on which the
    code can be run, and exact real arithmetic with an explicit NaN, on which
    the algebraic identities behind the algorithms can be proved. *)

From Stdlib Require Import ZArith Bool Lia Floats Reals Lra.
From stdpp Require Import base option list gmap.
From Equations Require Import Equations.

Set Default Proof Using "Type".

(** ** JavaScript numbers *)

Class JSNumber (number : Type) := {
  of_Z : Z -> number;                      (* an integer literal *)
  NaN : number;
  add : number -> number -> number;
  sub : number -> number -> number;
  mul : number -> number -> number;
  div : number -> number -> number;
  Math_sqrt : number -> number;
  Math_round : number -> number;
  Math_floor : number -> number;
  lt : number -> number -> bool;              (* a < b *)
  le : number -> number -> bool;              (* a <= b *)
  eq : number -> number -> bool;              (* a === b *)
  isNaN : number -> bool;
  (* how often the body of [for (let t = 0; t < n; t += 1)] runs; [None] when
     the loop does not end *)
  iterations : number -> option nat
}.

Declare Scope js_scope.
Delimit Scope js_scope with js.
Infix "+" := add : js_scope.
Infix "-" := sub : js_scope.
Infix "*" := mul : js_scope.
Infix "/" := div : js_scope.
Infix "<?" := lt : js_scope.
Infix "<=?" := le : js_scope.
Infix "===" := eq (at level 70, no associativity) : js_scope.
Notation "a >? b" := (lt b a) (only parsing) : js_scope.
Notation "a >=? b" := (le b a) (only parsing) : js_scope.
Notation "a !== b" := (negb (eq a b)) (at level 70, no associativity) : js_scope.
Notation "0" := (of_Z 0) : js_scope.
Notation "1" := (of_Z 1) : js_scope.
Notation "2" := (of_Z 2) : js_scope.
Notation "3" := (of_Z 3) : js_scope.

Definition of_nat `{JSNumber number} (n : nat) : number := of_Z (Z.of_nat n).

(** [Math.pow(b, n)] for the literal exponents 2 and 3 of the sources, as a
    product. *)
Fixpoint Math_pow `{JSNumber number} (b : number) (n : nat) : number :=
  match n with
  | O => 1%js
  | S O => b
  | S n' => (b * Math_pow b n')%js
  end.

(** [Number.isInteger]: a finite number equal to its floor. *)
Definition Number_isInteger `{JSNumber number} (v : number) : bool :=
  ((v - v === 0) && (Math_floor v === v))%js.

(** *** IEEE binary64 *)

Module Float64.

Definition of_Z (z : Z) : float := SF2Prim (binary_normalize prec emax z 0 false).

(** The signed integer [v] and the exponent [e] of a finite non-zero
    [v * 2^e]. *)
Definition floorZ (s : bool) (m : positive) (e : Z) : Z :=
  let v := if s then Z.neg m else Z.pos m in
  if (0 <=? e)%Z then (v * 2 ^ e)%Z else (v / 2 ^ (- e))%Z.

Definition ceilZ (s : bool) (m : positive) (e : Z) : Z :=
  (- floorZ (negb s) m e)%Z.

Definition floor (v : float) : float :=
  match Prim2SF v with
  | S754_finite s m e => if (0 <=? e)%Z then v else of_Z (floorZ s m e)
  | _ => v
  end.

(** [Math.round]: the nearest integer, a tie going up; the sign of a zero
    result is the sign of the argument. *)
Definition round (v : float) : float :=
  match Prim2SF v with
  | S754_finite s m e =>
      if (0 <=? e)%Z then v
      else
        let sv := if s then Z.neg m else Z.pos m in
        let n := ((2 * sv + 2 ^ (- e)) / 2 ^ (1 - e))%Z in
        if (n =? 0)%Z then (if s then (-0)%float else 0%float) else of_Z n
  | _ => v
  end.

Definition iterations (v : float) : option nat :=
  match Prim2SF v with
  | S754_finite s m e => Some (Z.to_nat (ceilZ s m e))
  | S754_infinity false => None
  | _ => Some O
  end.

End Float64.

#[export] Instance float_JSNumber : JSNumber float := {|
  of_Z := Float64.of_Z;
  NaN := nan;
  add := PrimFloat.add;
  sub := PrimFloat.sub;
  mul := PrimFloat.mul;
  div := PrimFloat.div;
  Math_sqrt := PrimFloat.sqrt;
  Math_round := Float64.round;
  Math_floor := Float64.floor;
  lt := PrimFloat.ltb;
  le := PrimFloat.leb;
  eq := PrimFloat.eqb;
  isNaN := PrimFloat.is_nan;
  iterations := Float64.iterations
|}.

(** *** Exact real arithmetic

    The reals extended with NaN: a division by zero and the square root of a
    negative number are NaN, NaN propagates and compares false.  There is no
    rounding and there are no infinities. *)

Inductive xreal : Type :=
  | XNaN
  | XR (r : R).

Module Exact.

Definition lift2 (f : R -> R -> R) (a b : xreal) : xreal :=
  match a, b with
  | XR u, XR v => XR (f u v)
  | _, _ => XNaN
  end.

Definition div (a b : xreal) : xreal :=
  match a, b with
  | XR u, XR v => if Req_dec_T v 0 then XNaN else XR (u / v)
  | _, _ => XNaN
  end.

Definition sqrt (a : xreal) : xreal :=
  match a with
  | XR u => if Rlt_dec u 0 then XNaN else XR (R_sqrt.sqrt u)
  | XNaN => XNaN
  end.

Definition round (a : xreal) : xreal :=
  match a with
  | XR u => XR (IZR (Zfloor (u + / 2)))
  | XNaN => XNaN
  end.

Definition floor (a : xreal) : xreal :=
  match a with
  | XR u => XR (IZR (Zfloor u))
  | XNaN => XNaN
  end.

Definition test2 (P : R -> R -> Prop) (dec : forall u v, {P u v} + {~ P u v})
    (a b : xreal) : bool :=
  match a, b with
  | XR u, XR v => if dec u v then true else false
  | _, _ => false
  end.

Definition isNaN (a : xreal) : bool :=
  match a with
  | XNaN => true
  | XR _ => false
  end.

Definition iterations (a : xreal) : option nat :=
  match a with
  | XR u => Some (Z.to_nat (Zceil u))
  | XNaN => Some O
  end.

End Exact.

#[export] Instance xreal_JSNumber : JSNumber xreal := {|
  of_Z := fun z => XR (IZR z);
  NaN := XNaN;
  add := Exact.lift2 Rplus;
  sub := Exact.lift2 Rminus;
  mul := Exact.lift2 Rmult;
  div := Exact.div;
  Math_sqrt := Exact.sqrt;
  Math_round := Exact.round;
  Math_floor := Exact.floor;
  lt := Exact.test2 Rlt Rlt_dec;
  le := Exact.test2 Rle Rle_dec;
  eq := Exact.test2 (@Logic.eq R) Req_dec_T;
  isNaN := Exact.isNaN;
  iterations := Exact.iterations
|}.

(** ** Point.ts and ConstructionPoint.ts

    An object is referred to by its [id]: [Point.count] hands out a fresh one
    at every construction, so that two references are the same object exactly
    when the ids are equal.  The store maps the id to the object's fields. *)

Abbreviation ref := nat.

(** The fields [ConstructionPoint] adds to [Point]. *)
Record ConstructionFields : Type := mkConstruction {
  _handler1 : option ref;
  _handler2 : option ref;
  fromCasteljau : bool
}.

Record Point {number : Type} : Type := mkPoint {
  x : number;
  y : number;
  active : bool;
  parent : option ref;
  construction : option ConstructionFields  (* [Some] for a ConstructionPoint *)
}.
Arguments Point : clear implicits.
Arguments mkPoint {number}.

Section Points.
Context `{JSNumber number}.

(** [new Point(x, y)]: both coordinates go through the rounding setters. *)
Definition new_Point (vx vy : number) : Point number :=
  {| x := Math_round vx; y := Math_round vy; active := false;
     parent := None; construction := None |}.

Definition new_ConstructionPoint (vx vy : number) : Point number :=
  {| x := Math_round vx; y := Math_round vy; active := false;
     parent := None;
     construction := Some (mkConstruction None None false) |}.

Definition instanceof_ConstructionPoint (p : Point number) : bool :=
  bool_decide (is_Some (construction p)).

(** Field assignments. *)
Definition set_x (v : number) (p : Point number) : Point number :=
  mkPoint v (y p) (active p) (parent p) (construction p).
Definition set_y (v : number) (p : Point number) : Point number :=
  mkPoint (x p) v (active p) (parent p) (construction p).
Definition set_active (v : bool) (p : Point number) : Point number :=
  mkPoint (x p) (y p) v (parent p) (construction p).
Definition set_parent (v : option ref) (p : Point number) : Point number :=
  mkPoint (x p) (y p) (active p) v (construction p).
Definition set_construction (f : ConstructionFields -> ConstructionFields)
    (p : Point number) : Point number :=
  mkPoint (x p) (y p) (active p) (parent p) (f <$> construction p).

(** [BezierCanvas.getDistance] *)
Definition getDistance (a b : Point number) : number :=
  Math_sqrt (Math_pow (x a - x b) 2 + Math_pow (y a - y b) 2)%js.

(** [BezierCanvas.weighted] *)
Definition weighted (P0 P1 : Point number) (t : number) : Point number :=
  new_Point (x P0 * (1 - t) + x P1 * t)%js (y P0 * (1 - t) + y P1 * t)%js.

(** [BezierUtils.cubicBezierInterpolate] *)
Definition cubicBezierInterpolate (t : number) (P0 P1 P2 P3 : Point number)
    : Point number :=
  let vx := (x P0 * Math_pow (1 - t) 3 + 3 * x P1 * t * Math_pow (1 - t) 2
             + 3 * x P2 * t * t * (1 - t) + x P3 * t * t * t)%js in
  let vy := (y P0 * Math_pow (1 - t) 3 + 3 * y P1 * t * Math_pow (1 - t) 2
             + 3 * y P2 * t * t * (1 - t) + y P3 * t * t * t)%js in
  new_Point vx vy.

End Points.

(** ** BezierUtils.ts: the arc-length sampler of one segment *)

Module BezierUtils.

Record t {number : Type} : Type := mk {
  a : Point number;
  b : Point number;
  c : Point number;
  d : Point number;
  length : option number;   (* declared, never assigned: [undefined] *)
  len : nat;
  arcLengths : list number
}.
Arguments t : clear implicits.
Arguments mk {number}.

Section Sampler.
Context `{JSNumber number}.

(** An array read; a missing element is [undefined], which every use
    below converts to NaN. *)
Definition get (arr : list number) (i : Z) : number :=
  if (i <? 0)%Z then NaN else nth (Z.to_nat i) arr NaN.

(** The loop [for (let i = 1; i <= len; i += 1)] of the constructor, [n]
    iterations from [i] on. *)
Fixpoint arcLengths_from (interp : number -> Point number) (len n i : nat)
    (ox oy clen : number) : list number :=
  match n with
  | O => []
  | S n' =>
      let interpolation := interp (of_nat i / of_nat len)%js in
      let vx := x interpolation in
      let vy := y interpolation in
      let dx := (ox - vx)%js in
      let dy := (oy - vy)%js in
      let clen := (clen + Math_sqrt (dx * dx + dy * dy))%js in
      clen :: arcLengths_from interp len n' (S i) vx vy clen
  end.

Definition new (a b c d : Point number) (len : nat) : t number :=
  let interp := fun u => cubicBezierInterpolate u a b c d in
  let interpolationPoint := interp 0%js in
  mk a b c d None len
     (0%js :: arcLengths_from interp len len 1
                (x interpolationPoint) (y interpolationPoint) 0%js).

Definition interpolate (bz : t number) (u : number) : Point number :=
  cubicBezierInterpolate u (a bz) (b bz) (c bz) (d bz).

(** The binary search of [map]; the result is the last value of
    [index]. *)
Equations? search (arr : list number) (targetLength : number)
    (low high index : nat) : nat by wf (high - low)%nat Nat.lt :=
  search arr targetLength low high index with lt_dec low high := {
    | right _ => index
    | left _ =>
        let index := (low + (high - low) / 2)%nat in
        if (get arr (Z.of_nat index) <? targetLength)%js
        then search arr targetLength (index + 1)%nat high index
        else search arr targetLength low index index }.
Proof.
  all: repeat match goal with v := _ |- _ => subst v end.
  all: change (fst (Nat.divmod (high - low) 1 0 1)) with ((high - low) / 2)%nat.
  all: assert ((high - low) / 2 < high - low)%nat
    by (apply Nat.div_lt; lia).
  all: unfold Nat.lt; lia.
Qed.

Definition map (bz : t number) (u : number) : number :=
  let targetLength := (u * get (arcLengths bz) (Z.of_nat (len bz)))%js in
  let index := Z.of_nat (search (arcLengths bz) targetLength 0 (len bz) 0) in
  let index :=
    if (get (arcLengths bz) index >? targetLength)%js
    then (index - 1)%Z else index in
  let lengthBefore := get (arcLengths bz) index in
  if (lengthBefore === targetLength)%js
  then (of_Z index / of_nat (len bz))%js
  else ((of_Z index
         + (targetLength - lengthBefore)
           / (get (arcLengths bz) (index + 1) - lengthBefore))
        / of_nat (len bz))%js.

Definition mx (bz : t number) (u : number) : number :=
  x (interpolate bz (map bz u)).

Definition my (bz : t number) (u : number) : number :=
  y (interpolate bz (map bz u)).

(** The loop of [getLength], [n] iterations from [i] on. *)
Fixpoint getLength_from (bz : t number) (n i : nat)
    (prevPt : number * number) (length : number) : number :=
  match n with
  | O => length
  | S n' =>
      let u := (of_nat i / of_Z 100)%js in
      let t1 := (1 - u)%js in
      let t1_3 := (t1 * t1 * t1)%js in
      let t1_3a := ((3 * u) * (t1 * t1))%js in
      let t1_3b := ((3 * (u * u)) * t1)%js in
      let t1_3c := (u * u * u)%js in
      let ptx := ((x (a bz) * t1_3) + (t1_3a * x (b bz))
                  + (t1_3b * x (c bz)) + (t1_3c * x (d bz)))%js in
      let pty := ((y (a bz) * t1_3) + (t1_3a * y (b bz))
                  + (t1_3b * y (c bz)) + (t1_3c * y (d bz)))%js in
      let length :=
        if (0 <? i)%nat then
          let vx := (ptx - fst prevPt)%js in
          let vy := (pty - snd prevPt)%js in
          (length + Math_sqrt (vx * vx + vy * vy))%js
        else length in
      getLength_from bz n' (S i) (ptx, pty) length
  end.

Definition getLength (bz : t number) : number :=
  getLength_from bz 100 0 (NaN, NaN) 0%js.

End Sampler.
End BezierUtils.

(** ** LineCap.ts: the line caps of the spline rendering *)

Module LineCap.
Import Stdlib.Strings.String.
Local Open Scope string_scope.

Definition Butt : string := "butt".
Definition Round : string := "round".
Definition Square : string := "square".

(** [LineCap.parse] *)
Definition parse (val : String.string) : String.string :=
  if (String.eqb val Butt || String.eqb val Round || String.eqb val Square)%bool
  then val else Round.

End LineCap.

(** ** BezierCanvas.ts: the editor state

    The history half of the object lives in [HistoryManagerAbstract] and is
    modelled on its own further down; the editor half only meets it when a
    released pointer pushes a snapshot and when undo or redo imports one
    through [setPoints]. *)

Record Options {number : Type} : Type := mkOptions {
  historySize : Z;
  naturalDrawMode : bool;
  maxDistance : number;
  smoothFactor : number;
  constraintTangents : bool
}.
Arguments Options : clear implicits.
Arguments mkOptions {number}.

Record BezierCanvas {number : Type} : Type := mkCanvas {
  store : gmap ref (Point number);     (* the objects, by id *)
  Point_count : nat;                   (* the static [Point.count] *)
  constructionPoints : list ref;
  currentMovingPoint : option ref;
  isMouseDown : bool;
  ctrlKeyIsDown : bool;
  mouseReleaseAfterConstructionPointCreation : bool;
  options : Options number
}.
Arguments BezierCanvas : clear implicits.
Arguments mkCanvas {number}.

(** One record of the export schema: [{x, y, hp1: {x, y}, hp2?: {x, y}}]. *)
Record PointRecord {number : Type} : Type := mkRecord {
  rec_x : number;
  rec_y : number;
  hp1 : number * number;
  hp2 : option (number * number)
}.
Arguments PointRecord : clear implicits.
Arguments mkRecord {number}.

(** *** Computations on the editor state

    A method runs on the state and either returns a value or throws (a
    [TypeError] on a [null] dereference); what it wrote before throwing
    stays written. *)

Definition M (number A : Type) : Type :=
  BezierCanvas number -> option A * BezierCanvas number.

#[export] Instance M_ret {number} : MRet (M number) :=
  fun A v s => (Some v, s).

#[export] Instance M_bind {number} : MBind (M number) :=
  fun A B k m s =>
    match m s with
    | (Some v, s') => k v s'
    | (None, s') => (None, s')
    end.

Section Store.
Context {number : Type}.
Local Abbreviation M := (M number).
Local Abbreviation canvas := (BezierCanvas number).

Definition throw {A} : M A := fun s => (None, s).

Definition get_canvas : M canvas := fun s => (Some s, s).

Definition put_canvas (s' : canvas) : M unit := fun _ => (Some tt, s').

Definition set_store (v : gmap ref (Point number)) (s : canvas) : canvas :=
  mkCanvas v (Point_count s) (constructionPoints s) (currentMovingPoint s)
    (isMouseDown s) (ctrlKeyIsDown s)
    (mouseReleaseAfterConstructionPointCreation s) (options s).
Definition set_Point_count (v : nat) (s : canvas) : canvas :=
  mkCanvas (store s) v (constructionPoints s) (currentMovingPoint s)
    (isMouseDown s) (ctrlKeyIsDown s)
    (mouseReleaseAfterConstructionPointCreation s) (options s).
Definition set_constructionPoints (v : list ref) (s : canvas) : canvas :=
  mkCanvas (store s) (Point_count s) v (currentMovingPoint s)
    (isMouseDown s) (ctrlKeyIsDown s)
    (mouseReleaseAfterConstructionPointCreation s) (options s).
Definition set_currentMovingPoint (v : option ref) (s : canvas) : canvas :=
  mkCanvas (store s) (Point_count s) (constructionPoints s) v
    (isMouseDown s) (ctrlKeyIsDown s)
    (mouseReleaseAfterConstructionPointCreation s) (options s).
Definition set_isMouseDown (v : bool) (s : canvas) : canvas :=
  mkCanvas (store s) (Point_count s) (constructionPoints s)
    (currentMovingPoint s) v (ctrlKeyIsDown s)
    (mouseReleaseAfterConstructionPointCreation s) (options s).
Definition set_ctrlKeyIsDown (v : bool) (s : canvas) : canvas :=
  mkCanvas (store s) (Point_count s) (constructionPoints s)
    (currentMovingPoint s) (isMouseDown s) v
    (mouseReleaseAfterConstructionPointCreation s) (options s).
Definition set_mouseRelease (v : bool) (s : canvas) : canvas :=
  mkCanvas (store s) (Point_count s) (constructionPoints s)
    (currentMovingPoint s) (isMouseDown s) (ctrlKeyIsDown s) v (options s).
Definition set_options (v : Options number) (s : canvas) : canvas :=
  mkCanvas (store s) (Point_count s) (constructionPoints s)
    (currentMovingPoint s) (isMouseDown s) (ctrlKeyIsDown s)
    (mouseReleaseAfterConstructionPointCreation s) v.

Definition modify (f : canvas -> canvas) : M unit := fun s => (Some tt, f s).

(** Reading the object behind a reference. *)
Definition deref (r : ref) : M (Point number) :=
  fun s => (store s !! r, s).

(** Reading through a reference that may be [null]. *)
Definition deref_opt (o : option ref) : M (Point number) :=
  match o with
  | Some r => deref r
  | None => throw
  end.

(** A construction: the object gets the next id. *)
Definition alloc (p : Point number) : M ref :=
  fun s =>
    let id := Point_count s in
    (Some id, set_Point_count (S id) (set_store (<[id := p]> (store s)) s)).

(** A write to fields of the object behind [r]. *)
Definition update (r : ref) (f : Point number -> Point number) : M unit :=
  modify (fun s => set_store (alter f r (store s)) s).

Definition update_opt (o : option ref) (f : Point number -> Point number)
    : M unit :=
  match o with
  | Some r => update r f
  | None => throw
  end.

(** The getters [handler1], [handler2]; on a plain [Point] the property is
    missing, which is as falsy as [null]. *)
Definition handler1 (p : Point number) : option ref :=
  construction p ≫= _handler1.
Definition handler2 (p : Point number) : option ref :=
  construction p ≫= _handler2.

(** The field [fromCasteljau]; a plain [Point] has none, which is falsy. *)
Definition get_fromCasteljau (p : Point number) : bool :=
  match construction p with
  | Some c => fromCasteljau c
  | None => false
  end.

(** The setters of [ConstructionPoint]. *)
Definition set_handler1 (this : ref) (point : option ref) : M unit :=
  update this (set_construction
    (fun c => mkConstruction point (_handler2 c) (fromCasteljau c)));;
  match point with
  | Some h => update h (set_parent (Some this))
  | None => mret tt
  end.

Definition set_handler2 (this : ref) (point : option ref) : M unit :=
  update this (set_construction
    (fun c => mkConstruction (_handler1 c) point (fromCasteljau c)));;
  match point with
  | Some h => update h (set_parent (Some this))
  | None => mret tt
  end.

Definition set_fromCasteljau (this : ref) (v : bool) : M unit :=
  update this (set_construction
    (fun c => mkConstruction (_handler1 c) (_handler2 c) v)).

(** [Point.isHandler1], [Point.isHandler2]: [this.parent.handlerN == this]. *)
Definition isHandler1 (this : ref) : M bool :=
  p ← deref this;
  q ← deref_opt (parent p);
  mret (bool_decide (handler1 q = Some this)).

Definition isHandler2 (this : ref) : M bool :=
  p ← deref this;
  q ← deref_opt (parent p);
  mret (bool_decide (handler2 q = Some this)).

(** [this.constructionPoints.forEach(callback)]: the indices below the
    length at the start are visited in order, the element being read when
    its turn comes; the locals the callback assigns are threaded as [acc]. *)
Fixpoint forEach_from {A} (n k : nat) (callback : ref -> nat -> A -> M A)
    (acc : A) : M A :=
  match n with
  | O => mret acc
  | S n' =>
      s ← get_canvas;
      match constructionPoints s !! k with
      | Some r => acc ← callback r k acc; forEach_from n' (S k) callback acc
      | None => forEach_from n' (S k) callback acc
      end
  end.

Definition forEach {A} (callback : ref -> nat -> A -> M A) (acc : A) : M A :=
  s ← get_canvas;
  forEach_from (length (constructionPoints s)) 0 callback acc.

(** [array[i]] for an index that may be negative. *)
Definition at_index (l : list ref) (i : Z) : option ref :=
  if (i <? 0)%Z then None else l !! Z.to_nat i.

(** [resetActivePoint] *)
Definition resetActivePoint : M unit :=
  forEach (fun point _ _ =>
    update point (set_active false);;
    p ← deref point;
    update_opt (handler1 p) (set_active false);;
    match handler2 p with
    | Some h => update h (set_active false)
    | None => mret tt
    end) tt.

(** [setActivePoint] *)
Definition setActivePoint (point : option ref) : M unit :=
  resetActivePoint;;
  update_opt point (set_active true);;
  modify (set_currentMovingPoint point).

End Store.

(** *** The editor's methods *)

Section Editor.
Context `{JSNumber number}.
Local Abbreviation M := (M number).
Local Abbreviation canvas := (BezierCanvas number).

(** The locals of [removeConstructionPoint] that its [forEach] assigns. *)
Record RemovalLocals : Type := mkRemoval {
  foundIndex : option nat;    (* [None] is the initial NaN *)
  foundPoint : option ref;
  rP0 : option ref;
  rP1 : option ref;
  rP2 : option ref;
  rP3 : option ref
}.

Definition removal_scan (point : ref) : M RemovalLocals :=
  forEach (fun curPoint index acc =>
    if bool_decide (curPoint = point) then
      s ← get_canvas;
      let P0 := at_index (constructionPoints s) (Z.of_nat index - 1) in
      P1 ← match P0 with
           | Some r0 =>
               p0 ← deref r0;
               mret (match handler2 p0 with
                     | Some h => Some h
                     | None => handler1 p0
                     end)
           | None => mret None
           end;
      let P3 := at_index (constructionPoints s) (Z.of_nat index + 1) in
      P2 ← match P3 with
           | Some r3 => p3 ← deref r3; mret (handler1 p3)
           | None => mret None
           end;
      mret (mkRemoval (Some index) (Some curPoint) P0 P1 P2 P3)
    else mret acc)
    (mkRemoval None None None None None None).

(** [array.splice(start, 1)], [start] being NaN (read as 0) when nothing
    was found. *)
Definition splice_remove (start : option nat) (l : list ref) : list ref :=
  delete (default O start) l.

(** [array.splice(start, 0, item)] *)
Definition splice_insert (start : nat) (item : ref) (l : list ref)
    : list ref :=
  take start l ++ item :: drop start l.

(** The reverse De Casteljau step of [removeConstructionPoint]: the new
    control points [P] and [Q] from the ratio [k]. *)
Definition fusion_P (k : number) (P0 P1 : Point number) : Point number :=
  new_Point ((1 + k) * x P1 - k * x P0)%js ((1 + k) * y P1 - k * y P0)%js.

Definition fusion_Q (k : number) (P2 P3 : Point number) : Point number :=
  new_Point (((1 + k) * x P2 - x P3) / k)%js
            (((1 + k) * y P2 - y P3) / k)%js.

(** The last statement of [removeConstructionPoint]: first & last points only
    have one handler (in normal mode). *)
Definition keepOneHandlerAtEnds : M unit :=
  s ← get_canvas;
  match constructionPoints s !! O, last (constructionPoints s) with
  | Some first, Some final =>
      if negb (naturalDrawMode (options s)) then
        firstObj ← deref first;
        match handler2 firstObj with
        | Some h =>
            hObj ← deref h;
            clone ← alloc (new_Point (x hObj) (y hObj));
            set_handler1 first (Some clone);;
            set_handler2 first None
        | None => mret tt
        end;;
        set_handler2 final None
      else mret tt
  | _, _ => mret tt
  end.

(** [removeConstructionPoint] *)
Definition removeConstructionPoint (point : ref) : M unit :=
  s ← get_canvas;
  (if bool_decide (currentMovingPoint s = Some point)
   then modify (set_currentMovingPoint None) else mret tt);;
  found ← removal_scan point;
  pointObj ← deref point;
  match guard (get_fromCasteljau pointObj = true),
        rP0 found, rP1 found, rP2 found, rP3 found with
  | Some _, Some P0, Some P1, Some P2, Some P3 =>
      foundObj ← deref_opt (foundPoint found);
      h2 ← deref_opt (handler2 foundObj);
      h1 ← deref_opt (handler1 foundObj);
      let k := (getDistance h2 foundObj / getDistance h1 foundObj)%js in
      if negb (isNaN k) then
        p0 ← deref P0;
        p1 ← deref P1;
        p2 ← deref P2;
        p3 ← deref P3;
        let P := fusion_P k p0 p1 in
        let Q := fusion_Q k p2 p3 in
        update P1 (set_x (x P));;
        update P1 (set_y (y P));;
        update P2 (set_x (x Q));;
        update P2 (set_y (y Q))
      else mret tt
  | _, _, _, _, _ => mret tt
  end;;
  modify (fun s =>
    set_constructionPoints
      (splice_remove (foundIndex found) (constructionPoints s)) s);;
  keepOneHandlerAtEnds.

(** [findClosestConstructionPoint] *)
Definition findClosestConstructionPoint (vx vy : number) : M (option ref) :=
  let position := new_Point vx vy in
  s ← get_canvas;
  forEach (fun curPoint _ foundPoint =>
    cur ← deref curPoint;
    let distance := getDistance position cur in
    if (distance <? maxDistance (options s))%js
    then mret (Some curPoint)
    else mret foundPoint) None.

(** The locals of [findPointOnSpline]. *)
Record ProjectionLocals : Type := mkProjection {
  proj_point : option (Point number);
  proj_distance : number;
  proj_position : option nat;   (* [None] is the initial NaN *)
  proj_t : number;
  proj_P0 : option ref;
  proj_P1 : option ref;
  proj_P2 : option ref;
  proj_P3 : option ref
}.

(** What [findPointOnSpline] returns when it found a point. *)
Record Projection : Type := mkProjected {
  on_point : Point number;
  on_distance : number;
  on_position : nat;
  on_t : number;
  on_P0 : option ref;
  on_P1 : option ref;
  on_P2 : option ref;
  on_P3 : option ref
}.

(** The inner loop [for (let i = 0; i <= steps; i++)] over one segment. *)
Definition projection_step (maxD : number) (clickPosition : Point number)
    (index : nat) (r0 r1 r2 r3 : option ref) (p0 p1 p2 p3 : Point number)
    (acc : ProjectionLocals) (i : nat) : ProjectionLocals :=
  let steps := of_Z 100 in
  let curPoint := cubicBezierInterpolate (of_nat i / steps)%js p0 p1 p2 p3 in
  let curDistance := getDistance curPoint clickPosition in
  if ((curDistance <=? maxD)
      && (isNaN (proj_distance acc) || (proj_distance acc >? curDistance)))%js
  then mkProjection (Some (new_Point (x curPoint) (y curPoint))) curDistance
         (Some index) (of_nat i / steps)%js r0 r1 r2 r3
  else acc.

(** [findPointOnSpline] *)
Definition findPointOnSpline (vx vy : number) : M (option Projection) :=
  let clickPosition := new_Point vx vy in
  found ← forEach (fun currentPoint index acc =>
    s ← get_canvas;
    match constructionPoints s !! S index with
    | None => mret acc
    | Some nextPoint =>
        p0 ← deref currentPoint;
        let r1 := match handler2 p0 with
                  | Some h => Some h
                  | None => handler1 p0
                  end in
        p1 ← deref_opt r1;
        p3 ← deref nextPoint;
        p2 ← deref_opt (handler1 p3);
        mret (foldl (projection_step (maxDistance (options s)) clickPosition
                       index (Some currentPoint) r1 (handler1 p3)
                       (Some nextPoint) p0 p1 p2 p3)
                    acc (seq 0 101))
    end)
    (mkProjection None NaN None NaN None None None None);
  mret (match proj_point found with
        | Some q =>
            Some (mkProjected q (proj_distance found)
                    (default O (proj_position found) + 1) (proj_t found)
                    (proj_P0 found) (proj_P1 found)
                    (proj_P2 found) (proj_P3 found))
        | None => None
        end).

(** [knotInsertion] *)
Definition knotInsertion (t : number) (P0 P1 P2 P3 : option ref) : M unit :=
  p0 ← deref_opt P0;
  p1 ← deref_opt P1;
  p2 ← deref_opt P2;
  p3 ← deref_opt P3;
  let P4 := weighted p0 p1 t in
  let P5 := weighted p1 p2 t in
  let P6 := weighted p2 p3 t in
  let P7 := weighted P4 P5 t in
  let P8 := weighted P5 P6 t in
  let P9 := weighted P7 P8 t in
  newPoint ← alloc (new_ConstructionPoint (x P9) (y P9));
  set_fromCasteljau newPoint true;;
  setActivePoint (Some newPoint);;
  h1 ← alloc P7;
  set_handler1 newPoint (Some h1);;
  h2 ← alloc P8;
  set_handler2 newPoint (Some h2);;
  update_opt P1 (set_x (x P4));;
  update_opt P1 (set_y (y P4));;
  update_opt P2 (set_x (x P6));;
  update_opt P2 (set_y (y P6));;
  forEach (fun point index _ =>
    if bool_decide (Some point = P0) then
      modify (fun s =>
        set_constructionPoints
          (splice_insert (index + 1) newPoint (constructionPoints s)) s)
    else mret tt) tt.

(** A candidate of the Ctrl+mousedown selection: [checkedPoint] replaces
    the selection when it is within reach and not farther than it. *)
Definition selection_step (maxD : number) (position : Point number)
    (acc : number * option ref) (r : ref) (checkedPoint : Point number)
    : number * option ref :=
  let curDistance := getDistance checkedPoint position in
  if ((curDistance <=? maxD)
      && (isNaN (fst acc) || (fst acc >=? curDistance)))%js
  then (getDistance checkedPoint position, Some r)
  else acc.

(** The tail of the mousedown handler: no point was selected, a new
    construction point is created at [position]. *)
Definition createConstructionPoint (position : Point number) : M unit :=
  modify (set_mouseRelease false);;
  point ← alloc (new_ConstructionPoint (x position) (y position));
  h1 ← alloc (new_Point (x position) (y position));
  set_handler1 point (Some h1);;
  s ← get_canvas;
  (if naturalDrawMode (options s) then
     h2 ← alloc (new_Point (x position) (y position));
     set_handler2 point (Some h2)
   else mret tt);;
  modify (fun s => set_constructionPoints (constructionPoints s ++ [point]) s);;
  pointObj ← deref point;
  setActivePoint (if naturalDrawMode (options s)
                  then handler2 pointObj else handler1 pointObj);;
  s ← get_canvas;
  if (2 <? length (constructionPoints s))%nat then
    (* Set the handler2 of the N-1 (previous) point *)
    match constructionPoints s !! (length (constructionPoints s) - 2)%nat with
    | Some D =>
        d ← deref D;
        let sf := smoothFactor (options s) in
        if naturalDrawMode (options s) then
          dh2 ← deref_opt (handler2 d);
          h ← alloc (new_Point (x d - sf * (x dh2 - x d))%js
                               (y d - sf * (y dh2 - y d))%js);
          set_handler1 D (Some h)
        else
          dh1 ← deref_opt (handler1 d);
          h ← alloc (new_Point (x d - sf * (x dh1 - x d))%js
                               (y d - sf * (y dh1 - y d))%js);
          set_handler2 D (Some h)
    | None => throw
    end
  else mret tt.

(** The left mousedown handler; [ex], [ey] are the pointer's coordinates
    relative to the canvas. *)
Definition mouseDownLeft (ex ey : number) : M unit :=
  modify (set_isMouseDown true);;
  let position := new_Point ex ey in
  s ← get_canvas;
  if ctrlKeyIsDown s then
    (* When Ctrl Key is down, check if mousedown on a point *)
    sel ← forEach (fun constructionPoint _ acc =>
      cp ← deref constructionPoint;
      let maxD := maxDistance (options s) in
      let acc := selection_step maxD position acc constructionPoint cp in
      match handler1 cp with
      | Some r1 =>
          h1 ← deref r1;
          let acc := selection_step maxD position acc r1 h1 in
          match handler2 cp with
          | Some r2 =>
              h2 ← deref r2;
              mret (selection_step maxD position acc r2 h2)
          | None => mret acc
          end
      | None => throw
      end) (NaN, None);
    match snd sel with
    | None => modify (set_currentMovingPoint None)
    | Some selectedPoint => setActivePoint (Some selectedPoint)
    end
  else
    pointOnSpline ← findPointOnSpline (x position) (y position);
    match pointOnSpline with
    | Some q => knotInsertion (on_t q) (on_P0 q) (on_P1 q) (on_P2 q) (on_P3 q)
    | None => createConstructionPoint position
    end.

(** The tangent constraint of the mousemove handler, for a dragged point
    that is not a construction point; [false] is the handler's early
    [return]. *)
Definition constrainTangents (activePoint : ref) (position : Point number)
    : M bool :=
  s ← get_canvas;
  a ← deref activePoint;
  let pencil := naturalDrawMode (options s)
                && negb (mouseReleaseAfterConstructionPointCreation s) in
  isH1 ← isHandler1 activePoint;
  par ← deref_opt (parent a);
  if isH1 && bool_decide (is_Some (handler2 par)) then
    h2 ← deref_opt (handler2 par);
    let distance1 := getDistance position par in
    let distance2 := getDistance h2 par in
    if pencil then
      update_opt (handler2 par) (set_x (x par - (x position - x par))%js);;
      update_opt (handler2 par) (set_y (y par - (y position - y par))%js);;
      mret true
    else
      let ratio := (distance1 / distance2)%js in
      if (ratio !== 0)%js then
        update_opt (handler2 par)
          (set_x (x par + (1 / ratio) * (x par - x position))%js);;
        update_opt (handler2 par)
          (set_y (y par + (1 / ratio) * (y par - y position))%js);;
        mret true
      else mret false
  else
    isH2 ← isHandler2 activePoint;
    if (isH2 : bool) then
      h1 ← deref_opt (handler1 par);
      let distance1 := getDistance position par in
      let distance2 := getDistance h1 par in
      let ratio := (distance1 / distance2)%js in
      if pencil then
        update_opt (handler1 par) (set_x (x par - (x position - x par))%js);;
        update_opt (handler1 par) (set_y (y par - (y position - y par))%js);;
        mret true
      else
        if (ratio !== 0)%js then
          update_opt (handler1 par)
            (set_x (x par + (1 / ratio) * (x par - x position))%js);;
          update_opt (handler1 par)
            (set_y (y par + (1 / ratio) * (y par - y position))%js);;
          mret true
        else mret false
    else mret true.

(** The mousemove handler, for an event that passes the rate limit. *)
Definition mouseMove (ex ey : number) : M unit :=
  s ← get_canvas;
  if negb (isMouseDown s) then mret tt
  else
    let position := new_Point ex ey in
    match currentMovingPoint s with
    | None => mret tt
    | Some activePoint =>
        a ← deref activePoint;
        delta1 ← (if instanceof_ConstructionPoint a then
                    h1 ← deref_opt (handler1 a);
                    mret (x a - x h1, y a - y h1)%js
                  else mret (NaN, NaN));
        delta2 ← (if instanceof_ConstructionPoint a then
                    match handler2 a with
                    | Some r2 => h2 ← deref r2;
                                 mret (x a - x h2, y a - y h2)%js
                    | None => mret (NaN, NaN)
                    end
                  else mret (NaN, NaN));
        go ← (if negb (instanceof_ConstructionPoint a)
                 && constraintTangents (options s)
              then constrainTangents activePoint position
              else mret true);
        if (go : bool) then
          update activePoint (set_x (x position));;
          update activePoint (set_y (y position));;
          if instanceof_ConstructionPoint a then
            a ← deref activePoint;
            update_opt (handler1 a) (set_x (x a - fst delta1)%js);;
            update_opt (handler1 a) (set_y (y a - snd delta1)%js);;
            match handler2 a with
            | Some r2 =>
                update r2 (set_x (x a - fst delta2)%js);;
                update r2 (set_y (y a - snd delta2)%js)
            | None => mret tt
            end
          else mret tt
        else mret tt
    end.

(** The mouseup and mouseleave handlers (their push onto the history is in
    the history half). *)
Definition mouseUp : M unit :=
  modify (set_isMouseDown false);;
  modify (set_mouseRelease true).

(** The contextmenu (right click) handler. *)
Definition contextMenu (ex ey : number) : M unit :=
  let position := new_Point ex ey in
  point ← findClosestConstructionPoint (x position) (y position);
  match point with
  | Some r => removeConstructionPoint r
  | None => mret tt
  end.

Definition keyDown (ctrlKey : bool) : M unit :=
  if ctrlKey then modify (set_ctrlKeyIsDown true) else mret tt.

Definition keyUp : M unit := modify (set_ctrlKeyIsDown false).

(** [reset] *)
Definition reset : M unit := modify (set_constructionPoints []).

(** [getPoints] *)
Definition getPoints : M (list (PointRecord number)) :=
  forEach (fun point _ ret =>
    p ← deref point;
    h1 ← deref_opt (handler1 p);
    match handler2 p with
    | Some r2 =>
        h2 ← deref r2;
        mret (ret ++ [mkRecord (x p) (y p) (x h1, y h1) (Some (x h2, y h2))])
    | None =>
        mret (ret ++ [mkRecord (x p) (y p) (x h1, y h1) None])
    end) [].

(** [setPoints] *)
Fixpoint setPoints_from (points : list (PointRecord number)) : M unit :=
  match points with
  | [] => mret tt
  | point :: rest =>
      parsed ← alloc (new_ConstructionPoint (rec_x point) (rec_y point));
      h1 ← alloc (new_Point (fst (hp1 point)) (snd (hp1 point)));
      set_handler1 parsed (Some h1);;
      match hp2 point with
      | Some q => h2 ← alloc (new_Point (fst q) (snd q));
                  set_handler2 parsed (Some h2)
      | None => mret tt
      end;;
      modify (fun s =>
        set_constructionPoints (constructionPoints s ++ [parsed]) s);;
      setPoints_from rest
  end.

Definition setPoints (points : list (PointRecord number)) : M unit :=
  reset;; setPoints_from points.

(** [setOptions], for the options the editor reads. *)
Definition setOptions (o : Options number) : M unit := modify (set_options o).

(** The locals of the second [forEach] of [getRegularlyPlacedPoints]. *)
Record PlacingLocals : Type := mkPlacing {
  drawnNumber : number;
  currentDistance : number;
  placed : list (Point number)
}.

(** [bz.length - 1], [bz.length] being [undefined] or a number. *)
Definition length_minus_1 (bz : BezierUtils.t number) : number :=
  (default NaN (BezierUtils.length bz) - 1)%js.

(** One turn of [beziers.forEach]; [None] when the inner [for] loop does
    not end. *)
Definition place_segment (shapesCount length : number) (count : nat)
    (acc : PlacingLocals) (index : nat) (bz : BezierUtils.t number)
    : option PlacingLocals :=
  let currentDistance := (currentDistance acc + BezierUtils.getLength bz)%js in
  let shapesToStick :=
    (Math_floor ((currentDistance / length) * shapesCount) - drawnNumber acc)%js in
  let shapesToStick :=
    if (of_nat index === length_minus_1 bz)%js
    then (shapesCount - drawnNumber acc)%js else shapesToStick in
  let drawnNumber := (drawnNumber acc + shapesToStick)%js in
  if (shapesToStick >? 0)%js then
    n ← iterations shapesToStick;
    let shape (i : nat) :=
      let u := if bool_decide (Z.of_nat index = Z.of_nat count - 1)%Z
               then (of_nat i / (shapesToStick - 1))%js
               else (of_nat i / shapesToStick)%js in
      new_Point (BezierUtils.mx bz u) (BezierUtils.my bz u) in
    Some (mkPlacing drawnNumber currentDistance
                    (placed acc ++ (shape <$> seq 0 n)))
  else Some (mkPlacing drawnNumber currentDistance (placed acc)).

Fixpoint place_from (shapesCount length : number) (count : nat)
    (acc : PlacingLocals) (index : nat) (beziers : list (BezierUtils.t number))
    : option PlacingLocals :=
  match beziers with
  | [] => Some acc
  | bz :: rest =>
      acc ← place_segment shapesCount length count acc index bz;
      place_from shapesCount length count acc (S index) rest
  end.

(** [getRegularlyPlacedPoints]; the inner [None] is a loop that does not
    end. *)
Definition getRegularlyPlacedPoints (shapesCount : number)
    : M (option (list (Point number))) :=
  s ← get_canvas;
  if (length (constructionPoints s) <? 2)%nat then mret (Some [])
  else
    (* Getting the total length *)
    segments ← forEach (fun currentPoint index acc =>
      match constructionPoints s !! S index with
      | None => mret acc
      | Some nextPoint =>
          p0 ← deref currentPoint;
          p1 ← deref_opt (match handler2 p0 with
                          | Some h => Some h
                          | None => handler1 p0
                          end);
          p3 ← deref nextPoint;
          p2 ← deref_opt (handler1 p3);
          let bz := BezierUtils.new p0 p1 p2 p3 200 in
          mret (fst acc ++ [bz], (snd acc + BezierUtils.getLength bz)%js)
      end) ([], 0%js);
    let beziers := fst segments in
    mret (placed <$> place_from shapesCount (snd segments) (length beziers)
                       (mkPlacing 0%js 0%js []) 0 beziers).

(** *** The events that drive the editor *)

Inductive Event : Type :=
  | MouseDownLeft (ex ey : number)
  | MouseMove (ex ey : number)
  | MouseUp
  | MouseLeave
  | ContextMenu (ex ey : number)
  | KeyDown (ctrlKey : bool)
  | KeyUp
  | SetPoints (points : list (PointRecord number))
  | SetOptions (o : Options number)
  | Reset.

Definition handle (e : Event) : M unit :=
  match e with
  | MouseDownLeft ex ey => mouseDownLeft ex ey
  | MouseMove ex ey => mouseMove ex ey
  | MouseUp | MouseLeave => mouseUp
  | ContextMenu ex ey => contextMenu ex ey
  | KeyDown ctrlKey => keyDown ctrlKey
  | KeyUp => keyUp
  | SetPoints points => setPoints points
  | SetOptions o => setOptions o
  | Reset => reset
  end.

(** An event whose handler throws leaves the state as the handler left
    it. *)
Definition step (s : canvas) (e : Event) : canvas := snd (handle e s).

Definition run (es : list Event) (s : canvas) : canvas := foldl step s es.

(** The editor as constructed with the default options and no points. *)
Definition defaultOptions : Options number :=
  mkOptions 50 true (of_Z 10) (of_Z 1 / of_Z 2)%js true.

Definition initial (o : Options number) : canvas :=
  mkCanvas ∅ 0 [] None false false true o.

End Editor.

(** ** HistoryManagerAbstract.ts: the bounded undo/redo stack

    The three abstract methods are parameters: [getCurrentState] and
    [getCurrentStateHash] are passed as their current values, and the state
    [applyHistoryState] is called on is returned. *)

Module HistoryManagerAbstract.

Record t {State Hash : Type} : Type := mk {
  statesCursor : Z;
  statesStack : list State;
  lastHistoryStateHash : option Hash;   (* [None] is [null] *)
  historySize : Z
}.
Arguments t : clear implicits.
Arguments mk {State Hash}.

Section Methods.
Context {State Hash : Type} `{EqDecision Hash}.
Local Abbreviation manager := (t State Hash).

(** The constructor; the stack is empty and the cursor 0. *)
Definition new (historySize : Z) : manager := mk 0 [] None historySize.

(** [array.slice(0, end)] *)
Definition slice_to (e : Z) (l : list State) : list State :=
  if (e <? 0)%Z
  then take (Z.to_nat (Z.max (Z.of_nat (length l) + e) 0)) l
  else take (Z.to_nat e) l.

Definition safeStatesCursor (cursor : Z) (m : manager) : manager :=
  mk (Z.max 0 (Z.min (Z.of_nat (length (statesStack m)) - 1) cursor))
     (statesStack m) (lastHistoryStateHash m) (historySize m).

Definition removeFirstState (m : manager) : manager :=
  mk (statesCursor m) (tail (statesStack m)) (lastHistoryStateHash m)
     (historySize m).

(** [statesBackward], [statesForward]: the manager afterwards and the
    state handed to [applyHistoryState], if any. *)
Definition statesBackward (m : manager) : manager * option State :=
  if bool_decide (statesStack m = []) then (m, None)
  else
    let m := safeStatesCursor (statesCursor m - 1) m in
    (m, statesStack m !! Z.to_nat (statesCursor m)).

Definition statesForward (m : manager) : manager * option State :=
  if bool_decide (statesStack m = []) then (m, None)
  else
    let m := safeStatesCursor (statesCursor m + 1) m in
    (m, statesStack m !! Z.to_nat (statesCursor m)).

Definition pushHistoryState (state : option State) (getCurrentState : State)
    (m : manager) : manager :=
  let m := mk (statesCursor m)
              (slice_to (statesCursor m + 1) (statesStack m))
              (lastHistoryStateHash m) (historySize m) in
  let m := if (Z.of_nat (length (statesStack m)) =? historySize m)%Z
           then removeFirstState m else m in
  let stack := statesStack m ++ [default getCurrentState state] in
  mk (Z.of_nat (length stack) - 1) stack (lastHistoryStateHash m)
     (historySize m).

Definition pushHistoryStateIfChanged (getCurrentState : State)
    (getCurrentStateHash : Hash) (m : manager) : manager :=
  if bool_decide (Some getCurrentStateHash <> lastHistoryStateHash m) then
    let m := mk (statesCursor m) (statesStack m) (Some getCurrentStateHash)
                (historySize m) in
    pushHistoryState (Some getCurrentState) getCurrentState m
  else m.

Definition historyReset (m : manager) : manager :=
  mk 0 [] None (historySize m).

End Methods.
End HistoryManagerAbstract.

(** * Properties

    ** The predicates of the statements *)

Section HistoryPredicates.
Context {State Hash : Type} `{EqDecision Hash}.
Import HistoryManagerAbstract.
Local Abbreviation manager := (HistoryManagerAbstract.t State Hash).

(** Pushing the states of [l], oldest first. *)
Definition push_all (cur : State) (l : list State) (m : manager) : manager :=
  foldl (fun m st => pushHistoryState (Some st) cur m) m l.

(** The stack is within its capacity and the cursor is on its last entry. *)
Definition at_end (m : manager) : Prop :=
  (Z.of_nat (length (statesStack m)) <= historySize m)%Z
  /\ statesCursor m = Z.max 0 (Z.of_nat (length (statesStack m)) - 1).

End HistoryPredicates.

Section LinkPredicates.
Context {number : Type}.
Local Abbreviation M := (M number).
Local Abbreviation canvas := (BezierCanvas number).

(** Every handle an object refers to exists and points back to it. *)
Definition children_ok (σ : gmap ref (Point number)) : Prop :=
  forall (k : ref) (p : Point number) (h : ref),
    σ !! k = Some p -> handler1 p = Some h \/ handler2 p = Some h ->
    exists ph, σ !! h = Some ph /\ parent ph = Some k.

(** Ids in use are below [Point.count]. *)
Definition bounded (s : canvas) : Prop :=
  forall r : ref, is_Some (store s !! r) -> (r < Point_count s)%nat.

Definition linked (s : canvas) : Prop := bounded s /\ children_ok (store s).

(** The property of C10 on the knots of the spline. *)
Definition parents_ok (s : canvas) : Prop :=
  forall (k : ref) (p : Point number) (h : ref),
    k ∈ constructionPoints s -> store s !! k = Some p ->
    handler1 p = Some h \/ handler2 p = Some h ->
    exists ph, store s !! h = Some ph /\ parent ph = Some k.

(** A method keeps [linked], whether it returns or throws. *)
Definition preserves {A} (m : M A) : Prop :=
  forall s, linked s -> linked (snd (m s)).

(** A field write that leaves the parent of the object alone and gives it
    no new handle. *)
Definition keeps_links (f : Point number -> Point number) : Prop :=
  forall p, parent (f p) = parent p
            /\ forall h, handler1 (f p) = Some h \/ handler2 (f p) = Some h ->
                         handler1 p = Some h \/ handler2 p = Some h.

(** A state change that leaves the store and the id counter alone. *)
Definition keeps_store (f : canvas -> canvas) : Prop :=
  forall s, store (f s) = store s /\ Point_count (f s) = Point_count s.

End LinkPredicates.
Arguments preserves number {A} m.
Arguments keeps_links number f : clear implicits.

(** Predicates on one segment of the spline, for the insertion and the
    removal of a knot (C2). *)
Section SegmentPredicates.
Context `{JSNumber number}.
Local Abbreviation canvas := (BezierCanvas number).

(** A field write that leaves the coordinates and the links alone. *)
Definition keeps_geometry (f : Point number -> Point number) : Prop :=
  forall p, x (f p) = x p /\ y (f p) = y p /\ parent (f p) = parent p
            /\ construction (f p) = construction p.

(** [σ'] is [σ] but for the [active] flags. *)
Definition same_geometry (σ σ' : gmap ref (Point number)) : Prop :=
  forall r, exists f, keeps_geometry f /\ σ' !! r = f <$> σ !! r.

(** [resetActivePoint] on a spline whose knots exist and have a first
    handle: it returns, and only [active] flags differ afterwards. *)
Definition resettable (s : canvas) : Prop :=
  forall k, k ∈ constructionPoints s ->
    exists p h1, store s !! k = Some p /\ handler1 p = Some h1.

Definition xy (p : Point number) : number * number := (x p, y p).

Definition links (p : Point number) : option ref * option ConstructionFields :=
  (parent p, construction p).

(** The store after [knotInsertion], from the store [σ] its
    [resetActivePoint] left. *)
Definition inserted_store (σ : gmap ref (Point number)) (n P1 P2 : ref)
    (P4 P6 P7 P8 : Point number) : gmap ref (Point number) :=
  let σ := alter (set_active true) n σ in
  let σ := alter (set_parent (Some n)) (S n)
             (alter (set_construction
                       (fun c => mkConstruction (Some (S n)) (_handler2 c)
                                   (fromCasteljau c))) n
                (<[S n := P7]> σ)) in
  let σ := alter (set_parent (Some n)) (S (S n))
             (alter (set_construction
                       (fun c => mkConstruction (_handler1 c) (Some (S (S n)))
                                   (fromCasteljau c))) n
                (<[S (S n) := P8]> σ)) in
  alter (set_y (y P6)) P2 (alter (set_x (x P6)) P2
    (alter (set_y (y P4)) P1 (alter (set_x (x P4)) P1 σ))).

(** The four control points of segment [i], as the editor reads them. *)
Definition segment_points (s : canvas) (i : nat) : option (list (number * number)) :=
  K0 ← constructionPoints s !! i;
  K1 ← constructionPoints s !! S i;
  p0 ← store s !! K0;
  p1 ← match handler2 p0 with Some h => Some h | None => handler1 p0 end
       ≫= (fun h => store s !! h);
  p3 ← store s !! K1;
  p2 ← handler1 p3 ≫= (fun h => store s !! h);
  Some [xy p0; xy p1; xy p2; xy p3].

(** A spline whose knots exist, with their second handles if any. *)
Definition knots_exist (s : canvas) : Prop :=
  forall k, k ∈ constructionPoints s ->
    exists p, store s !! k = Some p
              /\ forall h, handler2 p = Some h -> is_Some (store s !! h).

(** [weighted P0 P1 t] before the constructor rounds it. *)
Definition interpolated (P0 P1 : Point number) (t : number) : number * number :=
  ((x P0 * (1 - t) + x P1 * t)%js, (y P0 * (1 - t) + y P1 * t)%js).

(** The constructor's rounding leaves [weighted P0 P1 t] where the
    interpolation put it. *)
Definition unrounded (P0 P1 : Point number) (t : number) : Prop :=
  xy (weighted P0 P1 t) = interpolated P0 P1 t.

(** A point that [Math.round] does not move. *)
Definition on_grid (p : Point number) : Prop :=
  Math_round (x p) = x p /\ Math_round (y p) = y p.

(** A spline the editor can work on: no knot twice, ids below
    [Point.count], every knot in the store with a first handle, and with its
    second handle in the store if it has one. *)
Definition well_formed (s : canvas) : Prop :=
  NoDup (constructionPoints s) /\ bounded s /\ resettable s /\ knots_exist s.

End SegmentPredicates.
Arguments keeps_geometry number f : clear implicits.

(** The calls on the history manager, and its cursor. *)
Section HistoryRuns.
Context {State Hash : Type} `{EqDecision Hash}.
Import HistoryManagerAbstract.
Local Abbreviation manager := (HistoryManagerAbstract.t State Hash).

(** The calls a subclass and the keyboard make on the history. *)
Inductive Op : Type :=
  | Push (state : option State) (getCurrentState : State)
  | PushIfChanged (getCurrentState : State) (getCurrentStateHash : Hash)
  | Backward
  | Forward
  | HistoryReset.

Definition operate1 (m : manager) (o : Op) : manager :=
  match o with
  | Push state cur => pushHistoryState state cur m
  | PushIfChanged cur hash => pushHistoryStateIfChanged cur hash m
  | Backward => fst (statesBackward m)
  | Forward => fst (statesForward m)
  | HistoryReset => historyReset m
  end.

Definition operate (ops : list Op) (m : manager) : manager :=
  foldl operate1 m ops.

(** The cursor is an index of the stack, or 0 on the empty stack. *)
Definition cursor_ok (m : manager) : Prop :=
  (statesStack m = [] /\ statesCursor m = 0%Z)
  \/ (0 <= statesCursor m < Z.of_nat (length (statesStack m)))%Z.

End HistoryRuns.
Arguments Op : clear implicits.

(** ** BezierCanvas as a subclass of HistoryManagerAbstract

    The editor with the history it inherits.  [getCurrentState] is
    [getPoints], [applyHistoryState] is [setPoints], and the hash is
    [JSON.stringify] of the state, a parameter here. *)

Record Session {number Hash : Type} : Type := mkSession {
  editor : BezierCanvas number;
  history : HistoryManagerAbstract.t (list (PointRecord number)) Hash
}.
Arguments Session : clear implicits.
Arguments mkSession {number Hash}.

Section Session.
Context `{JSNumber number} {Hash : Type} `{EqDecision Hash}.
Variable JSON_stringify : list (PointRecord number) -> Hash.
Import HistoryManagerAbstract.
Local Abbreviation session := (Session number Hash).

(** [reset]: [historyReset()], then the spline is emptied. *)
Definition session_reset (z : session) : session :=
  mkSession (snd (reset (editor z))) (historyReset (history z)).

(** [setPoints], as [applyHistoryState] and the public API call it: it
    starts with [reset()]. *)
Definition session_setPoints (points : list (PointRecord number)) (z : session)
    : option unit * session :=
  let z := session_reset z in
  let r := setPoints_from points (editor z) in
  (fst r, mkSession (snd r) (history z)).

(** [applyHistoryState(this.statesStack[cursor])]; an index outside the
    stack hands [undefined] to [setPoints], which throws after its
    [reset()]. *)
Definition applyHistoryState (state : option (list (PointRecord number)))
    (z : session) : option unit * session :=
  match state with
  | Some points => session_setPoints points z
  | None => (None, session_reset z)
  end.

(** [statesBackward] and [statesForward] of the editor. *)
Definition session_statesBackward (z : session) : option unit * session :=
  if bool_decide (statesStack (history z) = []) then (Some tt, z)
  else
    let r := statesBackward (history z) in
    applyHistoryState (snd r) (mkSession (editor z) (fst r)).

Definition session_statesForward (z : session) : option unit * session :=
  if bool_decide (statesStack (history z) = []) then (Some tt, z)
  else
    let r := statesForward (history z) in
    applyHistoryState (snd r) (mkSession (editor z) (fst r)).

(** The mouseup and mouseleave handlers with their
    [pushHistoryStateIfChanged()]; [getPoints] is read for the hash. *)
Definition session_mouseUp (z : session) : option unit * session :=
  let s := snd (mouseUp (editor z)) in
  match getPoints s with
  | (Some points, s) =>
      (Some tt,
       mkSession s (pushHistoryStateIfChanged points (JSON_stringify points)
                      (history z)))
  | (None, s) => (None, mkSession s (history z))
  end.

End Session.

(** Predicates of the hit test, of the export, of the projection onto the
    spline and of the selection. *)
Section HitPredicates.
Context `{JSNumber number}.
Local Abbreviation canvas := (BezierCanvas number).

(** The knot behind [k] is within the threshold of [position]. *)
Definition hit (s : canvas) (position : Point number) (k : ref) : bool :=
  match store s !! k with
  | Some cur => (getDistance position cur <? maxDistance (options s))%js
  | None => false
  end.

End HitPredicates.

Section ExportPredicates.
Context `{JSNumber number}.
Local Abbreviation canvas := (BezierCanvas number).

(** What [getPoints] writes for the knot behind [k]. *)
Definition export_knot (σ : gmap ref (Point number)) (k : ref)
    : option (PointRecord number) :=
  p ← σ !! k;
  h1 ← handler1 p ≫= (fun r1 => σ !! r1);
  match handler2 p with
  | Some r2 =>
      h2 ← σ !! r2;
      Some (mkRecord (x p) (y p) (x h1, y h1) (Some (x h2, y h2)))
  | None => Some (mkRecord (x p) (y p) (x h1, y h1) None)
  end.

(** A record as the constructors of [setPoints] round it. *)
Definition round_record (r : PointRecord number) : PointRecord number :=
  mkRecord (Math_round (rec_x r)) (Math_round (rec_y r))
    (Math_round (fst (hp1 r)), Math_round (snd (hp1 r)))
    ((fun q => (Math_round (fst q), Math_round (snd q))) <$> hp2 r).

(** The knot behind [k] and its handles have ids below [c]. *)
Definition knot_below (c : nat) (σ : gmap ref (Point number)) (k : ref) : Prop :=
  (k < c)%nat
  /\ forall p h, σ !! k = Some p ->
       handler1 p = Some h \/ handler2 p = Some h -> (h < c)%nat.

End ExportPredicates.

Section ProjectionPredicates.
Context `{JSNumber number}.
Local Abbreviation canvas := (BezierCanvas number).

(** The control points of segment [index] as [findPointOnSpline] reads
    them: the references it reports and the objects behind them. *)
Definition segment_controls (s : canvas) (index : nat)
    : option ((option ref * option ref * option ref * option ref)
              * (Point number * Point number * Point number * Point number)) :=
  k0 ← constructionPoints s !! index;
  k3 ← constructionPoints s !! S index;
  p0 ← store s !! k0;
  let r1 := match handler2 p0 with Some h => Some h | None => handler1 p0 end in
  p1 ← r1 ≫= (fun h => store s !! h);
  p3 ← store s !! k3;
  p2 ← handler1 p3 ≫= (fun h => store s !! h);
  Some ((Some k0, r1, handler1 p3, Some k3), (p0, p1, p2, p3)).

(** Sample [i] of segment [index] and its distance to [clickPosition]. *)
Definition sample_distance (s : canvas) (clickPosition : Point number)
    (index i : nat) : option number :=
  match segment_controls s index with
  | Some (_, (p0, p1, p2, p3)) =>
      Some (getDistance
              (cubicBezierInterpolate (of_nat i / of_Z 100)%js p0 p1 p2 p3)
              clickPosition)
  | None => None
  end.

(** [q] is what [findPointOnSpline] reports for one of the 101 samples of a
    segment of the spline that is within reach of [clickPosition]. *)
Definition projects (s : canvas) (clickPosition : Point number)
    (q : @Projection number) : Prop :=
  exists (index i : nat) (p0 p1 p2 p3 : Point number),
    (i <= 100)%nat
    /\ segment_controls s index
       = Some ((on_P0 q, on_P1 q, on_P2 q, on_P3 q), (p0, p1, p2, p3))
    /\ on_position q = (index + 1)%nat
    /\ on_t q = (of_nat i / of_Z 100)%js
    /\ on_point q
       = new_Point (x (cubicBezierInterpolate (on_t q) p0 p1 p2 p3))
                   (y (cubicBezierInterpolate (on_t q) p0 p1 p2 p3))
    /\ on_distance q
       = getDistance (cubicBezierInterpolate (on_t q) p0 p1 p2 p3) clickPosition
    /\ (on_distance q <=? maxDistance (options s))%js = true.

(** What [findPointOnSpline] returns from the locals of its loop. *)
Definition projection_result (found : @ProjectionLocals number)
    : option (@Projection number) :=
  match proj_point found with
  | Some q =>
      Some (mkProjected q (proj_distance found)
              (default O (proj_position found) + 1) (proj_t found)
              (proj_P0 found) (proj_P1 found)
              (proj_P2 found) (proj_P3 found))
  | None => None
  end.

End ProjectionPredicates.

Section SelectionPredicates.
Context `{JSNumber number}.
Local Abbreviation canvas := (BezierCanvas number).

(** [r] is a knot of the spline or a handle of one. *)
Definition selectable (s : canvas) (r : ref) : Prop :=
  r ∈ constructionPoints s
  \/ exists k p, k ∈ constructionPoints s /\ store s !! k = Some p
                 /\ (handler1 p = Some r \/ handler2 p = Some r).


(** The object behind [r], if any, is not active. *)
Definition cleared (σ : gmap ref (Point number)) (r : ref) : Prop :=
  forall p, σ !! r = Some p -> active p = false.

(** The store when the new knot and its two handles are linked, before
    [setActivePoint]. *)
Definition created_store (σ : gmap ref (Point number)) (n : ref)
    (position : Point number) : gmap ref (Point number) :=
  alter (set_parent (Some n)) (S (S n))
    (alter (set_construction
              (fun c => mkConstruction (_handler1 c) (Some (S (S n)))
                          (fromCasteljau c))) n
       (<[S (S n) := new_Point (x position) (y position)]>
          (alter (set_parent (Some n)) (S n)
             (alter (set_construction
                       (fun c => mkConstruction (Some (S n)) (_handler2 c)
                                   (fromCasteljau c))) n
                (<[S n := new_Point (x position) (y position)]>
                   (<[n := new_ConstructionPoint (x position) (y position)]>
                      σ)))))).

End SelectionPredicates.

(** Exact arithmetic: a number that is not NaN, a point with such
    coordinates, and a table of reals as the sampler's constructor builds it. *)

Section ExactPredicates.
Local Open Scope R_scope.

Definition finite (v : xreal) : Prop :=
  match v with
  | XR _ => True
  | XNaN => False
  end.

Definition real_point (p : Point xreal) : Prop := finite (x p) /\ finite (y p).

(** A table of reals, as the constructor builds it. *)
Definition entry (rs : list R) (i : nat) : R := nth i rs 0.

Definition nondecreasing (rs : list R) : Prop :=
  forall i j : nat, (i <= j < length rs)%nat -> entry rs i <= entry rs j.

(** What [search] leaves in [index] on a table [rs] of [len + 1] entries:
    either the least index whose entry reaches [t], or the index just below
    it. *)
Definition bracket (rs : list R) (len : nat) (t : R) (r : nat) : Prop :=
  (r <= len)%nat
  /\ ((t <= entry rs r /\ forall i, (i < r)%nat -> entry rs i < t)
      \/ (entry rs r < t /\ (S r <= len)%nat /\ t <= entry rs (S r)
          /\ forall i, (i <= r)%nat -> entry rs i < t)).

End ExactPredicates.

Section ExactCurve.
Local Open Scope R_scope.
Local Abbreviation canvas := (BezierCanvas xreal).

(** The cubic Bernstein form, as [cubicBezierInterpolate] writes it. *)
Definition bernstein (u a0 a1 a2 a3 : R) : R :=
  a0 * ((1 - u) * ((1 - u) * (1 - u))) + 3 * a1 * u * ((1 - u) * (1 - u))
  + 3 * a2 * u * u * (1 - u) + a3 * u * u * u.

(** The invariant of the two loops of [findPointOnSpline]: among the
    samples [seen], the locals hold the least distance within reach, or
    nothing if none is within reach. *)
Definition nearest_so_far (s : canvas) (clickPosition : Point xreal) (m : R)
    (seen : nat -> nat -> Prop) (acc : @ProjectionLocals xreal) : Prop :=
  match proj_point acc with
  | None =>
      proj_distance acc = XNaN
      /\ forall index i d', seen index i -> (i <= 100)%nat ->
           sample_distance s clickPosition index i = Some (XR d') -> m < d'
  | Some _ =>
      exists d, proj_distance acc = XR d /\ d <= m
        /\ forall index i d', seen index i -> (i <= 100)%nat ->
             sample_distance s clickPosition index i = Some (XR d') -> d <= d'
  end.


End ExactCurve.

(** A point with integer coordinates, in exact arithmetic. *)
Definition exact_point (vx vy : Z) : Point xreal := new_Point (of_Z vx) (of_Z vy).

(** A two-knot spline in exact arithmetic, as [setPoints] stores it: the
    segment (0,0), (0,8), (8,8), (8,0). *)
Definition arch : BezierCanvas xreal :=
  mkCanvas
    (<[0%nat := mkPoint (XR 0) (XR 0) false None
                  (Some (mkConstruction (Some 1%nat) None false))]>
       (<[1%nat := mkPoint (XR 0) (XR 8) false (Some 0%nat) None]>
          (<[2%nat := mkPoint (XR 8) (XR 0) false None
                        (Some (mkConstruction (Some 3%nat) None false))]>
             (<[3%nat := mkPoint (XR 8) (XR 8) false (Some 2%nat) None]> ∅))))
    4 [0%nat; 2%nat] None false false true defaultOptions.


(** Two knots drawn in natural mode, (0,0) and (100,0), each with its two
    handles, on binary64 numbers. *)
Definition two_handles : BezierCanvas float :=
  mkCanvas
    (<[0%nat := mkPoint (of_Z 0) (of_Z 0) false None
                  (Some (mkConstruction (Some 1%nat) (Some 2%nat) false))]>
       (<[1%nat := mkPoint (of_Z (-10)) (of_Z 0) false (Some 0%nat) None]>
          (<[2%nat := mkPoint (of_Z 10) (of_Z 0) false (Some 0%nat) None]>
             (<[3%nat := mkPoint (of_Z 100) (of_Z 0) false None
                           (Some (mkConstruction (Some 4%nat) (Some 5%nat) false))]>
                (<[4%nat := mkPoint (of_Z 90) (of_Z 0) false (Some 3%nat) None]>
                   (<[5%nat := mkPoint (of_Z 110) (of_Z 0) false (Some 3%nat) None]>
                      ∅))))))
    6 [0%nat; 3%nat] None false false true defaultOptions.

(** The same spline with a last knot that has one handle only, as
    [setPoints] stores a record without [hp2]. *)
Definition single_handle : BezierCanvas float :=
  mkCanvas
    (<[0%nat := mkPoint (of_Z 0) (of_Z 0) false None
                  (Some (mkConstruction (Some 1%nat) (Some 2%nat) false))]>
       (<[1%nat := mkPoint (of_Z (-10)) (of_Z 0) false (Some 0%nat) None]>
          (<[2%nat := mkPoint (of_Z 10) (of_Z 0) false (Some 0%nat) None]>
             (<[3%nat := mkPoint (of_Z 100) (of_Z 0) false None
                           (Some (mkConstruction (Some 4%nat) None false))]>
                (<[4%nat := mkPoint (of_Z 90) (of_Z 0) false (Some 3%nat) None]>
                   ∅)))))
    5 [0%nat; 3%nat] None false false true defaultOptions.

(** The options of an editor outside natural draw mode. *)
Definition normal_mode : Options float :=
  mkOptions 50 false (of_Z 10) (of_Z 1 / of_Z 2)%js true.


(** ** The history stack (C9) *)

Section HistoryProofs.
Context {State Hash : Type} `{EqDecision Hash}.
Import HistoryManagerAbstract.
Local Abbreviation manager := (HistoryManagerAbstract.t State Hash).

Lemma slice_to_all (l : list State) (e : Z) :
  (Z.of_nat (length l) <= e)%Z -> slice_to e l = l.
Proof.
  intros He. unfold slice_to.
  destruct (e <? 0)%Z eqn:E; [lia|].
  apply take_ge. lia.
Qed.

Lemma pushHistoryState_at_end (st : State) (cur : State) (m : manager) :
  (1 <= historySize m)%Z -> at_end m ->
  let m' := pushHistoryState (Some st) cur m in
  at_end m' /\ historySize m' = historySize m
  /\ statesStack m' =
       (if (Z.of_nat (length (statesStack m)) =? historySize m)%Z
        then tail (statesStack m) else statesStack m) ++ [st].
Proof.
  intros Hh [Hlen Hcur]. unfold pushHistoryState. simpl.
  rewrite slice_to_all by lia.
  destruct (Z.of_nat (length (statesStack m)) =? historySize m)%Z eqn:E;
    [apply Z.eqb_eq in E|apply Z.eqb_neq in E];
    simpl; unfold at_end; simpl; rewrite length_app; simpl.
  - destruct (statesStack m) as [|s0 stack]; simpl in *; [lia|].
    repeat split; lia.
  - repeat split; lia.
Qed.

Lemma push_all_at_end (cur : State) (l : list State) (m : manager) :
  (1 <= historySize m)%Z -> at_end m ->
  let m' := push_all cur l m in
  at_end m' /\ historySize m' = historySize m
  /\ statesStack m' =
       drop (length (statesStack m ++ l) - Z.to_nat (historySize m))
            (statesStack m ++ l).
Proof.
  revert m. induction l as [|st l IH]; intros m Hh Hm; simpl.
  - rewrite app_nil_r. repeat split; [apply Hm..|].
    destruct Hm as [Hlen _].
    replace (length (statesStack m) - Z.to_nat (historySize m))%nat with O by lia.
    done.
  - destruct (pushHistoryState_at_end st cur m Hh Hm) as (Hm' & Hh' & Hst).
    destruct (IH (pushHistoryState (Some st) cur m)) as (H1 & H2 & H3);
      [lia|done|].
    repeat split; [apply H1..|lia|].
    unfold push_all in *. simpl in *. rewrite H3, Hh', Hst.
    destruct Hm as [Hlen _].
    destruct (Z.of_nat (length (statesStack m)) =? historySize m)%Z eqn:E;
      [apply Z.eqb_eq in E|apply Z.eqb_neq in E].
    + destruct (statesStack m) as [|s0 stack]; simpl in *; [lia|].
      rewrite <- !app_assoc. simpl.
      rewrite !length_app. simpl.
      replace (S (length stack + S (length l)) - Z.to_nat (historySize m))%nat
        with (S (length stack + S (length l) - Z.to_nat (historySize m)))%nat by lia.
      simpl. done.
    + rewrite <- !app_assoc. done.
Qed.

(** C9, as amended: for a capacity [historySize >= 1], pushing
    [historySize + k] states ([k > 0]) onto a new history leaves exactly the
    [historySize] newest ones, in the order they were pushed (the [k] oldest
    are gone), and the cursor on the last entry. *)
Theorem pushHistoryState_keeps_newest (h : Z) (k : nat) (cur : State)
    (l : list State) :
  (1 <= h)%Z -> (0 < k)%nat -> Z.of_nat (length l) = (h + Z.of_nat k)%Z ->
  let m := push_all cur l (new (Hash := Hash) h) in
  statesStack m = drop k l
  /\ Z.of_nat (length (statesStack m)) = h
  /\ statesCursor m = (h - 1)%Z.
Proof.
  intros Hh Hk Hl m.
  destruct (push_all_at_end cur l (new (Hash := Hash) h)) as ([H1 H2] & H3 & H4);
    [done|split; simpl; lia|].
  fold m in H1, H2, H3, H4. simpl in *.
  assert (Hst : statesStack m = drop k l).
  { rewrite H4. f_equal. lia. }
  assert (Hlen : Z.of_nat (length (statesStack m)) = h).
  { rewrite Hst, length_drop. lia. }
  repeat split; [done..|]. rewrite H2. lia.
Qed.

End HistoryProofs.

Lemma pushHistoryState_keeps_newest_witness :
  let m := push_all (Hash := nat) 0%nat [1; 2; 3]%nat (HistoryManagerAbstract.new 2) in
  HistoryManagerAbstract.statesStack m = [2; 3]%nat
  /\ Z.of_nat (length (HistoryManagerAbstract.statesStack m)) = 2%Z
  /\ HistoryManagerAbstract.statesCursor m = 1%Z.
Proof.
  apply (pushHistoryState_keeps_newest (Hash := nat) 2 1 0%nat [1; 2; 3]%nat);
    [lia | lia | reflexivity].
Defined.

(** C9, as stated, fails for the capacity 0: two states pushed onto a new
    history of capacity 0 are both kept. *)
Lemma pushHistoryState_capacity_zero :
  let m := push_all (Hash := nat) 0%nat [1; 2]%nat (HistoryManagerAbstract.new 0) in
  HistoryManagerAbstract.statesStack m = [1; 2]%nat
  /\ Z.of_nat (length (HistoryManagerAbstract.statesStack m))
     <> HistoryManagerAbstract.historySize m.
Proof. split; [reflexivity | discriminate]. Qed.

(** ** The parent back-reference (C10) *)

Section Links.
Context `{JSNumber number}.
Local Abbreviation M := (M number).
Local Abbreviation canvas := (BezierCanvas number).
Local Abbreviation preserves := (preserves number).
Local Abbreviation keeps_links := (keeps_links number).

Lemma preserves_ret {A} (a : A) : preserves (mret a).
Proof. intros s Hs. exact Hs. Qed.

Lemma preserves_throw {A} : preserves (@throw number A).
Proof. intros s Hs. exact Hs. Qed.

Lemma preserves_bind {A B} (m : M A) (k : A -> M B) :
  preserves m -> (forall a, preserves (k a)) -> preserves (m ≫= k).
Proof.
  intros Hm Hk s Hs. unfold mbind, M_bind.
  specialize (Hm s Hs). destruct (m s) as [[a|] s']; simpl in *.
  - apply Hk, Hm.
  - exact Hm.
Qed.

Lemma preserves_get : preserves (@get_canvas number).
Proof. intros s Hs. exact Hs. Qed.

Lemma preserves_deref (r : ref) : preserves (deref r).
Proof. intros s Hs. exact Hs. Qed.

Lemma preserves_deref_opt (o : option ref) : preserves (deref_opt o).
Proof. destruct o; [apply preserves_deref | apply preserves_throw]. Qed.

Lemma preserves_modify (f : canvas -> canvas) :
  keeps_store f -> preserves (modify f).
Proof.
  intros Hf s [Hb Hc]. destruct (Hf s) as [E1 E2].
  split; simpl.
  - intros r. rewrite E1, E2. apply Hb.
  - rewrite E1. exact Hc.
Qed.

Lemma children_ok_alter (σ : gmap ref (Point number)) (r : ref)
    (f : Point number -> Point number) :
  keeps_links f -> children_ok σ -> children_ok (alter f r σ).
Proof.
  intros Hf Hc k p h Hk Hh.
  assert (exists p0, σ !! k = Some p0
                     /\ (handler1 p0 = Some h \/ handler2 p0 = Some h))
    as (p0 & Hp0 & Hh0).
  { destruct (decide (r = k)) as [->|Hne].
    - rewrite lookup_alter_eq in Hk.
      destruct (σ !! k) as [p0|] eqn:E; simpl in Hk; [|done].
      injection Hk as <-. exists p0. destruct (Hf p0) as (_ & Hsub). auto.
    - rewrite lookup_alter_ne in Hk by done. by exists p. }
  destruct (Hc k p0 h Hp0 Hh0) as (ph & Hph & Hpar).
  destruct (decide (r = h)) as [->|Hne].
  - exists (f ph). rewrite lookup_alter_eq, Hph. split; [done|].
    destruct (Hf ph) as (-> & _). done.
  - exists ph. by rewrite lookup_alter_ne.
Qed.

Lemma preserves_update (r : ref) (f : Point number -> Point number) :
  keeps_links f -> preserves (update r f).
Proof.
  intros Hf s [Hb Hc]. split; simpl.
  - intros r' Hr'. apply Hb. simpl in Hr'.
    rewrite lookup_alter_is_Some in Hr'. done.
  - by apply children_ok_alter.
Qed.

Lemma preserves_update_opt (o : option ref) (f : Point number -> Point number) :
  keeps_links f -> preserves (update_opt o f).
Proof. destruct o; [apply preserves_update | intros; apply preserves_throw]. Qed.

(** A construction of an object without handles. *)
Lemma preserves_alloc (p : Point number) :
  handler1 p = None -> handler2 p = None -> preserves (alloc p).
Proof.
  intros H1 H2 s [Hb Hc]. split; simpl.
  - intros r Hr. simpl in *. rewrite lookup_insert_is_Some in Hr.
    destruct Hr as [<-|[_ Hr]]; [lia|]. specialize (Hb r Hr). lia.
  - intros k q h Hk Hh.
    destruct (decide (Point_count s = k)) as [<-|Hne].
    + rewrite lookup_insert_eq in Hk. injection Hk as <-.
      rewrite H1, H2 in Hh. by destruct Hh.
    + rewrite lookup_insert_ne in Hk by done.
      destruct (Hc k q h Hk Hh) as (ph & Hph & Hpar).
      exists ph. split; [|done].
      rewrite lookup_insert_ne; [done|].
      intros <-. assert (Point_count s < Point_count s)%nat; [|lia].
      apply Hb. by rewrite Hph.
Qed.


(** The setter with a handle that nothing refers to yet. *)
Lemma children_ok_adopt (σ : gmap ref (Point number)) (t c : ref)
    (g : ConstructionFields -> ConstructionFields) :
  (forall cf h, (_handler1 (g cf) = Some h \/ _handler2 (g cf) = Some h) ->
                h = c \/ _handler1 cf = Some h \/ _handler2 cf = Some h) ->
  children_ok σ ->
  (forall k q, σ !! k = Some q -> handler1 q <> Some c /\ handler2 q <> Some c) ->
  is_Some (σ !! c) ->
  children_ok (alter (set_parent (Some t)) c (alter (set_construction g) t σ)).
Proof.
  intros Hg Hc Hfresh [pc Hpc] k q h Hk Hh.
  (* the object at [k] before the two writes *)
  assert (exists q0, σ !! k = Some q0
            /\ (h = c /\ k = t \/ handler1 q0 = Some h \/ handler2 q0 = Some h))
    as (q0 & Hq0 & Hcase).
  { assert (exists q1, alter (set_construction g) t σ !! k = Some q1
              /\ handler1 q1 = handler1 q /\ handler2 q1 = handler2 q)
      as (q1 & Hq1 & E1 & E2).
    { destruct (decide (c = k)) as [->|Hne].
      - rewrite lookup_alter_eq in Hk.
        destruct (alter (set_construction g) t σ !! k) as [q1|]; [|done].
        injection Hk as <-. by exists q1.
      - rewrite lookup_alter_ne in Hk by done. by exists q. }
    rewrite <- E1, <- E2 in Hh.
    destruct (decide (t = k)) as [->|Hne].
    - rewrite lookup_alter_eq in Hq1.
      destruct (σ !! k) as [q0|]; [|done].
      injection Hq1 as <-. exists q0. split; [done|].
      unfold handler1, handler2 in *. destruct q0 as [? ? ? ? [cf|]]; simpl in *.
      + destruct (Hg cf h Hh) as [->|Hold]; auto.
      + by destruct Hh.
    - rewrite lookup_alter_ne in Hq1 by done. exists q1. auto. }
  destruct Hcase as [[-> ->]|Hold].
  - exists (set_parent (Some t) (if decide (t = c) then set_construction g pc else pc)).
    split; [|done].
    rewrite lookup_alter_eq.
    destruct (decide (t = c)) as [->|Hne].
    + by rewrite lookup_alter_eq, Hpc.
    + by rewrite lookup_alter_ne, Hpc.
  - destruct (Hc k q0 h Hq0 Hold) as (ph & Hph & Hpar).
    assert (h <> c) as Hhc.
    { intros ->. destruct (Hfresh k q0 Hq0). destruct Hold; done. }
    rewrite lookup_alter_ne by done.
    destruct (decide (t = h)) as [->|Hne].
    + exists (set_construction g ph). by rewrite lookup_alter_eq, Hph.
    + exists ph. by rewrite lookup_alter_ne.
Qed.

Lemma linked_alloc_adopt (s : canvas) (p : Point number) (t : ref)
    (g : ref -> ConstructionFields -> ConstructionFields) :
  (forall c cf h, (_handler1 (g c cf) = Some h \/ _handler2 (g c cf) = Some h) ->
                  h = c \/ _handler1 cf = Some h \/ _handler2 cf = Some h) ->
  handler1 p = None -> handler2 p = None -> linked s ->
  let c := Point_count s in
  linked (set_store
            (alter (set_parent (Some t)) c
               (alter (set_construction (g c)) t (<[c := p]> (store s))))
            (set_Point_count (S c) s)).
Proof.
  intros Hg H1 H2 Hs c.
  pose proof (preserves_alloc p H1 H2 s Hs) as [Hb' Hc'].
  destruct Hs as [Hb Hc]. simpl in Hb', Hc'. fold c in Hb', Hc'.
  split.
  - intros r Hr. simpl in *.
    rewrite !lookup_alter_is_Some in Hr. apply Hb'. exact Hr.
  - simpl. apply children_ok_adopt; [apply Hg|exact Hc'| |].
    + intros k q Hk.
      assert (forall h, handler1 q = Some h \/ handler2 q = Some h -> h <> c)
        as Hne; [|split; intros E; by eapply Hne; eauto].
      intros h Hh ->.
      destruct (Hc' k q c Hk Hh) as (ph & Hph & Hpar).
      destruct (decide (c = k)) as [<-|Hck].
      * rewrite lookup_insert_eq in Hk. injection Hk as <-.
        rewrite H1, H2 in Hh. by destruct Hh.
      * rewrite lookup_insert_ne in Hk by done.
        destruct (Hc k q c Hk Hh) as (ph0 & Hph0 & _).
        assert (c < c)%nat; [|lia]. apply Hb. by rewrite Hph0.
    + by rewrite lookup_insert_eq.
Qed.

Lemma preserves_new_handler1 {A} (p : Point number) (t : ref) (k : ref -> M A) :
  handler1 p = None -> handler2 p = None ->
  (forall h, preserves (k h)) ->
  preserves (h ← alloc p; set_handler1 t (Some h);; k h).
Proof.
  intros H1 H2 Hk s Hs. unfold mbind, M_bind. simpl.
  apply Hk.
  apply (linked_alloc_adopt s p t
           (fun c cf => mkConstruction (Some c) (_handler2 cf) (fromCasteljau cf)));
    [|done..].
  intros c cf h [E|E]; simpl in E; [left; congruence|auto].
Qed.

Lemma preserves_new_handler2 {A} (p : Point number) (t : ref) (k : ref -> M A) :
  handler1 p = None -> handler2 p = None ->
  (forall h, preserves (k h)) ->
  preserves (h ← alloc p; set_handler2 t (Some h);; k h).
Proof.
  intros H1 H2 Hk s Hs. unfold mbind, M_bind. simpl.
  apply Hk.
  apply (linked_alloc_adopt s p t
           (fun c cf => mkConstruction (_handler1 cf) (Some c) (fromCasteljau cf)));
    [|done..].
  intros c cf h [E|E]; simpl in E; [auto|left; congruence].
Qed.

Lemma preserves_new_handler1_last (p : Point number) (t : ref) :
  handler1 p = None -> handler2 p = None ->
  preserves (h ← alloc p; set_handler1 t (Some h)).
Proof.
  intros H1 H2 s Hs.
  apply (preserves_new_handler1 p t (fun _ => mret tt) H1 H2
           (fun _ => preserves_ret tt) s Hs).
Qed.

Lemma preserves_new_handler2_last (p : Point number) (t : ref) :
  handler1 p = None -> handler2 p = None ->
  preserves (h ← alloc p; set_handler2 t (Some h)).
Proof.
  intros H1 H2 s Hs.
  apply (preserves_new_handler2 p t (fun _ => mret tt) H1 H2
           (fun _ => preserves_ret tt) s Hs).
Qed.


Lemma keeps_links_set_x (v : number) : keeps_links (set_x v).
Proof. intros p. split; [done|auto]. Qed.
Lemma keeps_links_set_y (v : number) : keeps_links (set_y v).
Proof. intros p. split; [done|auto]. Qed.
Lemma keeps_links_set_active (v : bool) : keeps_links (set_active v).
Proof. intros p. split; [done|auto]. Qed.

Lemma keeps_links_set_construction (g : ConstructionFields -> ConstructionFields) :
  (forall cf h, _handler1 (g cf) = Some h \/ _handler2 (g cf) = Some h ->
                _handler1 cf = Some h \/ _handler2 cf = Some h) ->
  keeps_links (set_construction g).
Proof.
  intros Hg p. split; [done|].
  unfold handler1, handler2. destruct p as [? ? ? ? [cf|]]; simpl; auto.
Qed.

Lemma preserves_set_handler1_null (t : ref) : preserves (set_handler1 t None).
Proof.
  apply preserves_bind; [|intros; apply preserves_ret].
  apply preserves_update, keeps_links_set_construction.
  intros cf h [E|E]; simpl in E; [done|auto].
Qed.

Lemma preserves_set_handler2_null (t : ref) : preserves (set_handler2 t None).
Proof.
  apply preserves_bind; [|intros; apply preserves_ret].
  apply preserves_update, keeps_links_set_construction.
  intros cf h [E|E]; simpl in E; [auto|done].
Qed.

Lemma preserves_set_fromCasteljau (t : ref) (v : bool) :
  preserves (set_fromCasteljau t v).
Proof.
  apply preserves_update, keeps_links_set_construction.
  intros cf h E; simpl in E; auto.
Qed.

Lemma preserves_forEach_from {A} (n k : nat) (callback : ref -> nat -> A -> M A)
    (acc : A) :
  (forall r i a, preserves (callback r i a)) ->
  preserves (forEach_from n k callback acc).
Proof.
  intros Hcb. revert k acc. induction n as [|n IH]; intros k acc; simpl.
  - apply preserves_ret.
  - apply preserves_bind; [apply preserves_get|]. intros s.
    destruct (constructionPoints s !! k); [|apply IH].
    apply preserves_bind; [apply Hcb|]. intros a. apply IH.
Qed.

Lemma preserves_forEach {A} (callback : ref -> nat -> A -> M A) (acc : A) :
  (forall r i a, preserves (callback r i a)) ->
  preserves (forEach callback acc).
Proof.
  intros Hcb. apply preserves_bind; [apply preserves_get|].
  intros s. by apply preserves_forEach_from.
Qed.

Create HintDb preserves_db discriminated.

Ltac keeps_store_tac := intros ?; split; reflexivity.

Ltac keeps_links_tac :=
  first [apply keeps_links_set_x | apply keeps_links_set_y
        | apply keeps_links_set_active].

Ltac preserves_step :=
  lazymatch goal with
  | |- preserves (mret _) => apply preserves_ret
  | |- preserves throw => apply preserves_throw
  | |- preserves get_canvas => apply preserves_get
  | |- preserves (deref _) => apply preserves_deref
  | |- preserves (deref_opt _) => apply preserves_deref_opt
  | |- preserves (modify _) => apply preserves_modify; keeps_store_tac
  | |- preserves (update _ _) => apply preserves_update; keeps_links_tac
  | |- preserves (update_opt _ _) => apply preserves_update_opt; keeps_links_tac
  | |- preserves (set_handler1 _ None) => apply preserves_set_handler1_null
  | |- preserves (set_handler2 _ None) => apply preserves_set_handler2_null
  | |- preserves (set_fromCasteljau _ _) => apply preserves_set_fromCasteljau
  | |- preserves (alloc _ ≫= (fun h => set_handler1 _ (Some h) ≫= _)) =>
      apply preserves_new_handler1; [reflexivity | reflexivity | intros ?]
  | |- preserves (alloc _ ≫= (fun h => set_handler2 _ (Some h) ≫= _)) =>
      apply preserves_new_handler2; [reflexivity | reflexivity | intros ?]
  | |- preserves (alloc _ ≫= (fun h => set_handler1 _ (Some h))) =>
      apply preserves_new_handler1_last; reflexivity
  | |- preserves (alloc _ ≫= (fun h => set_handler2 _ (Some h))) =>
      apply preserves_new_handler2_last; reflexivity
  | |- preserves (alloc _) => apply preserves_alloc; reflexivity
  | |- preserves (forEach _ _) => apply preserves_forEach; intros ? ? ?
  | |- preserves (_ ≫= _) => apply preserves_bind; [|intros ?]
  | |- preserves (if ?b then _ else _) => destruct b
  | |- preserves (match ?v with _ => _ end) => destruct v
  | |- preserves (let _ := _ in _) => cbv zeta
  | |- preserves _ => solve [auto with preserves_db]
  end.

Ltac preserves_tac := repeat preserves_step.

Lemma preserves_resetActivePoint : preserves (@resetActivePoint number).
Proof. unfold resetActivePoint. preserves_tac. Qed.
Hint Resolve preserves_resetActivePoint : preserves_db.

Lemma preserves_setActivePoint (o : option ref) : preserves (setActivePoint o).
Proof. unfold setActivePoint. preserves_tac. Qed.
Hint Resolve preserves_setActivePoint : preserves_db.

Lemma preserves_removal_scan (point : ref) : preserves (removal_scan point).
Proof. unfold removal_scan. preserves_tac. Qed.
Hint Resolve preserves_removal_scan : preserves_db.

Lemma preserves_keepOneHandlerAtEnds : preserves (@keepOneHandlerAtEnds number H).
Proof. unfold keepOneHandlerAtEnds. preserves_tac. Qed.
Hint Resolve preserves_keepOneHandlerAtEnds : preserves_db.

Lemma preserves_removeConstructionPoint (point : ref) :
  preserves (removeConstructionPoint point).
Proof. unfold removeConstructionPoint. preserves_tac. Qed.
Hint Resolve preserves_removeConstructionPoint : preserves_db.

Lemma preserves_findClosestConstructionPoint (vx vy : number) :
  preserves (findClosestConstructionPoint vx vy).
Proof. unfold findClosestConstructionPoint. preserves_tac. Qed.
Hint Resolve preserves_findClosestConstructionPoint : preserves_db.

Lemma preserves_findPointOnSpline (vx vy : number) :
  preserves (findPointOnSpline vx vy).
Proof. unfold findPointOnSpline. preserves_tac. Qed.
Hint Resolve preserves_findPointOnSpline : preserves_db.

Lemma preserves_knotInsertion (t : number) (P0 P1 P2 P3 : option ref) :
  preserves (knotInsertion t P0 P1 P2 P3).
Proof. unfold knotInsertion. preserves_tac. Qed.
Hint Resolve preserves_knotInsertion : preserves_db.

Lemma preserves_createConstructionPoint (position : Point number) :
  preserves (createConstructionPoint position).
Proof. unfold createConstructionPoint. preserves_tac. Qed.
Hint Resolve preserves_createConstructionPoint : preserves_db.

Lemma preserves_mouseDownLeft (ex ey : number) : preserves (mouseDownLeft ex ey).
Proof. unfold mouseDownLeft. preserves_tac. Qed.

Lemma preserves_constrainTangents (r : ref) (position : Point number) :
  preserves (constrainTangents r position).
Proof. unfold constrainTangents, isHandler1, isHandler2. preserves_tac. Qed.
Hint Resolve preserves_constrainTangents : preserves_db.

Lemma preserves_mouseMove (ex ey : number) : preserves (mouseMove ex ey).
Proof. unfold mouseMove. preserves_tac. Qed.

Lemma preserves_contextMenu (ex ey : number) : preserves (contextMenu ex ey).
Proof. unfold contextMenu. preserves_tac. Qed.

Lemma preserves_setPoints_from (points : list (PointRecord number)) :
  preserves (setPoints_from points).
Proof. induction points as [|point rest IH]; simpl; preserves_tac. Qed.

Lemma preserves_setPoints (points : list (PointRecord number)) :
  preserves (setPoints points).
Proof.
  unfold setPoints, reset. pose proof (preserves_setPoints_from points).
  preserves_tac.
Qed.

Lemma preserves_handle (e : Event) : preserves (handle e).
Proof.
  destruct e; simpl;
    auto using preserves_mouseDownLeft, preserves_mouseMove,
      preserves_contextMenu, preserves_setPoints;
    unfold mouseUp, keyDown, keyUp, setOptions, reset; preserves_tac.
Qed.

Lemma linked_initial (o : Options number) : linked (initial o).
Proof.
  split.
  - intros r [p Hp]. simpl in Hp. by rewrite lookup_empty in Hp.
  - intros k p h Hk. simpl in Hk. by rewrite lookup_empty in Hk.
Qed.

Lemma linked_run (es : list Event) (s : canvas) : linked s -> linked (run es s).
Proof.
  revert s. induction es as [|e es IH]; intros s Hs; simpl; [done|].
  apply IH, preserves_handle, Hs.
Qed.

(** C10: after any sequence of events (imports, appends, insertions on the
    curve, removals, drags) on a new editor, every handle of every knot of
    the spline exists and has that knot as its parent. *)
Theorem parent_back_reference (o : Options number) (es : list Event) :
  parents_ok (run es (initial o)).
Proof.
  destruct (linked_run es (initial o) (linked_initial o)) as [_ Hc].
  intros k p h _ Hk Hh. exact (Hc k p h Hk Hh).
Qed.
End Links.

(** ** The arc-length sampler in exact arithmetic (C5) *)

Section ExactSampler.
Local Open Scope R_scope.

Lemma finite_XR (v : xreal) : finite v -> exists r, v = XR r.
Proof. destruct v; [done|eauto]. Qed.

Lemma finite_add (u v : xreal) : finite u -> finite v -> finite (u + v)%js.
Proof. by destruct u, v. Qed.
Lemma finite_sub (u v : xreal) : finite u -> finite v -> finite (u - v)%js.
Proof. by destruct u, v. Qed.
Lemma finite_mul (u v : xreal) : finite u -> finite v -> finite (u * v)%js.
Proof. by destruct u, v. Qed.
Lemma finite_of_Z (z : Z) : finite (of_Z z).
Proof. done. Qed.
Lemma finite_round (u : xreal) : finite u -> finite (Math_round u).
Proof. by destruct u. Qed.
Lemma finite_pow (u : xreal) (n : nat) : finite u -> finite (Math_pow u n).
Proof.
  intros Hu. induction n as [|[|n] IH]; [done..|].
  change (finite (u * Math_pow u (S n))%js). by apply finite_mul.
Qed.

Lemma real_cubicBezierInterpolate (u : xreal) (P0 P1 P2 P3 : Point xreal) :
  finite u -> real_point P0 -> real_point P1 -> real_point P2 -> real_point P3 ->
  real_point (cubicBezierInterpolate u P0 P1 P2 P3).
Proof.
  intros Hu [] [] [] [].
  split; unfold cubicBezierInterpolate, new_Point; cbn [x y];
    apply finite_round;
    repeat first [apply finite_add | apply finite_sub | apply finite_mul
                 | apply finite_pow | apply finite_of_Z | assumption].
Qed.

Lemma div_XR (u v : R) : v <> 0 -> (XR u / XR v)%js = XR (u / v).
Proof. intros Hv. simpl. by destruct (Req_dec_T v 0). Qed.

Lemma sqrt_XR (u : R) : 0 <= u -> Math_sqrt (XR u) = XR (sqrt u).
Proof. intros Hu. simpl. destruct (Rlt_dec u 0); [lra|done]. Qed.

Lemma lt_XR_true (u v : R) : u < v -> (XR u <? XR v)%js = true.
Proof. intros Huv. simpl. by destruct (Rlt_dec u v). Qed.

Lemma lt_XR_false (u v : R) : v <= u -> (XR u <? XR v)%js = false.
Proof. intros Huv. simpl. destruct (Rlt_dec u v); [lra|done]. Qed.

Lemma eq_XR_true (u : R) : (XR u === XR u)%js = true.
Proof. simpl. by destruct (Req_dec_T u u). Qed.

Lemma eq_XR_false (u v : R) : u <> v -> (XR u === XR v)%js = false.
Proof. intros Huv. simpl. by destruct (Req_dec_T u v). Qed.

Lemma get_XR (rs : list R) (i : nat) :
  (i < length rs)%nat -> BezierUtils.get (XR <$> rs) (Z.of_nat i) = XR (entry rs i).
Proof.
  intros Hi. unfold BezierUtils.get, entry.
  destruct (Z.of_nat i <? 0)%Z eqn:E; [lia|].
  rewrite Nat2Z.id.
  change NaN with XNaN.
  rewrite <- (map_nth XR). 
  apply nth_indep. by rewrite length_fmap.
Qed.

Lemma arcLengths_from_spec (interp : xreal -> Point xreal) (len n i : nat)
    (ox oy : xreal) (c : R) :
  (forall u, finite u -> real_point (interp u)) -> len <> O ->
  finite ox -> finite oy ->
  exists rs, BezierUtils.arcLengths_from interp len n i ox oy (XR c) = XR <$> rs
             /\ length rs = n /\ nondecreasing (c :: rs).
Proof.
  intros Hinterp Hlen. revert i ox oy c.
  induction n as [|n IH]; intros i ox oy c Hox Hoy.
  - exists []. repeat split. intros [|?] [|?] ?; simpl in *; try lia. unfold entry. simpl. lra.
  - cbn [BezierUtils.arcLengths_from]. cbv zeta.
    assert (finite (of_nat i / of_nat len)%js) as Hu.
    { unfold of_nat. change (of_Z (Z.of_nat i)) with (XR (IZR (Z.of_nat i))).
      change (of_Z (Z.of_nat len)) with (XR (IZR (Z.of_nat len))).
      rewrite div_XR; [done|]. apply not_0_IZR. lia. }
    destruct (Hinterp _ Hu) as [Hx Hy].
    set (q := interp (of_nat i / of_nat len)%js) in *.
    destruct (finite_XR _ Hx) as [vx Evx], (finite_XR _ Hy) as [vy Evy].
    destruct (finite_XR _ Hox) as [rox ->], (finite_XR _ Hoy) as [roy ->].
    rewrite Evx, Evy.
    change ((XR rox - XR vx) * (XR rox - XR vx) + (XR roy - XR vy) * (XR roy - XR vy))%js
      with (XR ((rox - vx) * (rox - vx) + (roy - vy) * (roy - vy))).
    rewrite sqrt_XR by (apply Rplus_le_le_0_compat; apply Rle_0_sqr).
    change (XR c + XR ?w)%js with (XR (c + w)).
    set (w := sqrt ((rox - vx) * (rox - vx) + (roy - vy) * (roy - vy))).
    assert (0 <= w) as Hw by apply sqrt_pos.
    destruct (IH (S i) (XR vx) (XR vy) (c + w) I I) as (rs & Ers & Hl & Hmono).
    fold w. exists ((c + w) :: rs). rewrite Ers. repeat split; [simpl; lia|].
    intros [|a] [|b] Hab; simpl in Hab; try lia.
    + unfold entry; simpl; lra.
    + transitivity (c + w); [unfold entry; simpl; lra|].
      apply (Hmono O b). simpl. lia.
    + apply (Hmono a b). simpl. lia.
Qed.

Lemma search_unfold (arr : list xreal) (t : xreal) (low high index : nat) :
  BezierUtils.search arr t low high index =
  if lt_dec low high then
    let mid := (low + (high - low) / 2)%nat in
    if (BezierUtils.get arr (Z.of_nat mid) <? t)%js
    then BezierUtils.search arr t (mid + 1) high mid
    else BezierUtils.search arr t low mid mid
  else index.
Proof.
  rewrite BezierUtils.search_equation_1.
  destruct (lt_dec low high); [|done].
  by rewrite BezierUtils.search_clause_1_equation_1.
Qed.

Lemma search_bracket (rs : list R) (len : nat) (t : R) :
  length rs = S len -> nondecreasing rs ->
  forall (n low high index : nat),
    (high - low = n)%nat -> (low <= high <= len)%nat ->
    (forall i, (i < low)%nat -> entry rs i < t) ->
    (forall i, (high <= i <= len)%nat -> t <= entry rs i) ->
    (low = high -> bracket rs len t index) ->
    bracket rs len t (BezierUtils.search (XR <$> rs) (XR t) low high index).
Proof.
  intros Hlen Hmono n. induction n as [n IH] using lt_wf_ind.
  intros low high index Hn Hlh Hlow Hhigh Hidx.
  rewrite search_unfold. destruct (lt_dec low high) as [Hlt|Hge]; cycle 1.
  { apply Hidx. lia. }
  cbv zeta.
  assert ((high - low) / 2 < high - low)%nat as Hhalf
    by (apply Nat.div_lt; lia).
  set (mid := (low + (high - low) / 2)%nat) in *.
  assert (low <= mid < high)%nat as Hmid by (unfold mid; lia).
  rewrite get_XR by lia.
  destruct (Rlt_dec (entry rs mid) t) as [Hm|Hm].
  - rewrite lt_XR_true by done.
    apply (IH (high - (mid + 1))%nat); [lia|lia|lia| |done|].
    + intros i Hi. apply Rle_lt_trans with (entry rs mid); [|done].
      apply Hmono. lia.
    + intros E. split; [lia|]. right. repeat split; [done|lia| |].
      * apply Hhigh. lia.
      * intros i Hi. apply Rle_lt_trans with (entry rs mid); [|done].
        apply Hmono. lia.
  - rewrite lt_XR_false by lra.
    apply (IH (mid - low)%nat); [lia|lia|lia|done| |].
    + intros i Hi. apply Rle_trans with (entry rs mid); [lra|].
      apply Hmono. lia.
    + intros E. split; [lia|]. left. split; [lra|].
      intros i Hi. apply Hlow. lia.
Qed.

(** [map] at a fraction whose target length is an entry of the table: the
    least index [j] reaching it, over [len]. *)
Lemma map_attained (bz : BezierUtils.t xreal) (rs : list R) (len j : nat)
    (u : xreal) (t : R) :
  BezierUtils.arcLengths bz = XR <$> rs -> BezierUtils.len bz = len ->
  length rs = S len -> len <> O -> nondecreasing rs ->
  (u * XR (entry rs len))%js = XR t ->
  (j <= len)%nat -> entry rs j = t -> (forall i, (i < j)%nat -> entry rs i < t) ->
  BezierUtils.map bz u = XR (INR j / INR len).
Proof.
  intros Harr Hl Hlen Hne Hmono Ht Hj Hjt Hleast.
  unfold BezierUtils.map. rewrite Harr, Hl.
  rewrite (get_XR rs len) by lia. rewrite Ht. cbv zeta.
  assert (bracket rs len t (BezierUtils.search (XR <$> rs) (XR t) 0 len 0))
    as [Hr Hcase].
  { apply (search_bracket rs len t Hlen Hmono len); [lia|lia|lia| |].
    - intros i Hi. replace i with len by lia.
      rewrite <- Hjt. apply Hmono. lia.
    - intros <-. lia. }
  set (r := BezierUtils.search (XR <$> rs) (XR t) 0 len 0) in *.
  assert (INR len <> 0) as HlenR by (apply not_0_INR; lia).
  unfold of_nat. change (of_Z (Z.of_nat len)) with (XR (IZR (Z.of_nat len))).
  rewrite <- INR_IZR_INZ.
  destruct Hcase as [[Hge Hbelow]|(Hlt & HS & Hnext & Hbelow)].
  - (* [index] is [j] itself *)
    assert (r = j) as ->.
    { destruct (Nat.lt_trichotomy r j) as [Hrj|[Hrj|Hrj]]; [|done|].
      - specialize (Hleast r Hrj). lra.
      - specialize (Hbelow j Hrj). lra. }
    rewrite get_XR by lia. rewrite Hjt.
    rewrite lt_XR_false by lra.
    rewrite get_XR by lia. rewrite Hjt, eq_XR_true.
    change (of_Z (Z.of_nat j)) with (XR (IZR (Z.of_nat j))).
    rewrite <- INR_IZR_INZ. by rewrite div_XR.
  - (* [index] is just below [j] *)
    assert (S r = j) as Hrj.
    { destruct (Nat.lt_trichotomy (S r) j) as [Hlt'|[Heq|Hgt]]; [|done|].
      - specialize (Hleast (S r) Hlt'). lra.
      - assert (j <= r)%nat as Hjr by lia. specialize (Hbelow j Hjr). lra. }
    rewrite get_XR by lia.
    rewrite lt_XR_false by lra.
    rewrite get_XR by lia. rewrite eq_XR_false by lra.
    replace (Z.of_nat r + 1)%Z with (Z.of_nat (S r)) by lia.
    rewrite get_XR by lia. rewrite Hrj, Hjt.
    change (of_Z (Z.of_nat r)) with (XR (IZR (Z.of_nat r))).
    rewrite <- INR_IZR_INZ.
    change (XR t - XR (entry rs r))%js with (XR (t - entry rs r)).
    rewrite div_XR by lra.
    change (XR (INR r) + XR ?w)%js with (XR (INR r + w)).
    rewrite div_XR by done. f_equal. rewrite <- Hrj, S_INR. field. lra.
Qed.

Lemma le_XR_true (u v : R) : u <= v -> (XR u <=? XR v)%js = true.
Proof. intros Huv. simpl. by destruct (Rle_dec u v). Qed.

Lemma lt_XR_inv (u v : R) : (XR u <? XR v)%js = true -> u < v.
Proof. simpl. by destruct (Rlt_dec u v). Qed.

Lemma eq_XR_inv (u v : R) : (XR u === XR v)%js = true -> u = v.
Proof. simpl. by destruct (Req_dec_T u v). Qed.

Lemma new_table (a b c d : Point xreal) (len : nat) :
  real_point a -> real_point b -> real_point c -> real_point d -> len <> O ->
  exists rs, BezierUtils.arcLengths (BezierUtils.new a b c d len) = XR <$> rs
             /\ length rs = S len /\ nondecreasing rs /\ entry rs 0 = 0.
Proof.
  intros Ha Hb Hc Hd Hlen. unfold BezierUtils.new. cbv zeta.
  cbn [BezierUtils.arcLengths].
  assert (forall u, finite u -> real_point (cubicBezierInterpolate u a b c d))
    as Hinterp by (intros; by apply real_cubicBezierInterpolate).
  destruct (Hinterp 0%js (finite_of_Z 0)) as [H0x H0y].
  destruct (arcLengths_from_spec (fun u => cubicBezierInterpolate u a b c d)
              len len 1 _ _ 0 Hinterp Hlen H0x H0y) as (rs & Ers & Hl & Hmono).
  exists (0 :: rs). repeat split; [|simpl; lia|done].
  rewrite fmap_cons, <- Ers. reflexivity.
Qed.

(** C5, as amended, in exact arithmetic: for a segment with real control
    points and [len >= 1] subdivisions the table is non-decreasing,
    [map(0) = 0], and [map(1) = j / len] for the first index [j] at which
    the table reaches its last entry; so [map(1) = 1] when the last step of
    the table is a strict increase. *)
Theorem arcLengths_exact (a b c d : Point xreal) (len : nat) :
  real_point a -> real_point b -> real_point c -> real_point d -> len <> O ->
  let bz := BezierUtils.new a b c d len in
  let table := fun i : nat => BezierUtils.get (BezierUtils.arcLengths bz) (Z.of_nat i) in
  (forall i j : nat, (i <= j <= len)%nat -> (table i <=? table j)%js = true)
  /\ BezierUtils.map bz 0%js = 0%js
  /\ (forall j : nat, (j <= len)%nat -> (table j === table len)%js = true ->
        (forall i : nat, (i < j)%nat -> (table i <? table len)%js = true) ->
        BezierUtils.map bz 1%js = (of_nat j / of_nat len)%js)
  /\ ((table (len - 1)%nat <? table len)%js = true -> BezierUtils.map bz 1%js = 1%js).
Proof.
  intros Ha Hb Hc Hd Hlen bz table.
  destruct (new_table a b c d len Ha Hb Hc Hd Hlen) as (rs & Ers & Hl & Hmono & H0).
  fold bz in Ers.
  assert (forall i, (i <= len)%nat -> table i = XR (entry rs i)) as Htable.
  { intros i Hi. unfold table. rewrite Ers. apply get_XR. lia. }
  assert (INR len <> 0) as HlenR by (apply not_0_INR; lia).
  assert (forall j : nat, (j <= len)%nat -> entry rs j = entry rs len ->
            (forall i : nat, (i < j)%nat -> entry rs i < entry rs len) ->
            BezierUtils.map bz 1%js = XR (INR j / INR len)) as Hone.
  { intros j Hj Hjt Hleast.
    apply (map_attained bz rs len j 1%js (entry rs len)); try done.
    simpl. f_equal. lra. }
  split; [|split; [|split]].
  - intros i j Hij. rewrite !Htable by lia. apply le_XR_true, Hmono. lia.
  - assert (BezierUtils.map bz 0%js = XR (INR 0 / INR len)) as ->.
    { apply (map_attained bz rs len 0 0%js 0); try done; try lia.
      simpl. f_equal. lra. }
    change (0%js : xreal) with (XR 0). f_equal. simpl. lra.
  - intros j Hj Heq Hleast. rewrite !Htable in Heq by lia.
    apply eq_XR_inv in Heq.
    rewrite (Hone j Hj Heq).
    + unfold of_nat. change (of_Z (Z.of_nat j)) with (XR (IZR (Z.of_nat j))).
      change (of_Z (Z.of_nat len)) with (XR (IZR (Z.of_nat len))).
      rewrite <- !INR_IZR_INZ. by rewrite div_XR.
    + intros i Hi. specialize (Hleast i Hi).
      rewrite !Htable in Hleast by lia. by apply lt_XR_inv.
  - intros Hlast. rewrite !Htable in Hlast by lia. apply lt_XR_inv in Hlast.
    rewrite (Hone len); [|lia|done|].
    + change (1%js : xreal) with (XR 1). f_equal. by field.
    + intros i Hi. apply Rle_lt_trans with (entry rs (len - 1)); [|done].
      apply Hmono. lia.
Qed.
End ExactSampler.

Lemma arcLengths_exact_witness :
  let bz := BezierUtils.new (exact_point 0 0) (exact_point 1 0)
              (exact_point 2 0) (exact_point 3 0) 200 in
  let table := fun i : nat => BezierUtils.get (BezierUtils.arcLengths bz) (Z.of_nat i) in
  (forall i j : nat, (i <= j <= 200)%nat -> (table i <=? table j)%js = true)
  /\ BezierUtils.map bz 0%js = 0%js
  /\ (forall j : nat, (j <= 200)%nat -> (table j === table 200%nat)%js = true ->
        (forall i : nat, (i < j)%nat -> (table i <? table 200%nat)%js = true) ->
        BezierUtils.map bz 1%js = (of_nat j / of_nat 200)%js)
  /\ ((table (200 - 1)%nat <? table 200%nat)%js = true -> BezierUtils.map bz 1%js = 1%js).
Proof.
  apply (arcLengths_exact (exact_point 0 0) (exact_point 1 0)
           (exact_point 2 0) (exact_point 3 0) 200);
    [split; exact I | split; exact I | split; exact I | split; exact I | lia].
Defined.

(** ** Insertion of a knot, then its removal (C2) *)

Section Runs.
Context `{JSNumber number}.
Local Abbreviation M := (M number).
Local Abbreviation canvas := (BezierCanvas number).
Local Abbreviation keeps_geometry := (keeps_geometry number).

Lemma same_geometry_refl (σ : gmap ref (Point number)) : same_geometry σ σ.
Proof.
  intros r. exists (fun p => p). split; [done|]. by destruct (σ !! r).
Qed.

Lemma same_geometry_alter (σ σ' : gmap ref (Point number)) (k : ref)
    (g : Point number -> Point number) :
  keeps_geometry g -> same_geometry σ σ' -> same_geometry σ (alter g k σ').
Proof.
  intros Hg Hs r. destruct (Hs r) as (f & Hf & E).
  destruct (decide (k = r)) as [->|Hne].
  - exists (g ∘ f). split.
    + intros p. destruct (Hf p) as (? & ? & ? & ?), (Hg (f p)) as (? & ? & ? & ?).
      simpl. repeat split; congruence.
    + rewrite lookup_alter_eq, E. by destruct (σ !! r).
  - exists f. split; [done|]. by rewrite lookup_alter_ne.
Qed.

Lemma keeps_geometry_set_active (v : bool) : keeps_geometry (set_active v).
Proof. done. Qed.

Lemma same_geometry_lookup (σ σ' : gmap ref (Point number)) (r : ref)
    (p : Point number) :
  same_geometry σ σ' -> σ !! r = Some p ->
  exists p', σ' !! r = Some p' /\ x p' = x p /\ y p' = y p
             /\ parent p' = parent p /\ construction p' = construction p.
Proof.
  intros Hs Hr. destruct (Hs r) as (f & Hf & E). rewrite Hr in E.
  exists (f p). split; [done|]. apply Hf.
Qed.

(** *** Running a [forEach] *)

Lemma run_bind {A B} (m : M A) (k : A -> M B) (s s1 : canvas) (a : A) :
  m s = (Some a, s1) -> (m ≫= k) s = k a s1.
Proof. intros E. unfold mbind, M_bind. by rewrite E. Qed.

Lemma forEach_from_app {A} (a b k : nat) (cb : ref -> nat -> A -> M A) (acc : A)
    (s : canvas) :
  forEach_from (a + b) k cb acc s
  = (forEach_from a k cb acc ≫= forEach_from b (k + a) cb) s.
Proof.
  revert k acc s. induction a as [|a IH]; intros k acc s; simpl.
  - replace (k + 0)%nat with k by lia. done.
  - unfold mbind, M_bind, get_canvas. simpl.
    destruct (constructionPoints s !! k) as [r|].
    + destruct (cb r k acc s) as [[acc'|] s1]; [|done].
      rewrite IH. unfold mbind, M_bind.
      replace (S k + a)%nat with (k + S a)%nat by lia. done.
    + rewrite IH. unfold mbind, M_bind.
      replace (S k + a)%nat with (k + S a)%nat by lia. done.
Qed.

(** A stretch of the array on which the callback changes nothing. *)
Lemma forEach_from_idle {A} (n k : nat) (cb : ref -> nat -> A -> M A) (acc : A)
    (s : canvas) :
  (forall j r, (k <= j < k + n)%nat -> constructionPoints s !! j = Some r ->
               cb r j acc s = (Some acc, s)) ->
  forEach_from n k cb acc s = (Some acc, s).
Proof.
  revert k. induction n as [|n IH]; intros k Hidle; simpl; [done|].
  unfold mbind, M_bind, get_canvas. simpl.
  destruct (constructionPoints s !! k) as [r|] eqn:E.
  - rewrite (Hidle k r) by (done || lia). apply IH.
    intros j r' Hj. apply Hidle. lia.
  - apply IH. intros j r' Hj. apply Hidle. lia.
Qed.

(** The one index on which the callback does something. *)
Lemma forEach_from_one {A} (k : nat) (cb : ref -> nat -> A -> M A) (acc : A)
    (s : canvas) (r : ref) :
  constructionPoints s !! k = Some r ->
  forEach_from 1 k cb acc s = cb r k acc s.
Proof.
  intros E. simpl. unfold mbind, M_bind, get_canvas. simpl. rewrite E.
  by destruct (cb r k acc s) as [[?|] ?].
Qed.

Lemma resetActivePoint_from (s : canvas) (n k : nat) (σ : gmap ref (Point number)) :
  resettable s -> same_geometry (store s) σ ->
  exists σ',
    forEach_from n k
      (fun point (_ : nat) (_ : unit) =>
         update point (set_active false);;
         p ← deref point;
         update_opt (handler1 p) (set_active false);;
         match handler2 p with
         | Some h => update h (set_active false)
         | None => mret tt
         end) tt (set_store σ s)
    = (Some tt, set_store σ' s)
    /\ same_geometry (store s) σ'.
Proof.
  intros Hres. revert k σ. induction n as [|n IH]; intros k σ Hσ; simpl.
  - by exists σ.
  - unfold mbind at 1, M_bind at 1, get_canvas. simpl.
    destruct (constructionPoints s !! k) as [r|] eqn:E; [|by apply IH].
    destruct (Hres r) as (p & h1 & Hp & Hh1); [by eapply list_elem_of_lookup_2|].
    pose (σ1 := alter (set_active false) r σ).
    assert (same_geometry (store s) σ1) as H1
      by (apply same_geometry_alter; [apply keeps_geometry_set_active|done]).
    destruct (same_geometry_lookup _ _ r p H1 Hp) as (p' & Hp' & _ & _ & _ & Ec).
    assert (handler1 p' = Some h1) as Hh1' by (unfold handler1 in *; by rewrite Ec).
    assert (handler2 p' = handler2 p) as Hh2' by (unfold handler2; by rewrite Ec).
    pose (σ2 := alter (set_active false) h1 σ1).
    assert (same_geometry (store s) σ2) as H2
      by (apply same_geometry_alter; [apply keeps_geometry_set_active|done]).
    pose (σ3 := match handler2 p with
                | Some h => alter (set_active false) h σ2
                | None => σ2
                end).
    assert (same_geometry (store s) σ3) as H3.
    { unfold σ3. destruct (handler2 p);
        [apply same_geometry_alter; [apply keeps_geometry_set_active|done]|done]. }
    destruct (IH (S k) σ3 H3) as (σ' & Hrun & Hσ').
    exists σ'. split; [|done]. rewrite <- Hrun.
    unfold mbind, M_bind, update, modify, deref. simpl.
    fold σ1. rewrite Hp'. simpl. rewrite Hh1'. simpl. fold σ2.
    rewrite Hh2'. unfold σ3. by destruct (handler2 p).
Qed.

Lemma resetActivePoint_run (s : canvas) :
  resettable s ->
  exists σ', resetActivePoint s = (Some tt, set_store σ' s)
             /\ same_geometry (store s) σ'.
Proof.
  intros Hres.
  destruct (resetActivePoint_from s (length (constructionPoints s)) 0 (store s)
              Hres (same_geometry_refl _)) as (σ' & Hrun & Hσ').
  exists σ'. split; [|done].
  unfold resetActivePoint, forEach. unfold mbind at 1, M_bind at 1, get_canvas.
  simpl. rewrite <- Hrun. by destruct s.
Qed.

Lemma forEach_split {A} (i : nat) (cb : ref -> nat -> A -> M A) (acc : A)
    (s : canvas) :
  (i < length (constructionPoints s))%nat ->
  forEach cb acc s
  = (forEach_from i 0 cb acc ≫= fun acc =>
     forEach_from 1 i cb acc ≫=
     forEach_from (length (constructionPoints s) - S i) (S i) cb) s.
Proof.
  intros Hi. unfold forEach. unfold mbind at 1, M_bind at 1, get_canvas. simpl.
  replace (length (constructionPoints s))
    with (i + (1 + (length (constructionPoints s) - S i)))%nat at 1 by lia.
  rewrite forEach_from_app. unfold mbind, M_bind.
  change (0 + i)%nat with i.
  destruct (forEach_from i 0 cb acc s) as [[acc1|] s1]; [|done].
  rewrite (forEach_from_app 1). unfold mbind, M_bind.
  replace (i + 1)%nat with (S i) by lia. done.
Qed.

(** The [forEach] of [knotInsertion]: the new knot goes right after [P0]. *)
Lemma insertion_loop_run (s : canvas) (K0 newPoint : ref) (i : nat) :
  NoDup (constructionPoints s) -> constructionPoints s !! i = Some K0 ->
  newPoint ∉ constructionPoints s ->
  forEach (fun point index (_ : unit) =>
      if bool_decide (Some point = Some K0) then
        modify (fun s =>
          set_constructionPoints
            (splice_insert (index + 1) newPoint (constructionPoints s)) s)
      else mret tt) tt s
  = (Some tt,
     set_constructionPoints
       (splice_insert (i + 1) newPoint (constructionPoints s)) s).
Proof.
  intros Hnd Hi Hnew.
  assert (i < length (constructionPoints s))%nat as Hlen
    by (by eapply lookup_lt_Some).
  assert (K0 ∈ constructionPoints s) as HK0 by (by eapply list_elem_of_lookup_2).
  rewrite (forEach_split i) by done.
  erewrite run_bind; cycle 1.
  { apply forEach_from_idle. intros j r Hj Hr.
    rewrite bool_decide_eq_false_2; [done|].
    intros [= ->]. assert (j = i) by (by eapply NoDup_lookup). lia. }
  erewrite run_bind; cycle 1.
  { rewrite (forEach_from_one i _ _ _ K0) by done.
    rewrite bool_decide_eq_true_2 by done. reflexivity. }
  apply forEach_from_idle. intros j r Hj Hr. simpl in Hr.
  rewrite bool_decide_eq_false_2; [done|].
  intros [= ->]. unfold splice_insert in Hr.
  rewrite lookup_app_r in Hr by (rewrite length_take; lia).
  rewrite length_take in Hr.
  replace (j - (i + 1) `min` length (constructionPoints s))%nat
    with (j - (i + 1))%nat in Hr by lia.
  destruct (j - (i + 1))%nat as [|m] eqn:Em; simpl in Hr.
  - injection Hr as ->. done.
  - rewrite lookup_drop in Hr.
    assert (i + 1 + m = i)%nat by (by eapply NoDup_lookup). lia.
Qed.

Lemma at_index_before (l : list ref) (i : nat) :
  at_index l (Z.of_nat (S i) - 1) = l !! i.
Proof.
  unfold at_index.
  assert ((Z.of_nat (S i) - 1 <? 0)%Z = false) as -> by (apply Z.ltb_ge; lia).
  f_equal. lia.
Qed.

Lemma at_index_after (l : list ref) (i : nat) :
  at_index l (Z.of_nat i + 1) = l !! S i.
Proof.
  unfold at_index.
  assert ((Z.of_nat i + 1 <? 0)%Z = false) as -> by (apply Z.ltb_ge; lia).
  f_equal. lia.
Qed.

(** The scan of [removeConstructionPoint] for a knot between two others. *)
Lemma removal_scan_run (s : canvas) (K0 K1 point : ref) (i : nat)
    (q0 q3 : Point number) :
  NoDup (constructionPoints s) ->
  constructionPoints s !! i = Some K0 ->
  constructionPoints s !! S i = Some point ->
  constructionPoints s !! S (S i) = Some K1 ->
  store s !! K0 = Some q0 -> store s !! K1 = Some q3 ->
  removal_scan point s
  = (Some (mkRemoval (Some (S i)) (Some point) (Some K0)
             (match handler2 q0 with
              | Some h => Some h
              | None => handler1 q0
              end)
             (handler1 q3) (Some K1)), s).
Proof.
  intros Hnd Hi Hp Hi2 HK0 HK1.
  assert (S i < length (constructionPoints s))%nat as Hlen
    by (by eapply lookup_lt_Some).
  unfold removal_scan. rewrite (forEach_split (S i)) by done.
  erewrite run_bind; cycle 1.
  { apply forEach_from_idle. intros j r Hj Hr.
    rewrite bool_decide_eq_false_2; [done|].
    intros ->. assert (j = S i) by (by eapply NoDup_lookup). lia. }
  erewrite run_bind; cycle 1.
  { rewrite (forEach_from_one (S i) _ _ _ point) by done.
    rewrite bool_decide_eq_true_2 by done.
    unfold mbind, M_bind, get_canvas. cbn beta iota.
    rewrite at_index_before, at_index_after, Hi, Hi2.
    unfold deref. rewrite HK0. simpl. rewrite HK1. reflexivity. }
  apply forEach_from_idle. intros j r Hj Hr.
  rewrite bool_decide_eq_false_2; [done|].
  intros ->. assert (j = S i) by (by eapply NoDup_lookup). lia.
Qed.

(** *** The two views of an object *)

Lemma view_alter_keep {V} (view : Point number -> V) (f : Point number -> Point number)
    (k r : ref) (σ : gmap ref (Point number)) :
  (forall p, view (f p) = view p) ->
  view <$> alter f k σ !! r = view <$> σ !! r.
Proof.
  intros Hf. destruct (decide (k = r)) as [->|Hne].
  - rewrite lookup_alter_eq. destruct (σ !! r); simpl; [by rewrite Hf|done].
  - by rewrite lookup_alter_ne.
Qed.

Lemma view_same_geometry {V} (view : Point number -> V) (σ σ' : gmap ref (Point number))
    (r : ref) :
  (forall f, keeps_geometry f -> forall p, view (f p) = view p) ->
  same_geometry σ σ' -> view <$> σ' !! r = view <$> σ !! r.
Proof.
  intros Hview Hs. destruct (Hs r) as (f & Hf & ->).
  destruct (σ !! r); simpl; [by rewrite (Hview f Hf)|done].
Qed.

Lemma xy_keeps_geometry (f : Point number -> Point number) :
  keeps_geometry f -> forall p, xy (f p) = xy p.
Proof. intros Hf p. destruct (Hf p) as (? & ? & _). unfold xy. congruence. Qed.

Lemma links_keeps_geometry (f : Point number -> Point number) :
  keeps_geometry f -> forall p, links (f p) = links p.
Proof. intros Hf p. destruct (Hf p) as (_ & _ & ? & ?). unfold links. congruence. Qed.

Ltac state_simpl :=
  unfold set_store, set_Point_count, set_constructionPoints,
    set_currentMovingPoint, set_isMouseDown, set_ctrlKeyIsDown,
    set_mouseRelease, set_options;
  cbn [store Point_count constructionPoints currentMovingPoint isMouseDown
       ctrlKeyIsDown mouseReleaseAfterConstructionPointCreation options
       fst snd].

Lemma run_assoc {A B C} (m : M A) (f : A -> M B) (g : B -> M C) (s : canvas) :
  ((m ≫= f) ≫= g) s = (m ≫= fun a => f a ≫= g) s.
Proof. unfold mbind, M_bind. by destruct (m s) as [[a|] s1]. Qed.

Lemma run_alloc {A} (p : Point number) (k : ref -> M A) (s : canvas) :
  (alloc p ≫= k) s
  = k (Point_count s)
      (set_Point_count (S (Point_count s))
         (set_store (<[Point_count s := p]> (store s)) s)).
Proof. reflexivity. Qed.

Lemma run_update {A} (r : ref) (f : Point number -> Point number)
    (k : unit -> M A) (s : canvas) :
  (update r f ≫= k) s = k tt (set_store (alter f r (store s)) s).
Proof. reflexivity. Qed.

Lemma run_modify {A} (f : canvas -> canvas) (k : unit -> M A) (s : canvas) :
  (modify f ≫= k) s = k tt (f s).
Proof. reflexivity. Qed.

Lemma run_get {A} (k : canvas -> M A) (s : canvas) :
  (get_canvas ≫= k) s = k s s.
Proof. reflexivity. Qed.

Lemma run_ret {A B} (a : A) (k : A -> M B) (s : canvas) :
  (mret a ≫= k) s = k a s.
Proof. reflexivity. Qed.

Lemma run_deref {A} (r : ref) (p : Point number) (k : Point number -> M A)
    (s : canvas) :
  store s !! r = Some p -> (deref r ≫= k) s = k p s.
Proof. intros E. unfold mbind, M_bind, deref. by rewrite E. Qed.

Lemma run_set_handler1 {A} (this h : ref) (k : unit -> M A) (s : canvas) :
  (set_handler1 this (Some h) ≫= k) s
  = k tt (set_store
            (alter (set_parent (Some this)) h
               (alter (set_construction
                         (fun c => mkConstruction (Some h) (_handler2 c)
                                     (fromCasteljau c))) this (store s))) s).
Proof. reflexivity. Qed.

Lemma run_set_handler2 {A} (this h : ref) (k : unit -> M A) (s : canvas) :
  (set_handler2 this (Some h) ≫= k) s
  = k tt (set_store
            (alter (set_parent (Some this)) h
               (alter (set_construction
                         (fun c => mkConstruction (_handler1 c) (Some h)
                                     (fromCasteljau c))) this (store s))) s).
Proof. reflexivity. Qed.

Lemma run_set_handler2_null {A} (this : ref) (k : unit -> M A) (s : canvas) :
  (set_handler2 this None ≫= k) s
  = k tt (set_store
            (alter (set_construction
                      (fun c => mkConstruction (_handler1 c) None
                                  (fromCasteljau c))) this (store s)) s).
Proof. reflexivity. Qed.

Lemma run_set_fromCasteljau {A} (this : ref) (v : bool) (k : unit -> M A)
    (s : canvas) :
  (set_fromCasteljau this v ≫= k) s
  = k tt (set_store
            (alter (set_construction
                      (fun c => mkConstruction (_handler1 c) (_handler2 c) v))
               this (store s)) s).
Proof. reflexivity. Qed.

Ltac run_step :=
  lazymatch goal with
  | |- (?m ≫= _) _ = _ =>
      lazymatch m with
      | _ ≫= _ => rewrite run_assoc
      | alloc _ => rewrite run_alloc
      | update _ _ => rewrite run_update
      | modify _ => rewrite run_modify
      | get_canvas => rewrite run_get
      | mret _ => rewrite run_ret
      | set_handler1 _ (Some _) => rewrite run_set_handler1
      | set_handler2 _ (Some _) => rewrite run_set_handler2
      | set_handler2 _ None => rewrite run_set_handler2_null
      | set_fromCasteljau _ _ => rewrite run_set_fromCasteljau
      end
  end; state_simpl.

Ltac run_steps := repeat run_step.

Lemma knotInsertion_run (s : canvas) (i : nat) (K0 K1 P1 P2 : ref)
    (p0 p1 p2 p3 : Point number) (t : number) :
  NoDup (constructionPoints s) -> bounded s -> resettable s ->
  constructionPoints s !! i = Some K0 ->
  store s !! K0 = Some p0 -> store s !! P1 = Some p1 ->
  store s !! P2 = Some p2 -> store s !! K1 = Some p3 ->
  let n := Point_count s in
  let P4 := weighted p0 p1 t in
  let P5 := weighted p1 p2 t in
  let P6 := weighted p2 p3 t in
  let P7 := weighted P4 P5 t in
  let P8 := weighted P5 P6 t in
  let P9 := weighted P7 P8 t in
  exists σ,
    same_geometry
      (alter (set_construction
                (fun c => mkConstruction (_handler1 c) (_handler2 c) true)) n
         (<[n := new_ConstructionPoint (x P9) (y P9)]> (store s))) σ
    /\ knotInsertion t (Some K0) (Some P1) (Some P2) (Some K1) s
       = (Some tt,
          mkCanvas (inserted_store σ n P1 P2 P4 P6 P7 P8) (S (S (S n)))
            (splice_insert (i + 1) n (constructionPoints s)) (Some n)
            (isMouseDown s) (ctrlKeyIsDown s)
            (mouseReleaseAfterConstructionPointCreation s) (options s)).
Proof.
  intros Hnd Hb Hres Hi HK0 HP1 HP2 HK1 n P4 P5 P6 P7 P8 P9.
  assert (forall k, k ∈ constructionPoints s -> (k < n)%nat) as Hlt.
  { intros k Hk. destruct (Hres k Hk) as (p & _ & Hp & _). apply Hb. by rewrite Hp. }
  pose (st := mkCanvas
          (alter (set_construction
                    (fun c => mkConstruction (_handler1 c) (_handler2 c) true)) n
             (<[n := new_ConstructionPoint (x P9) (y P9)]> (store s)))
          (S n) (constructionPoints s) (currentMovingPoint s) (isMouseDown s)
          (ctrlKeyIsDown s) (mouseReleaseAfterConstructionPointCreation s)
          (options s)).
  destruct (resetActivePoint_run st) as (σ & Hrun & Hσ).
  { intros k Hk. simpl in Hk. destruct (Hres k Hk) as (p & h1 & Hp & Hh1).
    exists p, h1. split; [|done]. simpl.
    specialize (Hlt k Hk).
    rewrite lookup_alter_ne, lookup_insert_ne by lia. done. }
  exists σ. split; [exact Hσ|].
  unfold knotInsertion, deref_opt.
  rewrite (run_deref K0 p0), (run_deref P1 p1), (run_deref P2 p2),
    (run_deref K1 p3) by done.
  fold P4 P5 P6 P7 P8 P9.
  unfold setActivePoint, update_opt.
  run_steps. fold n. fold st.
  rewrite (run_bind _ _ _ _ _ Hrun). unfold st.
  run_steps.
  match goal with
  | |- forEach _ _ ?st' = _ =>
      pose proof (insertion_loop_run st' K0 n i Hnd Hi) as Hloop
  end.
  etransitivity; [|reflexivity].
  etransitivity; [apply Hloop|reflexivity].
  intros Hn. specialize (Hlt n Hn). lia.
Qed.

(** [removeConstructionPoint] on a subdivision knot between two others,
    with a ratio that is not NaN: the fusion, the splice, and then
    [keepOneHandlerAtEnds]. *)
Lemma removeConstructionPoint_run (s : canvas) (i : nat)
    (K0 K1 point P1 P2 h1 h2 : ref) (q0 q1 q2 q3 qn q7 q8 : Point number) :
  NoDup (constructionPoints s) ->
  constructionPoints s !! i = Some K0 ->
  constructionPoints s !! S i = Some point ->
  constructionPoints s !! S (S i) = Some K1 ->
  store s !! K0 = Some q0 -> store s !! K1 = Some q3 ->
  store s !! point = Some qn -> get_fromCasteljau qn = true ->
  handler1 qn = Some h1 -> handler2 qn = Some h2 ->
  store s !! h1 = Some q7 -> store s !! h2 = Some q8 ->
  match handler2 q0 with Some h => Some h | None => handler1 q0 end = Some P1 ->
  handler1 q3 = Some P2 ->
  store s !! P1 = Some q1 -> store s !! P2 = Some q2 ->
  let k := (getDistance q8 qn / getDistance q7 qn)%js in
  isNaN k = false ->
  let P := fusion_P k q0 q1 in
  let Q := fusion_Q k q2 q3 in
  removeConstructionPoint point s
  = keepOneHandlerAtEnds
      (mkCanvas
         (alter (set_y (y Q)) P2 (alter (set_x (x Q)) P2
            (alter (set_y (y P)) P1 (alter (set_x (x P)) P1 (store s)))))
         (Point_count s) (delete (S i) (constructionPoints s))
         (if bool_decide (currentMovingPoint s = Some point)
          then None else currentMovingPoint s)
         (isMouseDown s) (ctrlKeyIsDown s)
         (mouseReleaseAfterConstructionPointCreation s) (options s)).
Proof.
  intros Hnd Hi0 Hi1 Hi2 HK0 HK1 Hn Hfc Hh1 Hh2 H7 H8 HP1 HP2 Hq1 Hq2 k Hk P Q.
  unfold removeConstructionPoint. run_steps.
  assert (forall (cmp : option ref) (st : canvas),
            st = mkCanvas (store s) (Point_count s) (constructionPoints s) cmp
                   (isMouseDown s) (ctrlKeyIsDown s)
                   (mouseReleaseAfterConstructionPointCreation s) (options s) ->
            (removal_scan point ≫= fun found =>
               deref point ≫= fun pointObj =>
               match guard (get_fromCasteljau pointObj = true),
                     rP0 found, rP1 found, rP2 found, rP3 found with
               | Some _, Some P0, Some P1, Some P2, Some P3 =>
                   foundObj ← deref_opt (foundPoint found);
                   h2 ← deref_opt (handler2 foundObj);
                   h1 ← deref_opt (handler1 foundObj);
                   let k := (getDistance h2 foundObj / getDistance h1 foundObj)%js in
                   if negb (isNaN k) then
                     p0 ← deref P0;
                     p1 ← deref P1;
                     p2 ← deref P2;
                     p3 ← deref P3;
                     let P := fusion_P k p0 p1 in
                     let Q := fusion_Q k p2 p3 in
                     update P1 (set_x (x P));;
                     update P1 (set_y (y P));;
                     update P2 (set_x (x Q));;
                     update P2 (set_y (y Q))
                   else mret tt
               | _, _, _, _, _ => mret tt
               end ≫= fun _ =>
               modify (fun s =>
                 set_constructionPoints
                   (splice_remove (foundIndex found) (constructionPoints s)) s)
               ≫= fun _ => keepOneHandlerAtEnds) st
            = keepOneHandlerAtEnds
                (mkCanvas
                   (alter (set_y (y Q)) P2 (alter (set_x (x Q)) P2
                      (alter (set_y (y P)) P1 (alter (set_x (x P)) P1 (store s)))))
                   (Point_count s) (delete (S i) (constructionPoints s)) cmp
                   (isMouseDown s) (ctrlKeyIsDown s)
                   (mouseReleaseAfterConstructionPointCreation s) (options s)))
    as Hrest.
  { intros cmp st ->.
    erewrite run_bind; cycle 1.
    { apply (removal_scan_run _ K0 K1 point i q0 q3); done. }
    rewrite (run_deref point qn) by done.
    rewrite Hfc, HP1, HP2. cbn [rP0 rP1 rP2 rP3 foundPoint foundIndex].
    case_guard; [|done].
    match goal with
    | |- context [@mret option _ _ ?pf] => change (@mret option _ _ pf) with (Some pf)
    end.
    cbn beta iota. unfold deref_opt.
    rewrite run_assoc, (run_deref point qn) by done.
    rewrite Hh2, run_assoc, (run_deref h2 q8) by done.
    rewrite Hh1, run_assoc, (run_deref h1 q7) by done.
    fold k. rewrite Hk. cbn [negb].
    rewrite run_assoc, (run_deref K0 q0) by done.
    rewrite run_assoc, (run_deref P1 q1) by done.
    rewrite run_assoc, (run_deref P2 q2) by done.
    rewrite run_assoc, (run_deref K1 q3) by done.
    cbv zeta. fold P Q.
    run_steps. reflexivity. }
  destruct (bool_decide (currentMovingPoint s = Some point)); run_steps.
  - apply Hrest. reflexivity.
  - apply Hrest. by destruct s.
Qed.

Lemma segment_points_intro (s : canvas) (i : nat) (K0 K1 P1 P2 : ref)
    (q0 q1 q2 q3 : Point number) :
  constructionPoints s !! i = Some K0 -> constructionPoints s !! S i = Some K1 ->
  store s !! K0 = Some q0 ->
  match handler2 q0 with Some h => Some h | None => handler1 q0 end = Some P1 ->
  store s !! P1 = Some q1 -> store s !! K1 = Some q3 ->
  handler1 q3 = Some P2 -> store s !! P2 = Some q2 ->
  segment_points s i = Some [xy q0; xy q1; xy q2; xy q3].
Proof.
  intros Hi HSi HK0 HP1 Hq1 HK1 HP2 Hq2. unfold segment_points.
  rewrite Hi, HSi. simpl. rewrite HK0. simpl. rewrite HP1. simpl.
  rewrite Hq1. simpl. rewrite HK1. simpl. rewrite HP2. simpl. by rewrite Hq2.
Qed.

Lemma run_set_handler2_null_end (this : ref) (s : canvas) :
  set_handler2 this None s
  = (Some tt,
     set_store
       (alter (set_construction
                 (fun c => mkConstruction (_handler1 c) None (fromCasteljau c)))
          this (store s)) s).
Proof. reflexivity. Qed.

Ltac neq_tac :=
  first [ assumption | apply not_eq_sym; assumption | lia | congruence ].

Ltac lk_step :=
  match goal with
  | |- context [alter ?f ?i ?m !! ?i] => rewrite (lookup_alter_eq f m i)
  | |- context [alter ?f ?i ?m !! ?j] => rewrite (lookup_alter_ne f m i j) by neq_tac
  | |- context [<[?i := ?v]> ?m !! ?i] => rewrite (lookup_insert_eq m i v)
  | |- context [<[?i := ?v]> ?m !! ?j] => rewrite (lookup_insert_ne m i j v) by neq_tac
  end.

Ltac lk := repeat lk_step.

Lemma xy_set_construction (g : ConstructionFields -> ConstructionFields)
    (p : Point number) : xy (set_construction g p) = xy p.
Proof. reflexivity. Qed.

Lemma xy_set_parent (v : option ref) (p : Point number) : xy (set_parent v p) = xy p.
Proof. reflexivity. Qed.

Lemma handler1_set_parent (v : option ref) (p : Point number) :
  handler1 (set_parent v p) = handler1 p.
Proof. reflexivity. Qed.

Lemma handler1_set_xy (p : Point number) (v : number) :
  handler1 (set_x v p) = handler1 p /\ handler1 (set_y v p) = handler1 p.
Proof. split; reflexivity. Qed.

Lemma handler1_drop_handler2 (p : Point number) :
  handler1 (set_construction
              (fun c => mkConstruction (_handler1 c) None (fromCasteljau c)) p)
  = handler1 p.
Proof. unfold handler1. by destruct p as [? ? ? ? [?|]]. Qed.

(** A lookup of a view through writes that keep the view or go elsewhere. *)
Ltac view_step :=
  match goal with
  | |- context [?view <$> alter ?f ?k ?m !! ?r] =>
      rewrite (view_alter_keep view f k r m (fun _ => eq_refl))
  | |- context [xy <$> alter (set_construction ?g) ?k ?m !! ?r] =>
      rewrite (view_alter_keep xy (set_construction g) k r m (xy_set_construction g))
  | |- context [xy <$> alter (set_parent ?v) ?k ?m !! ?r] =>
      rewrite (view_alter_keep xy (set_parent v) k r m (xy_set_parent v))
  | |- context [handler1 <$> alter (set_parent ?v) ?k ?m !! ?r] =>
      rewrite (view_alter_keep handler1 (set_parent v) k r m (handler1_set_parent v))
  | |- context [handler1 <$> alter (set_construction
                   (fun c => mkConstruction (_handler1 c) None (fromCasteljau c)))
                   ?k ?m !! ?r] =>
      rewrite (view_alter_keep handler1 _ k r m handler1_drop_handler2)
  | |- context [alter ?f ?i ?m !! ?j] => rewrite (lookup_alter_ne f m i j) by neq_tac
  | |- context [<[?i := ?v]> ?m !! ?j] => rewrite (lookup_insert_ne m i j v) by neq_tac
  end.

Ltac views := repeat view_step; try reflexivity.

Lemma lookup_views (σ σ' : gmap ref (Point number)) (r : ref) (q : Point number) :
  xy <$> σ' !! r = xy <$> σ !! r ->
  handler1 <$> σ' !! r = handler1 <$> σ !! r ->
  σ !! r = Some q ->
  exists q', σ' !! r = Some q' /\ xy q' = xy q /\ handler1 q' = handler1 q.
Proof.
  intros Exy Eh Hq. rewrite Hq in Exy, Eh.
  destruct (σ' !! r) as [q'|]; [|done].
  exists q'. simpl in *. split; [done|]. split; congruence.
Qed.

Lemma lookup_xy (σ σ' : gmap ref (Point number)) (r : ref) (q : Point number) :
  xy <$> σ' !! r = xy <$> σ !! r -> σ !! r = Some q ->
  exists q', σ' !! r = Some q' /\ xy q' = xy q.
Proof.
  intros Exy Hq. rewrite Hq in Exy.
  destruct (σ' !! r) as [q'|]; [|done].
  exists q'. simpl in *. split; congruence.
Qed.

Lemma keepOneHandlerAtEnds_segment (s : canvas) (i : nat) (K0 K1 P1 P2 : ref)
    (q0 q1 q2 q3 : Point number) :
  NoDup (constructionPoints s) -> bounded s -> knots_exist s ->
  constructionPoints s !! i = Some K0 -> constructionPoints s !! S i = Some K1 ->
  store s !! K0 = Some q0 ->
  match handler2 q0 with Some h => Some h | None => handler1 q0 end = Some P1 ->
  store s !! P1 = Some q1 -> store s !! K1 = Some q3 ->
  handler1 q3 = Some P2 -> store s !! P2 = Some q2 ->
  exists s' c1,
    keepOneHandlerAtEnds s = (Some tt, s')
    /\ constructionPoints s' = constructionPoints s
    /\ segment_points s' i = Some [xy q0; c1; xy q2; xy q3]
    /\ (c1 = xy q1 \/ c1 = (Math_round (x q1), Math_round (y q1))).
Proof.
  intros Hnd Hb Hex Hi HSi HK0 HP1 Hq1 HK1 HP2 Hq2.
  assert (S i < length (constructionPoints s))%nat as Hlen
    by (by eapply lookup_lt_Some).
  destruct (constructionPoints s !! O) as [first|] eqn:Hfirst; cycle 1.
  { apply lookup_ge_None in Hfirst. lia. }
  destruct (last (constructionPoints s)) as [final|] eqn:Hfinal; cycle 1.
  { rewrite last_lookup in Hfinal. apply lookup_ge_None in Hfinal. lia. }
  assert (K1 <> first) as HK1first.
  { intros ->. assert (S i = O) by (by eapply NoDup_lookup). lia. }
  assert (K0 <> final) as HK0final.
  { intros ->. rewrite last_lookup in Hfinal.
    assert (i = Nat.pred (length (constructionPoints s))) by (by eapply NoDup_lookup).
    lia. }
  assert (forall (r : ref) (p : Point number),
            store s !! r = Some p -> (r < Point_count s)%nat) as Hlt.
  { intros r p Hr. apply Hb. by rewrite Hr. }
  pose proof (Hlt _ _ HK0). pose proof (Hlt _ _ HK1).
  pose proof (Hlt _ _ Hq1). pose proof (Hlt _ _ Hq2).
  unfold keepOneHandlerAtEnds. rewrite run_get, Hfirst, Hfinal.
  destruct (naturalDrawMode (options s)); cbn [negb].
  { exists s, (xy q1). repeat split; [|by left].
    by eapply segment_points_intro. }
  destruct (Hex first) as (pf & Hpf & Hh2); [by eapply list_elem_of_lookup_2|].
  rewrite (run_deref first pf) by done.
  destruct (handler2 pf) as [h|] eqn:Ehf.
  - destruct (Hh2 h eq_refl) as [ph Hph].
    rewrite run_assoc, (run_deref h ph) by done.
    match goal with
    | |- ex (fun s' => ex (fun c1 => ?lhs = _ /\ _)) =>
        eassert (lhs = (Some tt, _)) as Hrun
    end.
    { run_steps. rewrite run_set_handler2_null_end. state_simpl. reflexivity. }
    rewrite Hrun. clear Hrun.
    set (c := Point_count s) in *.
    pose proof (Hlt _ _ Hpf).
    assert (final < c)%nat as Hfinalc.
    { destruct (Hex final) as (pl & Hpl & _).
      - rewrite last_lookup in Hfinal. by eapply list_elem_of_lookup_2.
      - by eapply Hlt. }
    match goal with
    | |- context [(Some tt, mkCanvas ?m _ _ _ _ _ _ _)] => set (σ' := m)
    end.
    destruct (lookup_views (store s) σ' K1 q3) as (q3' & HK1' & Exy3 & Eh3);
      [unfold σ'; views..|done|].
    destruct (lookup_xy (store s) σ' P2 q2) as (q2' & Hq2' & Exy2);
      [unfold σ'; views|done|].
    destruct (decide (K0 = first)) as [->|HK0first].
    + (* the segment starts at the first knot: its handle is cloned *)
      assert (pf = q0) as -> by congruence.
      rewrite Ehf in HP1. injection HP1 as <-.
      assert (ph = q1) as -> by congruence.
      eexists _, (Math_round (x q1), Math_round (y q1)).
      repeat split; [|by right].
      rewrite <- Exy2, <- Exy3.
      etransitivity; [|reflexivity].
      etransitivity.
      { eapply (segment_points_intro _ i first K1 c P2 _ _ q2' q3');
          state_simpl; try done.
        * fold σ'. unfold σ'. lk. rewrite HK0. reflexivity.
        * unfold handler1, handler2 in *.
          destruct q0 as [? ? ? ? [cf|]]; [reflexivity|done].
        * fold σ'. unfold σ'. lk. reflexivity.
        * by rewrite Eh3. }
      reflexivity.
    + destruct (lookup_xy (store s) σ' P1 q1) as (q1' & Hq1' & Exy1);
        [unfold σ'; views|done|].
      eexists _, (xy q1). repeat split; [|by left].
      rewrite <- Exy1, <- Exy2, <- Exy3.
      eapply (segment_points_intro _ i K0 K1 P1 P2 q0 q1' q2' q3');
        state_simpl; try done.
      * fold σ'. unfold σ'. lk. done.
      * by rewrite Eh3.
  - rewrite run_ret, run_set_handler2_null_end. state_simpl.
    match goal with
    | |- context [(Some tt, mkCanvas ?m _ _ _ _ _ _ _)] => set (σ' := m)
    end.
    destruct (lookup_views (store s) σ' K1 q3) as (q3' & HK1' & Exy3 & Eh3);
      [unfold σ'; views..|done|].
    destruct (lookup_xy (store s) σ' P2 q2) as (q2' & Hq2' & Exy2);
      [unfold σ'; views|done|].
    destruct (lookup_xy (store s) σ' P1 q1) as (q1' & Hq1' & Exy1);
      [unfold σ'; views|done|].
    eexists _, (xy q1). repeat split; [|by left].
    rewrite <- Exy1, <- Exy2, <- Exy3.
    eapply (segment_points_intro _ i K0 K1 P1 P2 q0 q1' q2' q3');
      state_simpl; try done.
    + fold σ'. unfold σ'. lk. done.
    + by rewrite Eh3.
Qed.

(** *** An insertion, then the removal of the inserted knot *)

Lemma same_geometry_is_Some (σ σ' : gmap ref (Point number)) (r : ref) :
  same_geometry σ σ' -> is_Some (σ' !! r) <-> is_Some (σ !! r).
Proof. intros Hs. destruct (Hs r) as (f & _ & ->). by rewrite fmap_is_Some. Qed.

Lemma inserted_store_is_Some (σ : gmap ref (Point number)) (n P1 P2 : ref)
    (P4 P6 P7 P8 : Point number) (r : ref) :
  is_Some (inserted_store σ n P1 P2 P4 P6 P7 P8 !! r)
  <-> r = S n \/ r = S (S n) \/ is_Some (σ !! r).
Proof.
  unfold inserted_store.
  repeat first [rewrite lookup_alter_is_Some | rewrite lookup_insert_is_Some'].
  intuition congruence.
Qed.

Lemma handlers_construction (p q : Point number) :
  construction p = construction q ->
  handler1 p = handler1 q /\ handler2 p = handler2 q
  /\ get_fromCasteljau p = get_fromCasteljau q.
Proof.
  intros E. unfold handler1, handler2, get_fromCasteljau. by rewrite E.
Qed.

Lemma getDistance_xy (a a' b b' : Point number) :
  xy a = xy a' -> xy b = xy b' -> getDistance a b = getDistance a' b'.
Proof.
  unfold xy, getDistance. intros [= -> ->] [= -> ->]. reflexivity.
Qed.

Lemma fusion_P_xy (k : number) (a a' b b' : Point number) :
  xy a = xy a' -> xy b = xy b' -> fusion_P k a b = fusion_P k a' b'.
Proof.
  unfold xy, fusion_P. intros [= -> ->] [= -> ->]. reflexivity.
Qed.

Lemma fusion_Q_xy (k : number) (a a' b b' : Point number) :
  xy a = xy a' -> xy b = xy b' -> fusion_Q k a b = fusion_Q k a' b'.
Proof.
  unfold xy, fusion_Q. intros [= -> ->] [= -> ->]. reflexivity.
Qed.

Lemma NoDup_splice_insert (k : nat) (n : ref) (l : list ref) :
  NoDup l -> n ∉ l -> NoDup (splice_insert k n l).
Proof.
  intros Hnd Hn. unfold splice_insert.
  rewrite <- Permutation_middle, take_drop. by apply NoDup_cons.
Qed.

Lemma delete_splice_insert (k : nat) (n : ref) (l : list ref) :
  (k <= length l)%nat -> delete k (splice_insert k n l) = l.
Proof.
  intros Hk. unfold splice_insert.
  replace k with (length (take k l)) at 1 by (rewrite length_take; lia).
  rewrite delete_middle. apply take_drop.
Qed.

Lemma splice_insert_lookup (k : nat) (n : ref) (l : list ref) :
  (k <= length l)%nat ->
  splice_insert k n l !! k = Some n
  /\ (forall j, (j < k)%nat -> splice_insert k n l !! j = l !! j)
  /\ (forall j, (k <= j)%nat -> splice_insert k n l !! S j = l !! j).
Proof.
  intros Hk. unfold splice_insert.
  assert (length (take k l) = k) as Hl by (rewrite length_take; lia).
  repeat split.
  - rewrite lookup_app_r by lia. by rewrite Hl, Nat.sub_diag.
  - intros j Hj. rewrite lookup_app_l by lia. by apply lookup_take_lt.
  - intros j Hj. rewrite lookup_app_r by lia. rewrite Hl.
    replace (S j - k)%nat with (S (j - k)) by lia. simpl.
    rewrite lookup_drop. f_equal. lia.
Qed.


Lemma insertion_then_removal_run (s : canvas) (i : nat) (K0 K1 P1 P2 : ref)
    (p0 p1 p2 p3 : Point number) (t : number) :
  NoDup (constructionPoints s) -> bounded s -> resettable s -> knots_exist s ->
  constructionPoints s !! i = Some K0 -> constructionPoints s !! S i = Some K1 ->
  store s !! K0 = Some p0 -> store s !! K1 = Some p3 ->
  match handler2 p0 with Some h => Some h | None => handler1 p0 end = Some P1 ->
  handler1 p3 = Some P2 ->
  store s !! P1 = Some p1 -> store s !! P2 = Some p2 ->
  NoDup [K0; P1; P2; K1] ->
  let P4 := weighted p0 p1 t in
  let P5 := weighted p1 p2 t in
  let P6 := weighted p2 p3 t in
  let P7 := weighted P4 P5 t in
  let P8 := weighted P5 P6 t in
  let P9 := weighted P7 P8 t in
  let N := new_ConstructionPoint (x P9) (y P9) in
  let k := (getDistance P8 N / getDistance P7 N)%js in
  isNaN k = false ->
  let P := fusion_P k p0 P4 in
  let Q := fusion_Q k P6 p3 in
  exists s1 s2 c1,
    knotInsertion t (Some K0) (Some P1) (Some P2) (Some K1) s = (Some tt, s1)
    /\ removeConstructionPoint (Point_count s) s1 = (Some tt, s2)
    /\ constructionPoints s2 = constructionPoints s
    /\ segment_points s2 i = Some [xy p0; c1; xy Q; xy p3]
    /\ (c1 = xy P \/ c1 = (Math_round (x P), Math_round (y P))).
Proof.
  intros Hnd Hb Hres Hex Hi HSi HK0 HK1 HP1 HP2 Hp1 Hp2 Hd
    P4 P5 P6 P7 P8 P9 N k Hk P Q.
  set (n := Point_count s).
  assert (forall (r : ref) (p : Point number),
            store s !! r = Some p -> (r < n)%nat) as Hlt.
  { intros r p Hr. apply Hb. by rewrite Hr. }
  pose proof (Hlt _ _ HK0). pose proof (Hlt _ _ HK1).
  pose proof (Hlt _ _ Hp1). pose proof (Hlt _ _ Hp2).
  assert (K0 <> P1 /\ K0 <> P2 /\ K0 <> K1 /\ P1 <> P2 /\ P1 <> K1 /\ P2 <> K1)
    as (? & ? & ? & ? & ? & ?).
  { rewrite !NoDup_cons, !not_elem_of_cons in Hd. intuition congruence. }
  assert (S i < length (constructionPoints s))%nat as Hlen
    by (by eapply lookup_lt_Some).
  destruct (knotInsertion_run s i K0 K1 P1 P2 p0 p1 p2 p3 t)
    as (σ & Hgeo & Hrun1); try done.
  fold n P4 P5 P6 P7 P8 P9 N in Hgeo, Hrun1.
  set (σa := alter _ n (<[n:=N]> (store s))) in Hgeo.
  (* the objects of the segment, after [resetActivePoint] *)
  destruct (same_geometry_lookup σa σ K0 p0 Hgeo)
    as (p0' & Hp0' & Ex0 & Ey0 & _ & Ec0); [unfold σa; lk; done|].
  destruct (same_geometry_lookup σa σ K1 p3 Hgeo)
    as (p3' & Hp3' & Ex3 & Ey3 & _ & Ec3); [unfold σa; lk; done|].
  destruct (same_geometry_lookup σa σ P1 p1 Hgeo)
    as (p1' & Hp1' & Ex1 & Ey1 & _ & Ec1); [unfold σa; lk; done|].
  destruct (same_geometry_lookup σa σ P2 p2 Hgeo)
    as (p2' & Hp2' & Ex2 & Ey2 & _ & Ec2); [unfold σa; lk; done|].
  destruct (same_geometry_lookup σa σ n
              (set_construction
                 (fun c => mkConstruction (_handler1 c) (_handler2 c) true) N) Hgeo)
    as (N' & HN' & ExN & EyN & _ & EcN); [unfold σa; lk; done|].
  destruct (handlers_construction _ _ Ec0) as (Eh10 & Eh20 & _).
  destruct (handlers_construction _ _ Ec3) as (Eh13 & _ & _).
  set (σ1 := inserted_store σ n P1 P2 P4 P6 P7 P8) in *.
  assert (σ1 !! K0 = Some p0') as H1K0 by (unfold σ1, inserted_store; lk; done).
  assert (σ1 !! K1 = Some p3') as H1K1 by (unfold σ1, inserted_store; lk; done).
  assert (σ1 !! P1 = Some (set_y (y P4) (set_x (x P4) p1'))) as H1P1.
  { unfold σ1, inserted_store. lk. by rewrite Hp1'. }
  assert (σ1 !! P2 = Some (set_y (y P6) (set_x (x P6) p2'))) as H1P2.
  { unfold σ1, inserted_store. lk. by rewrite Hp2'. }
  assert (σ1 !! S n = Some (set_parent (Some n) P7)) as H1h1.
  { unfold σ1, inserted_store. lk. reflexivity. }
  assert (σ1 !! S (S n) = Some (set_parent (Some n) P8)) as H1h2.
  { unfold σ1, inserted_store. lk. reflexivity. }
  set (qn := set_construction
               (fun c => mkConstruction (_handler1 c) (Some (S (S n)))
                           (fromCasteljau c))
               (set_construction
                  (fun c => mkConstruction (Some (S n)) (_handler2 c)
                              (fromCasteljau c))
                  (set_active true N'))).
  assert (σ1 !! n = Some qn) as H1n.
  { unfold σ1, inserted_store. lk. by rewrite HN'. }
  assert (construction N'
          = Some (mkConstruction None None true)) as EN by (by rewrite EcN).
  assert (handler1 qn = Some (S n) /\ handler2 qn = Some (S (S n))
          /\ get_fromCasteljau qn = true) as (Hqn1 & Hqn2 & Hqnf).
  { unfold qn, handler1, handler2, get_fromCasteljau. simpl. by rewrite EN. }
  assert (xy qn = xy N) as Exyn by (unfold xy, qn; simpl; rewrite ExN, EyN; reflexivity).
  assert (xy p0' = xy p0) as Exy0 by (unfold xy; congruence).
  assert (xy p3' = xy p3) as Exy3 by (unfold xy; congruence).
  clearbody qn.
  (* the removal *)
  assert (n ∉ constructionPoints s) as Hfresh.
  { intros Hin. destruct (Hres n Hin) as (p & _ & Hp & _). apply Hlt in Hp. lia. }
  destruct (splice_insert_lookup (i + 1) n (constructionPoints s))
    as (Hat & Hbefore & Hafter); [lia|].
  replace (i + 1)%nat with (S i) in * by lia.
  set (s1 := mkCanvas σ1 _ _ _ _ _ _ _) in Hrun1.
  eassert (removeConstructionPoint n s1 = keepOneHandlerAtEnds _) as Hrun2.
  { eapply (removeConstructionPoint_run s1 i K0 K1 n P1 P2 (S n) (S (S n))
              p0' (set_y (y P4) (set_x (x P4) p1'))
              (set_y (y P6) (set_x (x P6) p2')) p3' qn
              (set_parent (Some n) P7) (set_parent (Some n) P8));
      unfold s1; state_simpl; try done.
    - by apply NoDup_splice_insert.
    - rewrite Hbefore by lia. done.
    - rewrite Hafter by lia. done.
    - by rewrite Eh20, Eh10.
    - by rewrite Eh13.
    - rewrite (getDistance_xy (set_parent (Some n) P8) P8 qn N),
        (getDistance_xy (set_parent (Some n) P7) P7 qn N) by done.
      exact Hk. }
  cbv zeta in Hrun2.
  rewrite (getDistance_xy (set_parent (Some n) P8) P8 qn N),
    (getDistance_xy (set_parent (Some n) P7) P7 qn N) in Hrun2 by done.
  fold k in Hrun2.
  rewrite (fusion_P_xy k p0' p0 _ P4), (fusion_Q_xy k _ P6 p3' p3) in Hrun2
    by done.
  fold P Q in Hrun2.
  unfold s1 in Hrun2.
  cbn [store Point_count constructionPoints currentMovingPoint isMouseDown
       ctrlKeyIsDown mouseReleaseAfterConstructionPointCreation options]
    in Hrun2.
  rewrite delete_splice_insert in Hrun2 by lia.
  set (s2pre := mkCanvas (alter _ _ _) _ _ _ _ _ _ _) in Hrun2.
  destruct (keepOneHandlerAtEnds_segment s2pre i K0 K1 P1 P2 p0'
              (set_y (y P) (set_x (x P) (set_y (y P4) (set_x (x P4) p1'))))
              (set_y (y Q) (set_x (x Q) (set_y (y P6) (set_x (x P6) p2'))))
              p3')
    as (s2 & c1 & Hrun3 & Hcps & Hseg & Hc1);
    unfold s2pre; state_simpl; try done.
  - (* ids in use stay below [Point.count] *)
    intros r. state_simpl.
    rewrite !lookup_alter_is_Some. unfold σ1.
    rewrite inserted_store_is_Some, (same_geometry_is_Some _ _ _ Hgeo).
    unfold σa. rewrite lookup_alter_is_Some, lookup_insert_is_Some'.
    intros [->|[->|[<-|Hr]]]; [lia..|]. apply Hb in Hr. fold n in Hr. lia.
  - (* the knots and their second handles are still there *)
    unfold knots_exist. state_simpl. intros kn Hkn.
    destruct (Hex kn Hkn) as (p & Hp & Hh).
    pose proof (Hlt _ _ Hp).
    match goal with
    | |- ex (fun _ => ?m !! kn = _ /\ _) =>
        assert (handler2 <$> m !! kn = handler2 <$> store s !! kn) as Ev
    end.
    { repeat view_step. unfold σ1, inserted_store. repeat view_step.
      rewrite (view_same_geometry handler2 σa σ kn); [|clear|exact Hgeo].
      - unfold σa. repeat view_step. reflexivity.
      - intros f Hf q. by apply handlers_construction, Hf. }
    rewrite Hp in Ev.
    match goal with
    | |- ex (fun _ => ?m !! kn = _ /\ _) =>
        destruct (m !! kn) as [p''|] eqn:Hp''; [|done]
    end.
    exists p''. split; [done|]. intros h Hh2.
    injection Ev as Ev. rewrite Ev in Hh2. apply Hh in Hh2.
    rewrite !lookup_alter_is_Some. unfold σ1.
    rewrite inserted_store_is_Some, (same_geometry_is_Some _ _ _ Hgeo).
    unfold σa. rewrite lookup_alter_is_Some, lookup_insert_is_Some'. auto.
  - lk. done.
  - by rewrite Eh20, Eh10.
  - lk. by rewrite H1P1.
  - lk. done.
  - by rewrite Eh13.
  - lk. by rewrite H1P2.
  - exists s1, s2, c1. split; [exact Hrun1|]. split; [exact (eq_trans Hrun2 Hrun3)|].
    split; [exact Hcps|]. split; [|exact Hc1].
    rewrite Exy0, Exy3 in Hseg. exact Hseg.
Qed.

End Runs.

Section ExactFusion.
Local Open Scope R_scope.

Lemma sqrt_scaled (c u v : R) :
  0 <= c -> sqrt ((c * u) * (c * u) + (c * v) * (c * v)) = c * sqrt (u * u + v * v).
Proof.
  intros Hc.
  replace ((c * u) * (c * u) + (c * v) * (c * v)) with ((c * c) * (u * u + v * v))
    by ring.
  rewrite sqrt_mult_alt by (apply Rle_0_sqr). by rewrite sqrt_square.
Qed.

Lemma sum_squares_pos (u v : R) : u <> 0 \/ v <> 0 -> 0 < u * u + v * v.
Proof.
  intros Huv.
  pose proof (Rle_0_sqr u) as Hu. pose proof (Rle_0_sqr v) as Hv.
  unfold Rsqr in *.
  destruct Huv as [Hne|Hne]; apply Rsqr_pos_lt in Hne; unfold Rsqr in Hne; lra.
Qed.

(** The ratio of the removal on the handles an insertion at [τ] makes. *)
Lemma fusion_ratio (τ x7 y7 x8 y8 : R) :
  0 < τ < 1 -> x7 <> x8 \/ y7 <> y8 ->
  let x9 := x7 * (1 - τ) + x8 * τ in
  let y9 := y7 * (1 - τ) + y8 * τ in
  let d2 := sqrt ((x8 - x9) * (x8 - x9) + (y8 - y9) * (y8 - y9)) in
  let d1 := sqrt ((x7 - x9) * (x7 - x9) + (y7 - y9) * (y7 - y9)) in
  d1 <> 0 /\ d2 / d1 = (1 - τ) / τ.
Proof.
  intros Hτ Hne x9 y9 d2 d1.
  set (D := sqrt ((x7 - x8) * (x7 - x8) + (y7 - y8) * (y7 - y8))).
  assert (0 < D) as HD.
  { apply sqrt_lt_R0, sum_squares_pos. destruct Hne; [left|right]; lra. }
  assert (d1 = τ * D) as ->.
  { unfold d1, x9, y9, D. rewrite <- sqrt_scaled by lra. f_equal. ring. }
  assert (d2 = (1 - τ) * D) as ->.
  { unfold d2, x9, y9, D. rewrite <- sqrt_scaled by lra. f_equal. ring. }
  split; [nra|]. field. lra.
Qed.

Lemma fusion_P_exact (τ a0 a1 : R) :
  0 < τ < 1 ->
  (1 + (1 - τ) / τ) * (a0 * (1 - τ) + a1 * τ) - (1 - τ) / τ * a0 = a1.
Proof. intros Hτ. field. lra. Qed.

Lemma fusion_Q_exact (τ a2 a3 : R) :
  0 < τ < 1 ->
  ((1 + (1 - τ) / τ) * (a2 * (1 - τ) + a3 * τ) - a3) / ((1 - τ) / τ) = a2.
Proof. intros Hτ. field. lra. Qed.

Lemma weighted_XR (p q : Point xreal) (a b c d τ : R) :
  x p = XR a -> y p = XR b -> x q = XR c -> y q = XR d ->
  unrounded p q (XR τ) ->
  let vx := a * (1 - τ) + c * τ in
  let vy := b * (1 - τ) + d * τ in
  x (weighted p q (XR τ)) = XR vx /\ y (weighted p q (XR τ)) = XR vy
  /\ Math_round (XR vx) = XR vx /\ Math_round (XR vy) = XR vy.
Proof.
  intros Ea Eb Ec Ed Hu vx vy. unfold unrounded, xy, interpolated, weighted in *.
  simpl in *. rewrite Ea, Eb, Ec, Ed in *. simpl in *.
  injection Hu as Hx Hy. subst vx vy. by rewrite Hx, Hy.
Qed.

Lemma getDistance_XR (p q : Point xreal) (a b c d : R) :
  x p = XR a -> y p = XR b -> x q = XR c -> y q = XR d ->
  getDistance p q = XR (sqrt ((a - c) * (a - c) + (b - d) * (b - d))).
Proof.
  intros Ea Eb Ec Ed. unfold getDistance. rewrite Ea, Eb, Ec, Ed.
  change (Math_sqrt (XR ((a - c) * (a - c) + (b - d) * (b - d))) = XR (sqrt ((a - c) * (a - c) + (b - d) * (b - d)))).
  apply sqrt_XR.
  pose proof (Rle_0_sqr (a - c)). pose proof (Rle_0_sqr (b - d)).
  unfold Rsqr in *. lra.
Qed.

(** In exact arithmetic, on handles the rounding left alone, the removal
    undoes the insertion. *)
Lemma fusion_exact (p0 p1 p2 p3 : Point xreal) (τ : R) :
  real_point p0 -> real_point p1 -> real_point p2 -> real_point p3 ->
  on_grid p1 -> on_grid p2 -> 0 < τ < 1 ->
  let t := XR τ in
  let P4 := weighted p0 p1 t in
  let P5 := weighted p1 p2 t in
  let P6 := weighted p2 p3 t in
  let P7 := weighted P4 P5 t in
  let P8 := weighted P5 P6 t in
  let P9 := weighted P7 P8 t in
  unrounded p0 p1 t -> unrounded p1 p2 t -> unrounded p2 p3 t ->
  unrounded P4 P5 t -> unrounded P5 P6 t -> unrounded P7 P8 t ->
  xy P7 <> xy P8 ->
  let N := new_ConstructionPoint (x P9) (y P9) in
  let k := (getDistance P8 N / getDistance P7 N)%js in
  isNaN k = false
  /\ xy (fusion_P k p0 P4) = xy p1
  /\ xy (fusion_Q k P6 p3) = xy p2.
Proof.
  intros [H0x H0y] [H1x H1y] [H2x H2y] [H3x H3y] [G1x G1y] [G2x G2y] Hτ
    t P4 P5 P6 P7 P8 P9 U01 U12 U23 U45 U56 U78 Hne N k.
  destruct (finite_XR _ H0x) as [a0 Ea0], (finite_XR _ H0y) as [b0 Eb0],
    (finite_XR _ H1x) as [a1 Ea1], (finite_XR _ H1y) as [b1 Eb1],
    (finite_XR _ H2x) as [a2 Ea2], (finite_XR _ H2y) as [b2 Eb2],
    (finite_XR _ H3x) as [a3 Ea3], (finite_XR _ H3y) as [b3 Eb3].
  destruct (weighted_XR p0 p1 _ _ _ _ τ Ea0 Eb0 Ea1 Eb1 U01) as (E4x & E4y & _).
  destruct (weighted_XR p1 p2 _ _ _ _ τ Ea1 Eb1 Ea2 Eb2 U12) as (E5x & E5y & _).
  destruct (weighted_XR p2 p3 _ _ _ _ τ Ea2 Eb2 Ea3 Eb3 U23) as (E6x & E6y & _).
  fold t P4 P5 P6 in E4x, E4y, E5x, E5y, E6x, E6y.
  destruct (weighted_XR P4 P5 _ _ _ _ τ E4x E4y E5x E5y U45) as (E7x & E7y & _).
  destruct (weighted_XR P5 P6 _ _ _ _ τ E5x E5y E6x E6y U56) as (E8x & E8y & _).
  fold t P7 P8 in E7x, E7y, E8x, E8y.
  destruct (weighted_XR P7 P8 _ _ _ _ τ E7x E7y E8x E8y U78)
    as (E9x & E9y & R9x & R9y).
  fold t P9 in E9x, E9y.
  set (x4 := a0 * (1 - τ) + a1 * τ) in *. set (y4 := b0 * (1 - τ) + b1 * τ) in *.
  set (x5 := a1 * (1 - τ) + a2 * τ) in *. set (y5 := b1 * (1 - τ) + b2 * τ) in *.
  set (x6 := a2 * (1 - τ) + a3 * τ) in *. set (y6 := b2 * (1 - τ) + b3 * τ) in *.
  set (x7 := x4 * (1 - τ) + x5 * τ) in *. set (y7 := y4 * (1 - τ) + y5 * τ) in *.
  set (x8 := x5 * (1 - τ) + x6 * τ) in *. set (y8 := y5 * (1 - τ) + y6 * τ) in *.
  set (x9 := x7 * (1 - τ) + x8 * τ) in *. set (y9 := y7 * (1 - τ) + y8 * τ) in *.
  assert (x N = XR x9) as ENx.
  { change (Math_round (x P9) = XR x9). by rewrite E9x. }
  assert (y N = XR y9) as ENy.
  { change (Math_round (y P9) = XR y9). by rewrite E9y. }
  assert (x7 <> x8 \/ y7 <> y8) as Hne'.
  { destruct (Req_dec_T x7 x8) as [Ex|]; [|by left].
    destruct (Req_dec_T y7 y8) as [Ey|]; [|by right].
    exfalso. apply Hne. unfold xy. by rewrite E7x, E7y, E8x, E8y, Ex, Ey. }
  destruct (fusion_ratio τ x7 y7 x8 y8 Hτ Hne') as (Hd1 & Hratio).
  fold x9 y9 in Hd1, Hratio.
  assert (k = XR ((1 - τ) / τ)) as Ek.
  { unfold k.
    rewrite (getDistance_XR P8 N _ _ _ _ E8x E8y ENx ENy),
      (getDistance_XR P7 N _ _ _ _ E7x E7y ENx ENy).
    rewrite div_XR by done. by rewrite Hratio. }
  rewrite Ek. split; [done|].
  unfold xy, fusion_P, fusion_Q, new_Point. cbn [x y].
  rewrite E4x, E4y, E6x, E6y, Ea0, Eb0, Ea3, Eb3, Ea1, Eb1, Ea2, Eb2.
  rewrite Ea1 in G1x. rewrite Eb1 in G1y. rewrite Ea2 in G2x. rewrite Eb2 in G2y.
  set (κ := (1 - τ) / τ).
  assert (κ <> 0) as Hκ.
  { unfold κ. apply Rmult_integral_contrapositive_currified; [lra|].
    apply Rinv_neq_0_compat. lra. }
  assert (forall u v, ((1 + XR κ) * XR u - XR κ * XR v)%js
                      = XR ((1 + κ) * u - κ * v)) as EP by reflexivity.
  assert (forall u v, (((1 + XR κ) * XR u - XR v) / XR κ)%js
                      = XR (((1 + κ) * u - v) / κ)) as EQ.
  { intros u v. change ((1 + XR κ) * XR u - XR v)%js with (XR ((1 + κ) * u - v)).
    by apply div_XR. }
  rewrite !EP, !EQ. unfold x4, y4, x6, y6, κ.
  rewrite !fusion_P_exact, !fusion_Q_exact by done.
  by rewrite G1x, G1y, G2x, G2y.
Qed.


Lemma round_IZR (z : Z) : Math_round (XR (IZR z)) = XR (IZR z).
Proof.
  simpl. do 2 f_equal. apply Zfloor_eq. lra.
Qed.

(** An interpolation that lands on integers is not moved by the rounding. *)
Lemma weighted_on_grid (p q : Point xreal) (a b c d τ : R) (zx zy : Z) :
  x p = XR a -> y p = XR b -> x q = XR c -> y q = XR d ->
  a * (1 - τ) + c * τ = IZR zx -> b * (1 - τ) + d * τ = IZR zy ->
  unrounded p q (XR τ)
  /\ x (weighted p q (XR τ)) = XR (IZR zx)
  /\ y (weighted p q (XR τ)) = XR (IZR zy).
Proof.
  intros Ea Eb Ec Ed Hx Hy.
  assert (x (weighted p q (XR τ)) = XR (IZR zx)) as Ex.
  { unfold weighted, new_Point. cbn [x]. rewrite Ea, Ec.
    change (Math_round (XR (a * (1 - τ) + c * τ)) = XR (IZR zx)).
    rewrite Hx. apply round_IZR. }
  assert (y (weighted p q (XR τ)) = XR (IZR zy)) as Ey.
  { unfold weighted, new_Point. cbn [y]. rewrite Eb, Ed.
    change (Math_round (XR (b * (1 - τ) + d * τ)) = XR (IZR zy)).
    rewrite Hy. apply round_IZR. }
  repeat split; [|done..].
  unfold unrounded, xy, interpolated. rewrite Ex, Ey, Ea, Eb, Ec, Ed.
  change (XR (IZR zx), XR (IZR zy))
    with (XR (IZR zx), XR (IZR zy)).
  f_equal; simpl; by f_equal.
Qed.

(** C2, as amended, in exact arithmetic: on a well-formed spline, for a
    segment whose knots and handles are four objects, with the handles on
    integer coordinates, a knot inserted at [0 < t < 1] whose De Casteljau
    points the rounding of the [Point] constructor does not move and whose
    two handles are apart is inserted and removed without an exception, and
    the removal gives the spline its knots and the segment its four control
    points back. *)
Theorem insertion_then_removal_exact (s : BezierCanvas xreal) (i : nat)
    (K0 K1 P1 P2 : ref) (p0 p1 p2 p3 : Point xreal) (τ : R) :
  well_formed s ->
  constructionPoints s !! i = Some K0 -> constructionPoints s !! S i = Some K1 ->
  store s !! K0 = Some p0 -> store s !! K1 = Some p3 ->
  match handler2 p0 with Some h => Some h | None => handler1 p0 end = Some P1 ->
  handler1 p3 = Some P2 ->
  store s !! P1 = Some p1 -> store s !! P2 = Some p2 ->
  NoDup [K0; P1; P2; K1] ->
  real_point p0 -> real_point p1 -> real_point p2 -> real_point p3 ->
  on_grid p1 -> on_grid p2 -> 0 < τ < 1 ->
  let t := XR τ in
  let P4 := weighted p0 p1 t in
  let P5 := weighted p1 p2 t in
  let P6 := weighted p2 p3 t in
  let P7 := weighted P4 P5 t in
  let P8 := weighted P5 P6 t in
  unrounded p0 p1 t -> unrounded p1 p2 t -> unrounded p2 p3 t ->
  unrounded P4 P5 t -> unrounded P5 P6 t -> unrounded P7 P8 t ->
  xy P7 <> xy P8 ->
  exists s1 s2,
    knotInsertion t (Some K0) (Some P1) (Some P2) (Some K1) s = (Some tt, s1)
    /\ removeConstructionPoint (Point_count s) s1 = (Some tt, s2)
    /\ constructionPoints s2 = constructionPoints s
    /\ segment_points s i = Some [xy p0; xy p1; xy p2; xy p3]
    /\ segment_points s2 i = segment_points s i.
Proof.
  intros (Hnd & Hb & Hres & Hex) Hi HSi HK0 HK1 HP1 HP2 Hp1 Hp2 Hd
    R0 R1 R2 R3 G1 G2 Hτ t P4 P5 P6 P7 P8 U01 U12 U23 U45 U56 U78 Hne.
  subst t P4 P5 P6 P7 P8.
  destruct (fusion_exact p0 p1 p2 p3 τ R0 R1 R2 R3 G1 G2 Hτ
              U01 U12 U23 U45 U56 U78 Hne) as (Hk & EP & EQ).
  destruct (insertion_then_removal_run s i K0 K1 P1 P2 p0 p1 p2 p3 (XR τ)
              Hnd Hb Hres Hex Hi HSi HK0 HK1 HP1 HP2 Hp1 Hp2 Hd Hk)
    as (s1 & s2 & c1 & Hrun1 & Hrun2 & Hcps & Hseg & Hc1).
  cbv zeta in Hseg, Hc1, EP, EQ.
  assert (segment_points s i = Some [xy p0; xy p1; xy p2; xy p3]) as Hseg0
    by (by eapply segment_points_intro).
  exists s1, s2. repeat split; [done..|].
  rewrite Hseg0, Hseg, EQ.
  assert (c1 = xy p1) as ->; [|done].
  destruct Hc1 as [->| ->]; [exact EP|].
  pose proof (f_equal fst EP) as EPx. pose proof (f_equal snd EP) as EPy.
  unfold xy in EPx, EPy. cbn [fst snd] in EPx, EPy.
  destruct G1 as [G1x G1y]. unfold xy. by rewrite EPx, EPy, G1x, G1y.
Qed.

End ExactFusion.

Lemma well_formed_arch : well_formed arch.
Proof.
  repeat split.
  - by apply (bool_decide_unpack _).
  - intros r. unfold arch. simpl.
    rewrite !lookup_insert_is_Some', lookup_empty.
    intros [<-|[<-|[<-|[<-|[? ?]]]]]; [lia..|done].
  - intros k Hk. unfold arch in *. simpl in Hk.
    rewrite !elem_of_cons in Hk. destruct Hk as [->|[->|Hk]].
    + by eexists _, _.
    + by eexists _, _.
    + by apply elem_of_nil in Hk.
  - intros k Hk. unfold arch in *. simpl in Hk.
    rewrite !elem_of_cons in Hk. destruct Hk as [->|[->|Hk]].
    + eexists. split; [reflexivity|]. done.
    + eexists. split; [reflexivity|]. done.
    + by apply elem_of_nil in Hk.
Qed.

Lemma insertion_then_removal_exact_witness :
  exists s1 s2,
    knotInsertion (XR (/ 2)) (Some 0%nat) (Some 1%nat) (Some 3%nat) (Some 2%nat) arch
    = (Some tt, s1)
    /\ removeConstructionPoint (Point_count arch) s1 = (Some tt, s2)
    /\ constructionPoints s2 = constructionPoints arch
    /\ segment_points arch 0
       = Some [(XR 0, XR 0); (XR 0, XR 8); (XR 8, XR 8); (XR 8, XR 0)]
    /\ segment_points s2 0 = segment_points arch 0.
Proof.
  set (p0 := mkPoint (XR 0) (XR 0) false None
               (Some (mkConstruction (Some 1%nat) None false))).
  set (p1 := mkPoint (XR 0) (XR 8) false (Some 0%nat) None).
  set (p2 := mkPoint (XR 8) (XR 8) false (Some 2%nat) None).
  set (p3 := mkPoint (XR 8) (XR 0) false None
               (Some (mkConstruction (Some 3%nat) None false))).
  destruct (weighted_on_grid p0 p1 0 0 0 8 (/ 2) 0 4)
    as (U01 & E4x & E4y); [reflexivity..|lra|lra|].
  destruct (weighted_on_grid p1 p2 0 8 8 8 (/ 2) 4 8)
    as (U12 & E5x & E5y); [reflexivity..|lra|lra|].
  destruct (weighted_on_grid p2 p3 8 8 8 0 (/ 2) 8 4)
    as (U23 & E6x & E6y); [reflexivity..|lra|lra|].
  destruct (weighted_on_grid _ _ _ _ _ _ (/ 2) 2 6 E4x E4y E5x E5y)
    as (U45 & E7x & E7y); [lra|lra|].
  destruct (weighted_on_grid _ _ _ _ _ _ (/ 2) 6 6 E5x E5y E6x E6y)
    as (U56 & E8x & E8y); [lra|lra|].
  destruct (weighted_on_grid _ _ _ _ _ _ (/ 2) 4 6 E7x E7y E8x E8y)
    as (U78 & _ & _); [lra|lra|].
  apply (insertion_then_removal_exact arch 0 0%nat 2%nat 1%nat 3%nat p0 p1 p2 p3
           (/ 2)); try done.
  - exact well_formed_arch.
  - by apply (bool_decide_unpack _).
  - split; apply round_IZR.
  - split; apply round_IZR.
  - lra.
  - unfold xy. rewrite E7x, E7y, E8x, E8y. intros [= Hx]. lra.
Defined.

(** ** The editor on binary64 numbers: runs of the code *)

(** An export record with integer coordinates. *)
Definition record (vx vy h1x h1y : Z) (h2 : option (Z * Z)) : PointRecord float :=
  mkRecord (of_Z vx) (of_Z vy) (of_Z h1x, of_Z h1y)
           ((fun q => (of_Z (fst q), of_Z (snd q))) <$> h2).

(** The editor as constructed, with the default options. *)
Definition new_editor : BezierCanvas float := initial defaultOptions.

(** The default options but for [constraintTangents: false]. *)
Definition free_tangents : Options float :=
  mkOptions 50 true (of_Z 10) (of_Z 1 / of_Z 2)%js false.

(** Two clicks on the pixel (0, 0): two knots on one spot. *)
Definition two_knots_on_a_spot : BezierCanvas float :=
  run [MouseDownLeft (of_Z 0) (of_Z 0); MouseUp;
       MouseDownLeft (of_Z 0) (of_Z 0); MouseUp] new_editor.

(** A segment from (0,0) to (100,0) with the handles (10,0) and (50,0). *)
Definition long_segment : BezierCanvas float :=
  run [SetPoints [record 0 0 0 0 (Some (10, 0)%Z); record 100 0 50 0 None]]
      new_editor.

(** A click on that segment at (35,0): a knot is inserted at [t = 0.5]. *)
Definition long_segment_split : BezierCanvas float :=
  run [MouseDownLeft (of_Z 35) (of_Z 0); MouseUp] long_segment.

(** A segment from (0,0) to (90,0) with the handles (30,0) and (60,0). *)
Definition even_segment : list (@Event float) :=
  [SetPoints [record 0 0 0 0 (Some (30, 0)%Z); record 90 0 60 0 None]].

(** A click on the first knot of that segment: a knot is inserted at
    [t = 0], on the first knot, its first handle on itself. *)
Definition split_at_start : BezierCanvas float :=
  run (even_segment ++ [MouseDownLeft (of_Z 0) (of_Z 0); MouseUp]) new_editor.

(** With free tangents: a knot is inserted in the middle of that segment and
    its second handle is dragged onto it. *)
Definition split_and_collapsed : BezierCanvas float :=
  run (even_segment ++
       [MouseDownLeft (of_Z 45) (of_Z 0); MouseUp; KeyDown true;
        MouseDownLeft (of_Z 60) (of_Z 0); MouseMove (of_Z 45) (of_Z 0);
        MouseUp; KeyUp])
      (initial free_tangents).

(** Two knots, at (0,0) and at (1,0). *)
Definition near_knots : BezierCanvas float :=
  run [SetPoints [record 0 0 0 0 None; record 1 0 1 0 None]] new_editor.

(** A knot drawn at (0,0) with its handles pulled to (-1,0) and (1,0), the
    first handle picked up again with Ctrl. *)
Definition handle_picked : BezierCanvas float :=
  run [MouseDownLeft (of_Z 0) (of_Z 0); MouseMove (of_Z 1) (of_Z 0); MouseUp;
       KeyDown true; MouseDownLeft (of_Z (-1)) (of_Z 0)] new_editor.

(** That handle dragged to (3,4). *)
Definition handle_dragged : BezierCanvas float :=
  run [MouseMove (of_Z 3) (of_Z 4)] handle_picked.

(** A knot clicked at (0,0) and released, a handle of it picked up with
    Ctrl at (0,0). *)
Definition collapsed_handle_picked : BezierCanvas float :=
  run [MouseDownLeft (of_Z 0) (of_Z 0); MouseUp; KeyDown true;
       MouseDownLeft (of_Z 0) (of_Z 0)] new_editor.

(** The short segment (0,0), (0,0), (1,0), (1,0), sampled as the editor
    does. *)
Definition short_sampler : BezierUtils.t float :=
  let p := fun vx vy : Z => new_Point (of_Z vx) (of_Z vy) in
  BezierUtils.new (p 0 0)%Z (p 0 0)%Z (p 1 0)%Z (p 1 0)%Z 200.

(** C1, on the code: with two knots on one spot the total length is 0, every
    share is NaN and no point is returned, where the claim says 3.  The test
    [index === bz.length - 1] that should hand the rest to the final segment
    reads the unassigned field [length] of the sampler. *)
Theorem getRegularlyPlacedPoints_zero_length :
  fst (getPoints two_knots_on_a_spot)
  = Some [record 0 0 0 0 (Some (0, 0)%Z); record 0 0 0 0 (Some (0, 0)%Z)]
  /\ fst (getRegularlyPlacedPoints (of_Z 3) two_knots_on_a_spot) = Some (Some []).
Proof. split; vm_compute; reflexivity. Qed.

(** C2, as stated, fails: the knot inserted at [t = 0.5] on the segment
    (0,0), (10,0), (50,0), (100,0) has the handles (18,0) and (53,0), so
    [k = 17/18]; removing it puts the second handle at (49,0), not (50,0). *)
Lemma insertion_removal_moves_handle :
  fst (getPoints long_segment)
  = Some [record 0 0 0 0 (Some (10, 0)%Z); record 100 0 50 0 None]
  /\ fst (getPoints long_segment_split)
     = Some [record 0 0 0 0 (Some (5, 0)%Z); record 36 0 18 0 (Some (53, 0)%Z);
             record 100 0 75 0 None]
  /\ fst (getPoints (run [ContextMenu (of_Z 36) (of_Z 0)] long_segment_split))
     = Some [record 0 0 0 0 (Some (10, 0)%Z); record 100 0 49 0 None].
Proof. repeat split; vm_compute; reflexivity. Qed.

(** C3, on the code: a removal with a degenerate ratio rewrites the adjacent
    handles.  First [k = 30/0] (the knot inserted at [t = 0]): both become
    NaN.  Then [k = 0/15] (second handle dragged onto the knot): the next
    knot's handle becomes (-Infinity, NaN). *)
Theorem removal_with_degenerate_ratio :
  (fst (getPoints split_at_start)
   = Some [record 0 0 0 0 (Some (0, 0)%Z); record 0 0 0 0 (Some (30, 0)%Z);
           record 90 0 60 0 None]
   /\ fst (getPoints (run [ContextMenu (of_Z 0) (of_Z 0)] split_at_start))
      = Some [mkRecord (of_Z 0) (of_Z 0) (of_Z 0, of_Z 0) (Some (nan, nan));
              mkRecord (of_Z 90) (of_Z 0) (nan, nan) None])
  /\ (fst (getPoints split_and_collapsed)
      = Some [record 0 0 0 0 (Some (15, 0)%Z); record 45 0 30 0 (Some (45, 0)%Z);
              record 90 0 75 0 None]
      /\ fst (getPoints (run [ContextMenu (of_Z 45) (of_Z 0)] split_and_collapsed))
         = Some [record 0 0 0 0 (Some (15, 0)%Z);
                 mkRecord (of_Z 90) (of_Z 0) (neg_infinity, nan) None]).
Proof. repeat split; vm_compute; reflexivity. Qed.

(** C4, on the code: both knots are within the threshold 10 of (0,0); the
    hit test returns the second one (id 2), the last in insertion order. *)
Theorem findClosestConstructionPoint_returns_last :
  constructionPoints near_knots = [0; 2]%nat
  /\ fst (findClosestConstructionPoint (of_Z 0) (of_Z 0) near_knots)
     = Some (Some 2%nat).
Proof. split; vm_compute; reflexivity. Qed.

(** C5, as stated, fails: on the short segment the table is flat from its
    middle on, and [map(1)] is 0.5. *)
Lemma map_one_is_half :
  BezierUtils.map short_sampler (of_Z 1) = (of_Z 1 / of_Z 2)%js.
Proof. vm_compute. reflexivity. Qed.

(** C8, on the code: after the drag of the first handle to (3,4) with the
    tangents constrained, the opposite handle is at (-0.6000000000000001,
    -0.8): the mirrored coordinates are written without rounding. *)
Theorem mirrored_handle_not_integer :
  fst (getPoints handle_picked)
  = Some [record 0 0 (-1) 0 (Some (1, 0)%Z)]
  /\ fst (getPoints handle_dragged)
     = Some [mkRecord (of_Z 0) (of_Z 0) (of_Z 3, of_Z 4)
               (Some ((-0x1.3333333333334p-1)%float,
                      (-0x1.999999999999ap-1)%float))]
  /\ Number_isInteger (-0x1.3333333333334p-1)%float = false
  /\ Number_isInteger (-0x1.999999999999ap-1)%float = false.
Proof. repeat split; vm_compute; reflexivity. Qed.

(** C6, on the code: the export of that state, imported and exported again,
    has the second handle at (-1,-1). *)
Theorem export_import_export_differs :
  let exported := default [] (fst (getPoints handle_dragged)) in
  let again := fst (getPoints (snd (setPoints exported handle_dragged))) in
  again = Some [record 0 0 3 4 (Some (-1, -1)%Z)]
  /\ again <> Some exported.
Proof. split; vm_compute; [reflexivity | discriminate]. Qed.

(** C7, on the code: both handles are on the knot (prior distance 0); a
    move event at the knot's position makes the opposite handle NaN. *)
Theorem mirroring_with_zero_distances :
  fst (getPoints collapsed_handle_picked)
  = Some [record 0 0 0 0 (Some (0, 0)%Z)]
  /\ fst (getPoints (run [MouseMove (of_Z 0) (of_Z 0)] collapsed_handle_picked))
     = Some [mkRecord (of_Z 0) (of_Z 0) (nan, nan) (Some (of_Z 0, of_Z 0))].
Proof. split; vm_compute; reflexivity. Qed.


(** * Further properties of the code

    ** The history manager under any sequence of calls *)

Section HistoryMore.
Context {State Hash : Type} `{EqDecision Hash}.
Import HistoryManagerAbstract.
Local Abbreviation manager := (HistoryManagerAbstract.t State Hash).
Local Abbreviation Op := (Op State Hash).

Lemma length_slice_to (e : Z) (l : list State) :
  (length (slice_to e l) <= length l)%nat.
Proof. unfold slice_to. destruct (e <? 0)%Z; rewrite length_take; lia. Qed.

Lemma pushHistoryState_cursor (state : option State) (cur : State) (m : manager) :
  let m' := pushHistoryState state cur m in
  statesStack m' <> []
  /\ statesCursor m' = (Z.of_nat (length (statesStack m')) - 1)%Z
  /\ historySize m' = historySize m
  /\ lastHistoryStateHash m' = lastHistoryStateHash m.
Proof.
  unfold pushHistoryState. simpl.
  destruct (_ =? _)%Z; simpl; (split; [by destruct (_ ++ _) eqn:E; [apply app_eq_nil in E as [_ ?]|]|done]).
Qed.

Lemma pushHistoryState_cursor_ok (state : option State) (cur : State)
    (m : manager) : cursor_ok (pushHistoryState state cur m).
Proof.
  destruct (pushHistoryState_cursor state cur m) as (Hne & Hc & _).
  right. rewrite Hc. destruct (statesStack _); [done|]. simpl. lia.
Qed.

Lemma safeStatesCursor_ok (c : Z) (m : manager) :
  statesStack m <> [] -> cursor_ok (safeStatesCursor c m).
Proof.
  intros Hne. right. unfold safeStatesCursor. simpl.
  destruct (statesStack m); [done|]. simpl. lia.
Qed.

Lemma operate1_cursor_ok (m : manager) (o : Op) :
  cursor_ok m -> cursor_ok (operate1 m o).
Proof.
  intros Hm. destruct o as [state cur|cur hash| | |]; simpl.
  - apply pushHistoryState_cursor_ok.
  - unfold pushHistoryStateIfChanged. case_bool_decide; [|done].
    apply pushHistoryState_cursor_ok.
  - unfold statesBackward. case_bool_decide; [done|]. by apply safeStatesCursor_ok.
  - unfold statesForward. case_bool_decide; [done|]. by apply safeStatesCursor_ok.
  - by left.
Qed.

(** X1: whatever is called on a new history, the cursor stays an index of the
    stack (0 on the empty stack). *)
Theorem statesCursor_in_range (h : Z) (ops : list Op) :
  cursor_ok (operate ops (new h)).
Proof.
  unfold operate. rewrite <- (rev_involutive ops).
  induction (rev ops) as [|o l IH]; simpl.
  - by left.
  - rewrite foldl_snoc. by apply operate1_cursor_ok.
Qed.

Lemma pushHistoryState_capacity (state : option State) (cur : State)
    (m : manager) :
  (1 <= historySize m)%Z ->
  (Z.of_nat (length (statesStack m)) <= historySize m)%Z ->
  historySize (pushHistoryState state cur m) = historySize m
  /\ (Z.of_nat (length (statesStack (pushHistoryState state cur m)))
      <= historySize m)%Z.
Proof.
  intros Hh Hm. unfold pushHistoryState. simpl.
  pose proof (length_slice_to (statesCursor m + 1) (statesStack m)) as Hs.
  destruct (_ =? _)%Z eqn:E; [apply Z.eqb_eq in E|apply Z.eqb_neq in E]; simpl;
    rewrite length_app; simpl; (split; [done|]).
  - destruct (slice_to _ _); simpl in *; lia.
  - lia.
Qed.

Lemma operate1_capacity (m : manager) (o : Op) :
  (1 <= historySize m)%Z ->
  (Z.of_nat (length (statesStack m)) <= historySize m)%Z ->
  historySize (operate1 m o) = historySize m
  /\ (Z.of_nat (length (statesStack (operate1 m o))) <= historySize m)%Z.
Proof.
  intros Hh Hm. destruct o as [state cur|cur hash| | |]; simpl.
  - by apply pushHistoryState_capacity.
  - unfold pushHistoryStateIfChanged. case_bool_decide; [|done].
    by apply (pushHistoryState_capacity (Some cur) cur
                (mk (statesCursor m) (statesStack m) (Some hash) (historySize m))).
  - unfold statesBackward. by case_bool_decide.
  - unfold statesForward. by case_bool_decide.
  - split; [done|]. simpl. lia.
Qed.

(** X2: with a capacity of at least 1, whatever is called on a new history
    (pushes, undos, redos, resets in any order), the stack never holds more
    than [historySize] states. *)
Theorem statesStack_within_capacity (h : Z) (ops : list Op) :
  (1 <= h)%Z ->
  (Z.of_nat (length (statesStack (operate ops (new h)))) <= h)%Z.
Proof.
  intros Hh.
  enough (historySize (operate ops (new h)) = h
          /\ (Z.of_nat (length (statesStack (operate ops (new h)))) <= h)%Z)
    as [_ ?] by done.
  unfold operate. rewrite <- (rev_involutive ops).
  induction (rev ops) as [|o l IH]; simpl.
  - split; [done|lia].
  - rewrite foldl_snoc. destruct IH as [IH1 IH2].
    destruct (operate1_capacity (foldl operate1 (new h) (rev l)) o) as [H1 H2];
      [lia..|].
    split; lia.
Qed.





(** X6: [pushHistoryStateIfChanged] is idempotent: called again with the same
    state and hash it changes nothing. *)
Theorem pushHistoryStateIfChanged_idempotent (cur : State) (hash : Hash)
    (m : manager) :
  pushHistoryStateIfChanged cur hash (pushHistoryStateIfChanged cur hash m)
  = pushHistoryStateIfChanged cur hash m.
Proof.
  assert (lastHistoryStateHash (pushHistoryStateIfChanged cur hash m) = Some hash)
    as Hlast.
  { unfold pushHistoryStateIfChanged. case_bool_decide as Hd.
    - by rewrite (proj2 (proj2 (proj2 (pushHistoryState_cursor _ _ _)))).
    - destruct (decide (Some hash = lastHistoryStateHash m)); [done|].
      by destruct Hd. }
  unfold pushHistoryStateIfChanged at 1.
  rewrite bool_decide_eq_false_2; [done|]. rewrite Hlast. auto.
Qed.

End HistoryMore.

Lemma statesStack_within_capacity_witness :
  (Z.of_nat (length (HistoryManagerAbstract.statesStack
                       (operate (Hash := nat)
                          [Push (Some 1%nat) 0%nat; Push (Some 2%nat) 0%nat;
                           Backward; Push None 7%nat; Push (Some 3%nat) 0%nat]
                          (HistoryManagerAbstract.new 2)))) <= 2)%Z.
Proof.
  apply (statesStack_within_capacity (Hash := nat) 2); lia.
Defined.




(** ** The line caps *)

(** X14: [LineCap.parse] returns one of the three caps: the value itself when
    it is one of them, ["round"] otherwise; parsing twice is parsing once. *)
Theorem LineCap_parse_valid (val : String.string) :
  let caps := [LineCap.Butt; LineCap.Round; LineCap.Square] in
  LineCap.parse val ∈ caps
  /\ (val ∈ caps -> LineCap.parse val = val)
  /\ (val ∉ caps -> LineCap.parse val = LineCap.Round)
  /\ LineCap.parse (LineCap.parse val) = LineCap.parse val.
Proof.
  intros caps.
  assert (forall v, v ∈ caps
            <-> v = LineCap.Butt \/ v = LineCap.Round \/ v = LineCap.Square)
    as Hcaps.
  { intros v. unfold caps. rewrite !elem_of_cons, elem_of_nil. tauto. }
  assert (forall v, v ∈ caps -> LineCap.parse v = v) as Hin.
  { intros v Hv. apply Hcaps in Hv. unfold LineCap.parse.
    destruct Hv as [-> | [-> | ->]]; reflexivity. }
  assert (val ∉ caps -> LineCap.parse val = LineCap.Round) as Hout.
  { intros Hv. unfold LineCap.parse.
    destruct (String.eqb_spec val LineCap.Butt) as [E|_];
      [destruct Hv; apply Hcaps; auto|].
    destruct (String.eqb_spec val LineCap.Round) as [E|_];
      [destruct Hv; apply Hcaps; auto|].
    destruct (String.eqb_spec val LineCap.Square) as [E|_];
      [destruct Hv; apply Hcaps; auto|].
    reflexivity. }
  assert (LineCap.parse val ∈ caps) as Hres.
  { destruct (decide (val ∈ caps)) as [Hv|Hv].
    - by rewrite Hin.
    - rewrite Hout by done. apply Hcaps. auto. }
  split; [exact Hres|]. split; [apply Hin|]. split; [exact Hout|]. by apply Hin.
Qed.

(** ** The sampler in exact arithmetic: [map], [getLength], [mx] and [my] *)

Section ExactMap.
Local Open Scope R_scope.

Lemma of_nat_XR (n : nat) : (of_nat n : xreal) = XR (INR n).
Proof.
  unfold of_nat. change (of_Z (Z.of_nat n)) with (XR (IZR (Z.of_nat n))).
  by rewrite <- INR_IZR_INZ.
Qed.

Lemma of_Z_nat_XR (n : nat) : (of_Z (Z.of_nat n) : xreal) = XR (INR n).
Proof. apply of_nat_XR. Qed.

Lemma div_in_unit (n d : R) : 0 <= n -> n < d -> 0 <= n / d < 1.
Proof.
  intros Hn Hd.
  assert (0 < / d) by (apply Rinv_0_lt_compat; lra).
  assert (d * / d = 1) by (apply Rinv_r; lra).
  unfold Rdiv. split; nra.
Qed.

Lemma div_in_closed_unit (n d : R) : 0 <= n <= d -> 0 < d -> 0 <= n / d <= 1.
Proof.
  intros Hn Hd.
  assert (0 < / d) by (apply Rinv_0_lt_compat; lra).
  assert (d * / d = 1) by (apply Rinv_r; lra).
  unfold Rdiv. split; nra.
Qed.

(** What [map] returns at a target length [t] between the first and the
    last entry of a non-decreasing table: the position of [t] in the table,
    linear between two entries. *)
Lemma map_bracketed (bz : BezierUtils.t xreal) (rs : list R) (len : nat)
    (u : xreal) (t : R) :
  BezierUtils.arcLengths bz = XR <$> rs -> BezierUtils.len bz = len ->
  length rs = S len -> len <> O -> nondecreasing rs ->
  (u * XR (entry rs len))%js = XR t ->
  entry rs 0 <= t <= entry rs len ->
  exists (j : nat) (f : R),
    (j <= len)%nat /\ 0 <= f < 1 /\ ((j < len)%nat \/ f = 0)
    /\ BezierUtils.map bz u = XR ((INR j + f) / INR len)
    /\ entry rs j + f * (entry rs (S j) - entry rs j) = t.
Proof.
  intros Harr Hl Hlen Hne Hmono Ht [Ht0 Ht1].
  unfold BezierUtils.map. rewrite Harr, Hl.
  rewrite (get_XR rs len) by lia. rewrite Ht. cbv zeta.
  assert (bracket rs len t (BezierUtils.search (XR <$> rs) (XR t) 0 len 0))
    as [Hr Hcase].
  { apply (search_bracket rs len t Hlen Hmono len); [lia|lia|lia| |].
    - intros i Hi. replace i with len by lia. done.
    - intros <-. lia. }
  set (r := BezierUtils.search (XR <$> rs) (XR t) 0 len 0) in *.
  assert (INR len <> 0) as HlenR by (apply not_0_INR; lia).
  rewrite of_nat_XR.
  destruct Hcase as [[Hge Hbelow]|(Hlt & HS & Hnext & Hbelow)].
  - rewrite get_XR by lia.
    destruct (Rlt_dec t (entry rs r)) as [Hgt|Hle].
    + (* the entry at [index] is beyond the target: one step back *)
      rewrite lt_XR_true by done.
      destruct r as [|r]; [lra|].
      replace (Z.of_nat (S r) - 1)%Z with (Z.of_nat r) by lia.
      rewrite get_XR by lia.
      assert (entry rs r < t) as Hbefore by (apply Hbelow; lia).
      rewrite eq_XR_false by lra.
      replace (Z.of_nat r + 1)%Z with (Z.of_nat (S r)) by lia.
      rewrite get_XR by lia. rewrite of_Z_nat_XR.
      change (XR t - XR (entry rs r))%js with (XR (t - entry rs r)).
      change (XR (entry rs (S r)) - XR (entry rs r))%js
        with (XR (entry rs (S r) - entry rs r)).
      rewrite div_XR by lra.
      change (XR (INR r) + XR ?w)%js with (XR (INR r + w)).
      rewrite div_XR by done.
      exists r, ((t - entry rs r) / (entry rs (S r) - entry rs r)).
      split; [lia|]. split; [split|].
      { apply div_in_unit; lra. }
      { apply div_in_unit; lra. }
      split; [left; lia|]. split; [done|]. field. lra.
    + (* the entry at [index] is the target *)
      rewrite lt_XR_false by lra.
      rewrite get_XR by lia.
      assert (entry rs r = t) as Hrt by lra.
      rewrite Hrt, eq_XR_true. rewrite of_Z_nat_XR, div_XR by done.
      exists r, 0. split; [lia|]. split; [lra|]. split; [by right|].
      split; [by rewrite Rplus_0_r|lra].
  - rewrite get_XR by lia.
    rewrite lt_XR_false by lra.
    rewrite get_XR by lia. rewrite eq_XR_false by lra.
    replace (Z.of_nat r + 1)%Z with (Z.of_nat (S r)) by lia.
    rewrite get_XR by lia. rewrite of_Z_nat_XR.
    change (XR t - XR (entry rs r))%js with (XR (t - entry rs r)).
    change (XR (entry rs (S r)) - XR (entry rs r))%js
      with (XR (entry rs (S r) - entry rs r)).
    rewrite div_XR by lra.
    change (XR (INR r) + XR ?w)%js with (XR (INR r + w)).
    rewrite div_XR by done.
    destruct (Req_dec_T t (entry rs (S r))) as [Heq|Hneq].
    + (* the target is the next entry *)
      exists (S r), 0. split; [lia|]. split; [lra|]. split; [by right|].
      split; [|lra].
      f_equal. rewrite S_INR, Heq. field. split; [done|lra].
    + exists r, ((t - entry rs r) / (entry rs (S r) - entry rs r)).
      split; [lia|]. split; [split|].
      { apply div_in_unit; lra. }
      { apply div_in_unit; lra. }
      split; [left; lia|]. split; [done|]. field. lra.
Qed.

(** X7: in exact arithmetic [map] inverts the arc-length table: for a segment
    with real control points, [len >= 1] and [0 <= u <= 1], [map(u)] is
    [(j + f) / len] for an index [j] and a fraction [0 <= f < 1] such that
    the table, read linearly between its entries [j] and [j + 1], is
    [u] times the total length there; and [map(u)] is in [0, 1]. *)
Theorem map_inverts_table (a b c d : Point xreal) (len : nat) (u : R) :
  real_point a -> real_point b -> real_point c -> real_point d -> len <> O ->
  0 <= u <= 1 ->
  let bz := BezierUtils.new a b c d len in
  exists (rs : list R) (j : nat) (f : R),
    BezierUtils.arcLengths bz = XR <$> rs
    /\ (j <= len)%nat /\ 0 <= f < 1 /\ ((j < len)%nat \/ f = 0)
    /\ BezierUtils.map bz (XR u) = XR ((INR j + f) / INR len)
    /\ entry rs j + f * (entry rs (S j) - entry rs j) = u * entry rs len
    /\ 0 <= (INR j + f) / INR len <= 1.
Proof.
  intros Ha Hb Hc Hd Hlen Hu bz.
  destruct (new_table a b c d len Ha Hb Hc Hd Hlen) as (rs & Ers & Hl & Hmono & H0).
  fold bz in Ers.
  assert (0 <= entry rs len) as Htotal.
  { rewrite <- H0. apply Hmono. lia. }
  destruct (map_bracketed bz rs len (XR u) (u * entry rs len))
    as (j & f & Hj & Hf & Hjf & Hmap & Hlin); try done.
  { rewrite H0. nra. }
  exists rs, j, f. repeat split; try done; try lra.
  all: apply div_in_closed_unit; [|apply lt_0_INR; lia].
  all: pose proof (pos_INR j) as Hj0.
  all: destruct Hjf as [Hjl| ->];
    [assert (S j <= len)%nat as Hjl' by lia; apply le_INR in Hjl';
     rewrite S_INR in Hjl'
    |apply le_INR in Hj]; lra.
Qed.

End ExactMap.

Section ExactLength.
Local Open Scope R_scope.

Lemma add_XR (u v : R) : (XR u + XR v)%js = XR (u + v).
Proof. reflexivity. Qed.
Lemma sub_XR (u v : R) : (XR u - XR v)%js = XR (u - v).
Proof. reflexivity. Qed.
Lemma mul_XR (u v : R) : (XR u * XR v)%js = XR (u * v).
Proof. reflexivity. Qed.
Lemma of_Z_XR (z : Z) : (of_Z z : xreal) = XR (IZR z).
Proof. reflexivity. Qed.

(** The point of [getLength] at step [i] on a straight segment with evenly
    spaced control points. *)
Lemma getLength_step (a0 w u : R) :
  a0 * ((1 - u) * (1 - u) * (1 - u)) + 3 * u * ((1 - u) * (1 - u)) * (a0 + w)
  + 3 * (u * u) * (1 - u) * (a0 + 2 * w) + u * u * u * (a0 + 3 * w)
  = a0 + 3 * w * u.
Proof. ring. Qed.

Lemma getLength_from_straight (bz : BezierUtils.t xreal) (a0 b0 w v : R) :
  x (BezierUtils.a bz) = XR a0 -> y (BezierUtils.a bz) = XR b0 ->
  x (BezierUtils.b bz) = XR (a0 + w) -> y (BezierUtils.b bz) = XR (b0 + v) ->
  x (BezierUtils.c bz) = XR (a0 + 2 * w) -> y (BezierUtils.c bz) = XR (b0 + 2 * v) ->
  x (BezierUtils.d bz) = XR (a0 + 3 * w) -> y (BezierUtils.d bz) = XR (b0 + 3 * v) ->
  forall (n i : nat) (L : R),
    BezierUtils.getLength_from bz n (S i)
      (XR (a0 + 3 * w * (INR i / 100)), XR (b0 + 3 * v * (INR i / 100))) (XR L)
    = XR (L + INR n * (3 / 100 * sqrt (w * w + v * v))).
Proof.
  intros Eax Eay Ebx Eby Ecx Ecy Edx Edy n.
  induction n as [|n IH]; intros i L.
  - simpl. f_equal. lra.
  - cbn [BezierUtils.getLength_from]. cbv zeta.
    rewrite Eax, Eay, Ebx, Eby, Ecx, Ecy, Edx, Edy.
    rewrite of_nat_XR, !of_Z_XR.
    rewrite div_XR by lra.
    rewrite ?sub_XR, ?mul_XR, ?add_XR.
    rewrite !getLength_step.
    change (0 <? S i)%nat with true. cbv iota.
    cbn [fst snd]. rewrite ?sub_XR, ?mul_XR, ?add_XR.
    set (vx := a0 + 3 * w * (INR (S i) / 100) - (a0 + 3 * w * (INR i / 100))).
    set (vy := b0 + 3 * v * (INR (S i) / 100) - (b0 + 3 * v * (INR i / 100))).
    assert (vx = 3 / 100 * w) as -> by (unfold vx; rewrite S_INR; field).
    assert (vy = 3 / 100 * v) as -> by (unfold vy; rewrite S_INR; field).
    rewrite sqrt_XR; cycle 1.
    { pose proof (Rle_0_sqr (3 / 100 * w)). pose proof (Rle_0_sqr (3 / 100 * v)).
      unfold Rsqr in *. lra. }
    rewrite sqrt_scaled by lra. rewrite add_XR.
    rewrite IH. f_equal. rewrite (S_INR n). ring.
Qed.

Lemma getLength_from_first (bz : BezierUtils.t xreal) (a0 b0 w v : R) (n : nat)
    (prev : xreal * xreal) :
  x (BezierUtils.a bz) = XR a0 -> y (BezierUtils.a bz) = XR b0 ->
  x (BezierUtils.b bz) = XR (a0 + w) -> y (BezierUtils.b bz) = XR (b0 + v) ->
  x (BezierUtils.c bz) = XR (a0 + 2 * w) -> y (BezierUtils.c bz) = XR (b0 + 2 * v) ->
  x (BezierUtils.d bz) = XR (a0 + 3 * w) -> y (BezierUtils.d bz) = XR (b0 + 3 * v) ->
  BezierUtils.getLength_from bz (S n) 0 prev 0%js
  = XR (INR n * (3 / 100 * sqrt (w * w + v * v))).
Proof.
  intros Eax Eay Ebx Eby Ecx Ecy Edx Edy.
  cbn [BezierUtils.getLength_from]. cbv zeta.
  rewrite Eax, Eay, Ebx, Eby, Ecx, Ecy, Edx, Edy.
  rewrite of_nat_XR, !of_Z_XR.
  rewrite div_XR by lra.
  rewrite ?sub_XR, ?mul_XR, ?add_XR.
  rewrite !getLength_step.
  change (0 <? 0)%nat with false. cbv iota.
  rewrite (getLength_from_straight bz a0 b0 w v Eax Eay Ebx Eby Ecx Ecy Edx Edy
             n 0 0).
  f_equal. lra.
Qed.

(** X8: in exact arithmetic, on a straight segment whose four control points
    are evenly spaced, [getLength] is 99/100 of the distance between the
    end knots: the loop stops at [t = 0.99] and the last chord is left
    out. *)
Theorem getLength_straight (bz : BezierUtils.t xreal) (a0 b0 w v : R) :
  x (BezierUtils.a bz) = XR a0 -> y (BezierUtils.a bz) = XR b0 ->
  x (BezierUtils.b bz) = XR (a0 + w) -> y (BezierUtils.b bz) = XR (b0 + v) ->
  x (BezierUtils.c bz) = XR (a0 + 2 * w) -> y (BezierUtils.c bz) = XR (b0 + 2 * v) ->
  x (BezierUtils.d bz) = XR (a0 + 3 * w) -> y (BezierUtils.d bz) = XR (b0 + 3 * v) ->
  BezierUtils.getLength bz
  = (XR (99 / 100) * getDistance (BezierUtils.a bz) (BezierUtils.d bz))%js.
Proof.
  intros Eax Eay Ebx Eby Ecx Ecy Edx Edy.
  rewrite (getDistance_XR _ _ _ _ _ _ Eax Eay Edx Edy).
  replace ((a0 - (a0 + 3 * w)) * (a0 - (a0 + 3 * w))
           + (b0 - (b0 + 3 * v)) * (b0 - (b0 + 3 * v)))
    with ((3 * w) * (3 * w) + (3 * v) * (3 * v)) by ring.
  rewrite sqrt_scaled by lra. rewrite mul_XR.
  unfold BezierUtils.getLength.
  rewrite (getLength_from_first bz a0 b0 w v 99 _
             Eax Eay Ebx Eby Ecx Ecy Edx Edy).
  f_equal. replace (INR 99) with 99 by (rewrite INR_IZR_INZ; reflexivity). lra.
Qed.

End ExactLength.

Lemma getLength_straight_witness :
  let bz := BezierUtils.mk (mkPoint (XR 0) (XR 0) false None None)
              (mkPoint (XR 10) (XR 0) false None None)
              (mkPoint (XR 20) (XR 0) false None None)
              (mkPoint (XR 30) (XR 0) false None None) None 200 [] in
  BezierUtils.getLength bz
  = (XR (99 / 100) * getDistance (BezierUtils.a bz) (BezierUtils.d bz))%js.
Proof.
  apply (getLength_straight _ 0 0 10 0); cbn [x y BezierUtils.a BezierUtils.b
    BezierUtils.c BezierUtils.d]; f_equal; lra.
Defined.

(** ** Subdivision in exact arithmetic *)

Section ExactSubdivision.
Local Open Scope R_scope.


Lemma cubicBezierInterpolate_XR (u : R) (P0 P1 P2 P3 : Point xreal)
    (a0 a1 a2 a3 b0 b1 b2 b3 : R) :
  x P0 = XR a0 -> y P0 = XR b0 -> x P1 = XR a1 -> y P1 = XR b1 ->
  x P2 = XR a2 -> y P2 = XR b2 -> x P3 = XR a3 -> y P3 = XR b3 ->
  cubicBezierInterpolate (XR u) P0 P1 P2 P3
  = new_Point (XR (bernstein u a0 a1 a2 a3)) (XR (bernstein u b0 b1 b2 b3)).
Proof.
  intros E0x E0y E1x E1y E2x E2y E3x E3y. unfold cubicBezierInterpolate.
  rewrite E0x, E0y, E1x, E1y, E2x, E2y, E3x, E3y. reflexivity.
Qed.

(** X9: in exact arithmetic, when the rounding of the constructor moves none of
    the De Casteljau points, the two segments an insertion at [t] makes
    trace the curve of the segment they replace, the first at [t * u], the
    second at [t + (1 - t) * u]; and the new knot is the point of that curve
    at [t]. *)
Theorem subdivision_keeps_curve (p0 p1 p2 p3 : Point xreal) (τ υ : R) :
  real_point p0 -> real_point p1 -> real_point p2 -> real_point p3 ->
  let t := XR τ in
  let P4 := weighted p0 p1 t in
  let P5 := weighted p1 p2 t in
  let P6 := weighted p2 p3 t in
  let P7 := weighted P4 P5 t in
  let P8 := weighted P5 P6 t in
  let P9 := weighted P7 P8 t in
  unrounded p0 p1 t -> unrounded p1 p2 t -> unrounded p2 p3 t ->
  unrounded P4 P5 t -> unrounded P5 P6 t -> unrounded P7 P8 t ->
  let N := new_ConstructionPoint (x P9) (y P9) in
  cubicBezierInterpolate (XR υ) p0 P4 P7 N
  = cubicBezierInterpolate (XR (τ * υ)) p0 p1 p2 p3
  /\ cubicBezierInterpolate (XR υ) N P8 P6 p3
     = cubicBezierInterpolate (XR (τ + (1 - τ) * υ)) p0 p1 p2 p3
  /\ xy N = xy (cubicBezierInterpolate t p0 p1 p2 p3).
Proof.
  intros [H0x H0y] [H1x H1y] [H2x H2y] [H3x H3y]
    t P4 P5 P6 P7 P8 P9 U01 U12 U23 U45 U56 U78 N.
  destruct (finite_XR _ H0x) as [a0 Ea0], (finite_XR _ H0y) as [b0 Eb0],
    (finite_XR _ H1x) as [a1 Ea1], (finite_XR _ H1y) as [b1 Eb1],
    (finite_XR _ H2x) as [a2 Ea2], (finite_XR _ H2y) as [b2 Eb2],
    (finite_XR _ H3x) as [a3 Ea3], (finite_XR _ H3y) as [b3 Eb3].
  destruct (weighted_XR p0 p1 _ _ _ _ τ Ea0 Eb0 Ea1 Eb1 U01) as (E4x & E4y & _).
  destruct (weighted_XR p1 p2 _ _ _ _ τ Ea1 Eb1 Ea2 Eb2 U12) as (E5x & E5y & _).
  destruct (weighted_XR p2 p3 _ _ _ _ τ Ea2 Eb2 Ea3 Eb3 U23) as (E6x & E6y & _).
  fold t P4 P5 P6 in E4x, E4y, E5x, E5y, E6x, E6y.
  destruct (weighted_XR P4 P5 _ _ _ _ τ E4x E4y E5x E5y U45) as (E7x & E7y & _).
  destruct (weighted_XR P5 P6 _ _ _ _ τ E5x E5y E6x E6y U56) as (E8x & E8y & _).
  fold t P7 P8 in E7x, E7y, E8x, E8y.
  destruct (weighted_XR P7 P8 _ _ _ _ τ E7x E7y E8x E8y U78)
    as (E9x & E9y & R9x & R9y).
  fold t P9 in E9x, E9y.
  assert (x N = XR (bernstein τ a0 a1 a2 a3)) as ENx.
  { change (Math_round (x P9) = XR (bernstein τ a0 a1 a2 a3)).
    rewrite E9x, R9x. f_equal. unfold bernstein. ring. }
  assert (y N = XR (bernstein τ b0 b1 b2 b3)) as ENy.
  { change (Math_round (y P9) = XR (bernstein τ b0 b1 b2 b3)).
    rewrite E9y, R9y. f_equal. unfold bernstein. ring. }
  rewrite (cubicBezierInterpolate_XR υ p0 P4 P7 N _ _ _ _ _ _ _ _
             Ea0 Eb0 E4x E4y E7x E7y ENx ENy).
  rewrite (cubicBezierInterpolate_XR υ N P8 P6 p3 _ _ _ _ _ _ _ _
             ENx ENy E8x E8y E6x E6y Ea3 Eb3).
  rewrite !(cubicBezierInterpolate_XR _ p0 p1 p2 p3 _ _ _ _ _ _ _ _
              Ea0 Eb0 Ea1 Eb1 Ea2 Eb2 Ea3 Eb3).
  pose proof R9x as Rx. pose proof R9y as Ry.
  match type of Rx with
  | Math_round (XR ?v) = _ =>
      replace v with (bernstein τ a0 a1 a2 a3) in Rx by (unfold bernstein; ring)
  end.
  match type of Ry with
  | Math_round (XR ?v) = _ =>
      replace v with (bernstein τ b0 b1 b2 b3) in Ry by (unfold bernstein; ring)
  end.
  split; [|split].
  - f_equal; f_equal; unfold bernstein; ring.
  - f_equal; f_equal; unfold bernstein; ring.
  - unfold t.
    rewrite (cubicBezierInterpolate_XR _ p0 p1 p2 p3 _ _ _ _ _ _ _ _
               Ea0 Eb0 Ea1 Eb1 Ea2 Eb2 Ea3 Eb3).
    unfold xy, new_Point. cbn [x y]. by rewrite ENx, ENy, Rx, Ry.
Qed.

End ExactSubdivision.

Section ExactEnds.
Local Open Scope R_scope.

Lemma fmap_XR_inj (l l' : list R) : XR <$> l = XR <$> l' -> l = l'.
Proof.
  revert l'. induction l as [|a l IH]; intros [|a' l']; try done.
  rewrite !fmap_cons. intros [= -> Hl]. f_equal. by apply IH.
Qed.

Lemma zero_distance (a b c d : R) :
  sqrt ((a - c) * (a - c) + (b - d) * (b - d)) = 0 -> a = c /\ b = d.
Proof.
  intros Hs. apply sqrt_eq_0 in Hs; cycle 1.
  { pose proof (Rle_0_sqr (a - c)). pose proof (Rle_0_sqr (b - d)).
    unfold Rsqr in *. lra. }
  change ((a - c)² + (b - d)² = 0) in Hs.
  apply Rplus_sqr_eq_0 in Hs as [? ?]. split; lra.
Qed.

(** A step of the table that adds nothing joins two samples that are the
    same point. *)
Lemma arcLengths_from_steps (interp : xreal -> Point xreal) (len n i : nat)
    (ox oy : xreal) (c : R) (rs : list R) :
  (forall u, finite u -> real_point (interp u)) -> len <> O ->
  finite ox -> finite oy ->
  BezierUtils.arcLengths_from interp len n i ox oy (XR c) = XR <$> rs ->
  forall m, (m < n)%nat -> entry (c :: rs) (S m) = entry (c :: rs) m ->
    xy (interp (of_nat (i + m) / of_nat len)%js)
    = match m with
      | O => (ox, oy)
      | S m' => xy (interp (of_nat (i + m') / of_nat len)%js)
      end.
Proof.
  intros Hinterp Hlen. revert i ox oy c rs.
  induction n as [|n IH]; intros i ox oy c rs Hox Hoy Hrs m Hm Hflat; [lia|].
  cbn [BezierUtils.arcLengths_from] in Hrs. cbv zeta in Hrs.
  assert (finite (of_nat i / of_nat len)%js) as Hu.
  { rewrite !of_nat_XR, div_XR; [done|]. apply not_0_INR. lia. }
  destruct (Hinterp _ Hu) as [Hx Hy].
  set (q := interp (of_nat i / of_nat len)%js) in *.
  destruct (finite_XR _ Hx) as [vx Evx], (finite_XR _ Hy) as [vy Evy].
  destruct (finite_XR _ Hox) as [rox ->], (finite_XR _ Hoy) as [roy ->].
  rewrite Evx, Evy in Hrs.
  change ((XR rox - XR vx) * (XR rox - XR vx) + (XR roy - XR vy) * (XR roy - XR vy))%js
    with (XR ((rox - vx) * (rox - vx) + (roy - vy) * (roy - vy))) in Hrs.
  rewrite sqrt_XR in Hrs by (apply Rplus_le_le_0_compat; apply Rle_0_sqr).
  change (XR c + XR ?w)%js with (XR (c + w)) in Hrs.
  destruct rs as [|r rs]; [done|]. rewrite fmap_cons in Hrs.
  injection Hrs as Hr Hrs. subst r.
  destruct m as [|m].
  - replace (i + 0)%nat with i by lia. fold q.
    unfold entry in Hflat. cbn [nth] in Hflat.
    assert (sqrt ((rox - vx) * (rox - vx) + (roy - vy) * (roy - vy)) = 0)
      as Hz by lra.
    apply zero_distance in Hz as [-> ->]. unfold xy. by rewrite Evx, Evy.
  - specialize (IH (S i) (XR vx) (XR vy) _ rs I I Hrs m).
    replace (i + S m)%nat with (S i + m)%nat by lia.
    rewrite IH; [|lia|exact Hflat].
    destruct m as [|m'].
    + replace (i + 0)%nat with i by lia. fold q. unfold xy. by rewrite Evx, Evy.
    + by replace (i + S m')%nat with (S i + m')%nat by lia.
Qed.

(** The table of [new], with the samples it measures. *)
Lemma new_table_steps (a b c d : Point xreal) (len : nat) :
  real_point a -> real_point b -> real_point c -> real_point d -> len <> O ->
  exists rs,
    BezierUtils.arcLengths (BezierUtils.new a b c d len) = XR <$> rs
    /\ length rs = S len /\ nondecreasing rs /\ entry rs 0 = 0
    /\ forall j j', (j <= j' <= len)%nat -> entry rs j = entry rs j' ->
         xy (cubicBezierInterpolate (of_nat j / of_nat len)%js a b c d)
         = xy (cubicBezierInterpolate (of_nat j' / of_nat len)%js a b c d).
Proof.
  intros Ha Hb Hc Hd Hlen.
  destruct (new_table a b c d len Ha Hb Hc Hd Hlen) as (rs & Ers & Hl & Hmono & H0).
  exists rs. repeat (split; [done|]).
  destruct rs as [|r0 rs]; [done|]. unfold entry in H0. cbn [nth] in H0. subst r0.
  unfold BezierUtils.new in Ers. cbv zeta in Ers.
  cbn [BezierUtils.arcLengths] in Ers. rewrite fmap_cons in Ers.
  injection Ers as Ers.
  assert (forall u, finite u -> real_point (cubicBezierInterpolate u a b c d))
    as Hinterp by (intros; by apply real_cubicBezierInterpolate).
  destruct (Hinterp 0%js (finite_of_Z 0)) as [H0x H0y].
  pose proof (arcLengths_from_steps (fun u => cubicBezierInterpolate u a b c d)
                len len 1 _ _ 0 rs Hinterp Hlen H0x H0y Ers) as Hsteps.
  assert ((of_nat 0 / of_nat len)%js = (0%js : xreal)) as Hzero.
  { rewrite !of_nat_XR, div_XR by (apply not_0_INR; lia).
    change (0%js : xreal) with (XR 0). f_equal. simpl. lra. }
  assert (forall m, (m < len)%nat -> entry (0 :: rs) (S m) = entry (0 :: rs) m ->
            xy (cubicBezierInterpolate (of_nat (S m) / of_nat len)%js a b c d)
            = xy (cubicBezierInterpolate (of_nat m / of_nat len)%js a b c d))
    as Hstep.
  { intros m Hm Hflat. specialize (Hsteps m Hm Hflat). cbv beta in Hsteps.
    change (1 + m)%nat with (S m) in Hsteps. rewrite Hsteps.
    destruct m as [|m']; [by rewrite Hzero|done]. }
  intros j j' [Hjj' Hj'] Hflat.
  induction j' as [|j' IH]; [by replace j with O by lia|].
  destruct (decide (j = S j')) as [->|Hne]; [done|].
  assert (entry (0 :: rs) j <= entry (0 :: rs) j') as H1
    by (apply Hmono; cbn [length] in *; lia).
  assert (entry (0 :: rs) j' <= entry (0 :: rs) (S j')) as H2
    by (apply Hmono; cbn [length] in *; lia).
  rewrite IH by (lia || lra). symmetry. apply Hstep; [lia|lra].
Qed.

Lemma least_reaching (rs : list R) (len : nat) :
  length rs = S len -> nondecreasing rs ->
  forall n, (n <= len)%nat -> entry rs n = entry rs len ->
    exists j, (j <= n)%nat /\ entry rs j = entry rs len
              /\ forall i, (i < j)%nat -> entry rs i < entry rs len.
Proof.
  intros Hl Hmono. induction n as [|n IH]; intros Hn Hreach.
  - exists O. split; [lia|]. split; [done|]. intros; lia.
  - destruct (Req_dec_T (entry rs n) (entry rs len)) as [Heq|Hneq].
    + destruct IH as (j & Hj & Hjt & Hleast); [lia|done|].
      exists j. split; [lia|done].
    + exists (S n). split; [lia|]. split; [done|].
      intros i Hi.
      assert (entry rs i <= entry rs n) by (apply Hmono; lia).
      assert (entry rs n <= entry rs len) by (apply Hmono; lia). lra.
Qed.

(** X29: in exact arithmetic, for a segment with real control points and
    [len >= 1], the placement by arc length starts on the first control
    point and ends on the last one: [mx] and [my] at 0 are the rounded
    coordinates of [a], and at 1 those of [d], even when [map(1)] falls
    short of 1. *)
Theorem mx_my_at_ends (a b c d : Point xreal) (len : nat) :
  real_point a -> real_point b -> real_point c -> real_point d -> len <> O ->
  let bz := BezierUtils.new a b c d len in
  BezierUtils.mx bz 0%js = Math_round (x a)
  /\ BezierUtils.my bz 0%js = Math_round (y a)
  /\ BezierUtils.mx bz 1%js = Math_round (x d)
  /\ BezierUtils.my bz 1%js = Math_round (y d).
Proof.
  intros Ha Hb Hc Hd Hlen bz.
  destruct (new_table_steps a b c d len Ha Hb Hc Hd Hlen)
    as (rs & Ers & Hl & Hmono & H0 & Hflat).
  fold bz in Ers.
  assert (INR len <> 0) as HlenR by (apply not_0_INR; lia).
  assert (forall j, (of_nat j / of_nat len)%js = XR (INR j / INR len)) as Hpar.
  { intros j. by rewrite !of_nat_XR, div_XR. }
  destruct Ha as [Fax Fay], Hb as [Fbx Fby], Hc as [Fcx Fcy], Hd as [Fdx Fdy].
  apply finite_XR in Fax as [a0 Eax], Fay as [b0 Eay], Fbx as [a1 Ebx],
    Fby as [b1 Eby], Fcx as [a2 Ecx], Fcy as [b2 Ecy], Fdx as [a3 Edx],
    Fdy as [b3 Edy].
  assert (BezierUtils.map bz 0%js = XR (INR 0 / INR len)) as Hmap0.
  { apply (map_attained bz rs len 0 0%js 0); try done; try lia.
    simpl. f_equal. lra. }
  destruct (least_reaching rs len Hl Hmono len) as (j & Hj & Hjt & Hleast);
    [lia|done|].
  assert (BezierUtils.map bz 1%js = XR (INR j / INR len)) as Hmap1.
  { apply (map_attained bz rs len j 1%js (entry rs len)); try done.
    simpl. f_equal. lra. }
  assert (xy (BezierUtils.interpolate bz (BezierUtils.map bz 0%js))
          = (Math_round (x a), Math_round (y a))) as H0xy.
  { rewrite Hmap0. unfold BezierUtils.interpolate. cbn [bz BezierUtils.new
      BezierUtils.a BezierUtils.b BezierUtils.c BezierUtils.d].
    rewrite (cubicBezierInterpolate_XR _ a b c d a0 a1 a2 a3 b0 b1 b2 b3) by done.
    unfold xy, new_Point. cbn [x y]. rewrite Eax, Eay.
    f_equal; f_equal; f_equal; unfold bernstein; simpl INR; field; done. }
  assert (xy (BezierUtils.interpolate bz (BezierUtils.map bz 1%js))
          = (Math_round (x d), Math_round (y d))) as H1xy.
  { rewrite Hmap1, <- Hpar. unfold BezierUtils.interpolate. cbn [bz BezierUtils.new
      BezierUtils.a BezierUtils.b BezierUtils.c BezierUtils.d].
    rewrite (Hflat j len) by (lia || done). rewrite Hpar.
    rewrite (cubicBezierInterpolate_XR _ a b c d a0 a1 a2 a3 b0 b1 b2 b3) by done.
    unfold xy, new_Point. cbn [x y]. rewrite Edx, Edy.
    f_equal; f_equal; f_equal; unfold bernstein; field; done. }
  unfold xy in H0xy, H1xy.
  apply pair_equal_spec in H0xy as [H0x H0y], H1xy as [H1x H1y].
  unfold BezierUtils.mx, BezierUtils.my. by repeat split.
Qed.

End ExactEnds.

(** ** The editor: hit test, import and export, insertion *)

Ltac state_simpl :=
  unfold set_store, set_Point_count, set_constructionPoints,
    set_currentMovingPoint, set_isMouseDown, set_ctrlKeyIsDown,
    set_mouseRelease, set_options;
  cbn [store Point_count constructionPoints currentMovingPoint isMouseDown
       ctrlKeyIsDown mouseReleaseAfterConstructionPointCreation options
       fst snd].

Ltac run_step :=
  lazymatch goal with
  | |- (?m ≫= _) _ = _ =>
      lazymatch m with
      | _ ≫= _ => rewrite run_assoc
      | alloc _ => rewrite run_alloc
      | update _ _ => rewrite run_update
      | modify _ => rewrite run_modify
      | get_canvas => rewrite run_get
      | mret _ => rewrite run_ret
      | set_handler1 _ (Some _) => rewrite run_set_handler1
      | set_handler2 _ (Some _) => rewrite run_set_handler2
      | set_handler2 _ None => rewrite run_set_handler2_null
      | set_fromCasteljau _ _ => rewrite run_set_fromCasteljau
      end
  end; state_simpl.

Ltac run_steps := repeat run_step.

Ltac neq_tac :=
  first [ assumption | apply not_eq_sym; assumption | lia | congruence ].

Ltac lk_step :=
  match goal with
  | |- context [alter ?f ?i ?m !! ?i] => rewrite (lookup_alter_eq f m i)
  | |- context [alter ?f ?i ?m !! ?j] => rewrite (lookup_alter_ne f m i j) by neq_tac
  | |- context [<[?i := ?v]> ?m !! ?i] => rewrite (lookup_insert_eq m i v)
  | |- context [<[?i := ?v]> ?m !! ?j] => rewrite (lookup_insert_ne m i j v) by neq_tac
  end.

Ltac lk := repeat lk_step.

Section HitTest.
Context `{JSNumber number}.
Local Abbreviation M := (M number).
Local Abbreviation canvas := (BezierCanvas number).

Lemma last_cons_default {A} (a : A) (l : list A) :
  last (a :: l) = Some (default a (last l)).
Proof.
  revert a. induction l as [|b l IH]; intros a; [done|].
  change (last (a :: b :: l)) with (last (b :: l)). rewrite IH.
  simpl. by destruct l.
Qed.

Lemma hit_scan (s : canvas) (position : Point number) (n k : nat)
    (found : option ref) :
  (forall r, r ∈ constructionPoints s -> is_Some (store s !! r)) ->
  (k + n = length (constructionPoints s))%nat ->
  forEach_from n k (fun curPoint _ foundPoint =>
      cur ← deref curPoint;
      let distance := getDistance position cur in
      if (distance <? maxDistance (options s))%js
      then mret (Some curPoint)
      else mret foundPoint) found s
  = (Some (match last (filter (fun r => hit s position r = true)
                         (drop k (constructionPoints s))) with
           | Some r => Some r
           | None => found
           end), s).
Proof.
  intros Hex. revert k found. induction n as [|n IH]; intros k found Hk.
  - rewrite drop_ge by lia. done.
  - simpl. unfold mbind at 1, M_bind at 1, get_canvas. simpl.
    destruct (constructionPoints s !! k) as [r|] eqn:E; cycle 1.
    { apply lookup_ge_None in E. lia. }
    destruct (Hex r) as [cur Hcur]; [by eapply list_elem_of_lookup_2|].
    unfold mbind at 1, M_bind at 1.
    unfold mbind at 1, M_bind at 1, deref. simpl. rewrite Hcur. cbv zeta.
    rewrite (drop_S _ r k) by done.
    assert (hit s position r
            = (getDistance position cur <? maxDistance (options s))%js) as Hhit
      by (unfold hit; by rewrite Hcur).
    rewrite filter_cons.
    destruct (decide (hit s position r = true)) as [Hd|Hd]; rewrite Hhit in Hd.
    + rewrite Hd. unfold mret, M_ret. simpl.
      rewrite IH by lia. rewrite last_cons_default.
      by destruct (last _).
    + apply not_true_is_false in Hd. rewrite Hd. unfold mret, M_ret. simpl.
      by rewrite IH by lia.
Qed.

(** X11: the hit test returns the last knot of the spline, in its order, that
    is within the threshold of the (rounded) query position, [null] when
    there is none, and changes nothing. *)
Theorem findClosestConstructionPoint_last_hit (vx vy : number) (s : canvas) :
  (forall r, r ∈ constructionPoints s -> is_Some (store s !! r)) ->
  findClosestConstructionPoint vx vy s
  = (Some (last (filter (fun r => hit s (new_Point vx vy) r = true)
                   (constructionPoints s))), s).
Proof.
  intros Hex. unfold findClosestConstructionPoint.
  unfold mbind at 1, M_bind at 1, get_canvas. simpl.
  unfold forEach. unfold mbind at 1, M_bind at 1, get_canvas. simpl.
  rewrite (hit_scan s (new_Point vx vy) _ 0 None Hex) by lia.
  rewrite drop_0. by destruct (last _).
Qed.

(** X12: a right click with no knot within the threshold changes nothing. *)
Theorem contextMenu_away_from_knots (ex ey : number) (s : canvas) :
  let position := new_Point ex ey in
  (forall r, r ∈ constructionPoints s ->
     exists cur, store s !! r = Some cur
       /\ (getDistance (new_Point (x position) (y position)) cur
           <? maxDistance (options s))%js = false) ->
  contextMenu ex ey s = (Some tt, s).
Proof.
  intros position Hfar. unfold contextMenu. cbv zeta. fold position.
  assert (forall r, r ∈ constructionPoints s -> is_Some (store s !! r)) as Hex.
  { intros r Hr. destruct (Hfar r Hr) as (cur & -> & _). done. }
  unfold mbind at 1, M_bind at 1. unfold findClosestConstructionPoint.
  unfold mbind at 1, M_bind at 1, get_canvas. simpl.
  unfold forEach. unfold mbind at 1, M_bind at 1, get_canvas. simpl.
  rewrite (hit_scan s (new_Point (x position) (y position)) _ 0 None Hex) by lia.
  rewrite drop_0.
  destruct (filter _ _) as [|r l] eqn:E; [done|]. exfalso.
  assert (r ∈ filter (fun r => hit s (new_Point (x position) (y position)) r = true)
            (constructionPoints s)) as Hr by (rewrite E; left).
  apply list_elem_of_filter in Hr as [Hhit Hr].
  destruct (Hfar r Hr) as (cur & Hcur & Hd).
  unfold hit in Hhit. rewrite Hcur in Hhit. congruence.
Qed.

End HitTest.

Section ImportExport.
Context `{JSNumber number}.
Local Abbreviation M := (M number).
Local Abbreviation canvas := (BezierCanvas number).

Lemma getPoints_from (s : canvas) (l : list (PointRecord number)) (n k : nat)
    (ret : list (PointRecord number)) :
  Forall2 (fun r rec => export_knot (store s) r = Some rec)
    (constructionPoints s) l ->
  (k + n = length (constructionPoints s))%nat ->
  forEach_from n k (fun point _ ret =>
    p ← deref point;
    h1 ← deref_opt (handler1 p);
    match handler2 p with
    | Some r2 =>
        h2 ← deref r2;
        mret (ret ++ [mkRecord (x p) (y p) (x h1, y h1) (Some (x h2, y h2))])
    | None =>
        mret (ret ++ [mkRecord (x p) (y p) (x h1, y h1) None])
    end) ret s
  = (Some (ret ++ drop k l), s).
Proof.
  intros Hall. revert k ret. induction n as [|n IH]; intros k ret Hk.
  - rewrite drop_ge; [by rewrite app_nil_r|].
    apply Forall2_length in Hall. simpl. lia.
  - simpl. unfold mbind at 1, M_bind at 1, get_canvas. simpl.
    destruct (constructionPoints s !! k) as [r|] eqn:E; cycle 1.
    { apply lookup_ge_None in E. lia. }
    destruct (Forall2_lookup_l _ _ _ _ _ Hall E) as (rec & Hrec & Hexp).
    rewrite (drop_S _ rec k) by done.
    unfold export_knot in Hexp.
    destruct (store s !! r) as [p|] eqn:Hp; [|done]. simpl in Hexp.
    destruct (handler1 p) as [r1|] eqn:Hr1; [|done]. simpl in Hexp.
    destruct (store s !! r1) as [h1|] eqn:Hh1; [|done]. simpl in Hexp.
    unfold mbind at 1, M_bind at 1.
    rewrite (run_deref r p) by done. rewrite Hr1.
    unfold deref_opt. rewrite (run_deref r1 h1) by done.
    destruct (handler2 p) as [r2|] eqn:Hr2.
    + destruct (store s !! r2) as [h2|] eqn:Hh2; [|done]. simpl in Hexp.
      rewrite (run_deref r2 h2) by done. unfold mret, M_ret. simpl.
      rewrite IH by lia. injection Hexp as <-. by rewrite <- app_assoc.
    + unfold mret, M_ret. simpl.
      rewrite IH by lia. injection Hexp as <-. by rewrite <- app_assoc.
Qed.

(** [getPoints] returns the export of each knot, in order, when each
    export is defined. *)
Lemma getPoints_export (s : canvas) (l : list (PointRecord number)) :
  Forall2 (fun r rec => export_knot (store s) r = Some rec)
    (constructionPoints s) l ->
  getPoints s = (Some l, s).
Proof.
  intros Hall. unfold getPoints, forEach.
  unfold mbind at 1, M_bind at 1, get_canvas. simpl.
  rewrite (getPoints_from s l _ 0 [] Hall) by lia. by rewrite drop_0.
Qed.

Lemma export_agree (c : nat) (σ σ' : gmap ref (Point number)) (k : ref)
    (rec : PointRecord number) :
  (forall r, (r < c)%nat -> σ' !! r = σ !! r) ->
  knot_below c σ k -> export_knot σ k = Some rec ->
  export_knot σ' k = Some rec /\ forall c', (c <= c')%nat -> knot_below c' σ' k.
Proof.
  intros Hag [Hk Hh] Hexp. unfold export_knot in *.
  rewrite (Hag k Hk).
  destruct (σ !! k) as [p|] eqn:Hp; [|done]. simpl in *.
  split.
  - destruct (handler1 p) as [r1|] eqn:Hr1; [|done]. simpl in *.
    rewrite (Hag r1) by (eapply Hh; eauto).
    destruct (σ !! r1) as [h1|]; [|done]. simpl in *.
    destruct (handler2 p) as [r2|] eqn:Hr2; [|done].
    rewrite (Hag r2) by (eapply Hh; eauto). done.
  - intros c' Hc'. split; [lia|]. intros p' h Hp'. rewrite (Hag k Hk), Hp in Hp'.
    injection Hp' as <-. intros Hcase.
    assert (h < c)%nat by (eapply Hh; eauto). lia.
Qed.

Lemma setPoints_from_spec (points : list (PointRecord number)) :
  forall (s : canvas) (l : list (PointRecord number)),
    Forall2 (fun r rec => export_knot (store s) r = Some rec
                          /\ knot_below (Point_count s) (store s) r)
      (constructionPoints s) l ->
    exists s',
      setPoints_from points s = (Some tt, s')
      /\ Forall2 (fun r rec => export_knot (store s') r = Some rec
                               /\ knot_below (Point_count s') (store s') r)
           (constructionPoints s') (l ++ (round_record <$> points))
      /\ options s' = options s.
Proof.
  induction points as [|point points IH]; intros s l Hexp.
  - exists s. simpl. by rewrite app_nil_r.
  - set (c := Point_count s).
    assert (forall (σ' : gmap ref (Point number)) (c' : nat),
              (forall r, (r < c)%nat -> σ' !! r = store s !! r) -> (c <= c')%nat ->
              Forall2 (fun r rec => export_knot σ' r = Some rec
                                    /\ knot_below c' σ' r)
                (constructionPoints s) l) as Hold.
    { intros σ' c' Hag Hc'. eapply Forall2_impl; [exact Hexp|].
      intros r rec [He Hb]. simpl in *.
      destruct (export_agree c (store s) σ' r rec Hag Hb He) as [He' Hb'].
      split; [done|]. by apply Hb'. }
    destruct point as [px py [h1x h1y] q2].
    cbn [setPoints_from rec_x rec_y hp1 hp2 fst snd].
    destruct q2 as [[h2x h2y]|].
    + match goal with
      | |- ex (fun s' => ?lhs = _ /\ _) =>
          eassert (lhs = setPoints_from points _) as Hrun
      end.
      { run_steps. reflexivity. }
      rewrite Hrun. clear Hrun. fold c.
      match goal with
      | |- context [setPoints_from points ?st] => set (s1 := st)
      end.
      destruct (IH s1 (l ++ [round_record
                               (mkRecord px py (h1x, h1y) (Some (h2x, h2y)))]))
        as (s' & Hrun & Hall & Hopt).
      { unfold s1. state_simpl. apply Forall2_app.
        - apply Hold; [|lia]. intros r Hr. lk. done.
        - constructor; [|constructor]. split.
          + unfold export_knot. lk. simpl. lk. simpl. lk. reflexivity.
          + split; [lia|]. intros p h. lk. simpl. intros [= <-].
            unfold handler1, handler2. simpl. intros [[= <-]|[= <-]]; lia. }
      exists s'. split; [done|]. split; [|done].
      by rewrite <- app_assoc in Hall.
    + match goal with
      | |- ex (fun s' => ?lhs = _ /\ _) =>
          eassert (lhs = setPoints_from points _) as Hrun
      end.
      { run_steps. reflexivity. }
      rewrite Hrun. clear Hrun. fold c.
      match goal with
      | |- context [setPoints_from points ?st] => set (s1 := st)
      end.
      destruct (IH s1 (l ++ [round_record (mkRecord px py (h1x, h1y) None)]))
        as (s' & Hrun & Hall & Hopt).
      { unfold s1. state_simpl. apply Forall2_app.
        - apply Hold; [|lia]. intros r Hr. lk. done.
        - constructor; [|constructor]. split.
          + unfold export_knot. lk. simpl. lk. simpl. lk. reflexivity.
          + split; [lia|]. intros p h. lk. simpl. intros [= <-].
            unfold handler1, handler2. simpl. intros [[= <-]|[=]]; lia. }
      exists s'. split; [done|]. split; [|done].
      by rewrite <- app_assoc in Hall.
Qed.

(** X13: import, then export: [getPoints] after [setPoints(points)] returns the
    records of [points] in their order, every coordinate rounded as the
    constructors round it, [hp2] present exactly where it was; [setPoints]
    does not throw. *)
Theorem setPoints_getPoints (points : list (PointRecord number)) (s : canvas) :
  exists s',
    setPoints points s = (Some tt, s')
    /\ getPoints s' = (Some (round_record <$> points), s')
    /\ length (constructionPoints s') = length points
    /\ options s' = options s.
Proof.
  unfold setPoints, reset. rewrite run_modify.
  destruct (setPoints_from_spec points (set_constructionPoints [] s) [])
    as (s' & Hrun & Hall & Hopt); [constructor|].
  exists s'. split; [done|]. simpl in Hall. split; [|split; [|done]].
  - apply getPoints_export. eapply Forall2_impl; [exact Hall|]. by intros ? ? [? _].
  - apply Forall2_length in Hall. by rewrite Hall, length_fmap.
Qed.

End ImportExport.

Section InsertionSegments.
Context `{JSNumber number}.
Local Abbreviation M := (M number).
Local Abbreviation canvas := (BezierCanvas number).

(** X10: an insertion puts the new knot right after [P0], makes it the moving
    point, and leaves two segments in place of the one it split: their
    control points are the De Casteljau points of the subdivision at [t]
    ([P1] and [P2] are moved onto [P4] and [P6], the new knot has the
    handles [P7] and [P8]). *)
Theorem knotInsertion_segments (s : canvas) (i : nat) (K0 K1 P1 P2 : ref)
    (p0 p1 p2 p3 : Point number) (t : number) :
  NoDup (constructionPoints s) -> bounded s -> resettable s ->
  constructionPoints s !! i = Some K0 -> constructionPoints s !! S i = Some K1 ->
  store s !! K0 = Some p0 -> store s !! K1 = Some p3 ->
  match handler2 p0 with Some h => Some h | None => handler1 p0 end = Some P1 ->
  handler1 p3 = Some P2 ->
  store s !! P1 = Some p1 -> store s !! P2 = Some p2 ->
  NoDup [K0; P1; P2; K1] ->
  let P4 := weighted p0 p1 t in
  let P5 := weighted p1 p2 t in
  let P6 := weighted p2 p3 t in
  let P7 := weighted P4 P5 t in
  let P8 := weighted P5 P6 t in
  let P9 := weighted P7 P8 t in
  let N := new_ConstructionPoint (x P9) (y P9) in
  exists s1,
    knotInsertion t (Some K0) (Some P1) (Some P2) (Some K1) s = (Some tt, s1)
    /\ constructionPoints s1
       = take (S i) (constructionPoints s)
         ++ Point_count s :: drop (S i) (constructionPoints s)
    /\ currentMovingPoint s1 = Some (Point_count s)
    /\ segment_points s1 i = Some [xy p0; xy P4; xy P7; xy N]
    /\ segment_points s1 (S i) = Some [xy N; xy P8; xy P6; xy p3].
Proof.
  intros Hnd Hb Hres Hi HSi HK0 HK1 HP1 HP2 Hp1 Hp2 Hd
    P4 P5 P6 P7 P8 P9 N.
  set (n := Point_count s).
  assert (forall (r : ref) (p : Point number),
            store s !! r = Some p -> (r < n)%nat) as Hlt.
  { intros r p Hr. apply Hb. by rewrite Hr. }
  pose proof (Hlt _ _ HK0). pose proof (Hlt _ _ HK1).
  pose proof (Hlt _ _ Hp1). pose proof (Hlt _ _ Hp2).
  assert (K0 <> P1 /\ K0 <> P2 /\ K0 <> K1 /\ P1 <> P2 /\ P1 <> K1 /\ P2 <> K1)
    as (? & ? & ? & ? & ? & ?).
  { rewrite !NoDup_cons, !not_elem_of_cons in Hd. intuition congruence. }
  assert (S i < length (constructionPoints s))%nat as Hlen
    by (by eapply lookup_lt_Some).
  destruct (knotInsertion_run s i K0 K1 P1 P2 p0 p1 p2 p3 t)
    as (σ & Hgeo & Hrun1); try done.
  fold n P4 P5 P6 P7 P8 P9 N in Hgeo, Hrun1.
  set (σa := alter _ n (<[n:=N]> (store s))) in Hgeo.
  destruct (same_geometry_lookup σa σ K0 p0 Hgeo)
    as (p0' & Hp0' & Ex0 & Ey0 & _ & Ec0); [unfold σa; lk; done|].
  destruct (same_geometry_lookup σa σ K1 p3 Hgeo)
    as (p3' & Hp3' & Ex3 & Ey3 & _ & Ec3); [unfold σa; lk; done|].
  destruct (same_geometry_lookup σa σ P1 p1 Hgeo)
    as (p1' & Hp1' & Ex1 & Ey1 & _ & Ec1); [unfold σa; lk; done|].
  destruct (same_geometry_lookup σa σ P2 p2 Hgeo)
    as (p2' & Hp2' & Ex2 & Ey2 & _ & Ec2); [unfold σa; lk; done|].
  destruct (same_geometry_lookup σa σ n
              (set_construction
                 (fun c => mkConstruction (_handler1 c) (_handler2 c) true) N) Hgeo)
    as (N' & HN' & ExN & EyN & _ & EcN); [unfold σa; lk; done|].
  destruct (handlers_construction _ _ Ec0) as (Eh10 & Eh20 & _).
  destruct (handlers_construction _ _ Ec3) as (Eh13 & _ & _).
  set (σ1 := inserted_store σ n P1 P2 P4 P6 P7 P8) in *.
  assert (σ1 !! K0 = Some p0') as H1K0 by (unfold σ1, inserted_store; lk; done).
  assert (σ1 !! K1 = Some p3') as H1K1 by (unfold σ1, inserted_store; lk; done).
  assert (σ1 !! P1 = Some (set_y (y P4) (set_x (x P4) p1'))) as H1P1.
  { unfold σ1, inserted_store. lk. by rewrite Hp1'. }
  assert (σ1 !! P2 = Some (set_y (y P6) (set_x (x P6) p2'))) as H1P2.
  { unfold σ1, inserted_store. lk. by rewrite Hp2'. }
  assert (σ1 !! S n = Some (set_parent (Some n) P7)) as H1h1.
  { unfold σ1, inserted_store. lk. reflexivity. }
  assert (σ1 !! S (S n) = Some (set_parent (Some n) P8)) as H1h2.
  { unfold σ1, inserted_store. lk. reflexivity. }
  set (qn := set_construction
               (fun c => mkConstruction (_handler1 c) (Some (S (S n)))
                           (fromCasteljau c))
               (set_construction
                  (fun c => mkConstruction (Some (S n)) (_handler2 c)
                              (fromCasteljau c))
                  (set_active true N'))).
  assert (σ1 !! n = Some qn) as H1n.
  { unfold σ1, inserted_store. lk. by rewrite HN'. }
  assert (construction N'
          = Some (mkConstruction None None true)) as EN by (by rewrite EcN).
  assert (handler1 qn = Some (S n) /\ handler2 qn = Some (S (S n)))
    as (Hqn1 & Hqn2).
  { unfold qn, handler1, handler2. simpl. by rewrite EN. }
  assert (xy qn = xy N) as Exyn
    by (unfold xy, qn; simpl; rewrite ExN, EyN; reflexivity).
  assert (xy p0' = xy p0) as Exy0 by (unfold xy; congruence).
  assert (xy p3' = xy p3) as Exy3 by (unfold xy; congruence).
  clearbody qn.
  destruct (splice_insert_lookup (i + 1) n (constructionPoints s))
    as (Hat & Hbefore & Hafter); [lia|].
  replace (i + 1)%nat with (S i) in * by lia.
  eexists. split; [exact Hrun1|]. state_simpl.
  split; [reflexivity|]. split; [reflexivity|]. split.
  - rewrite <- Exy0, <- Exyn.
    apply (segment_points_intro _ i K0 n P1 (S n) p0'
             (set_y (y P4) (set_x (x P4) p1')) (set_parent (Some n) P7) qn);
      state_simpl; try done.
    + rewrite Hbefore by lia. done.
    + by rewrite Eh20, Eh10.
  - rewrite <- Exy3, <- Exyn.
    apply (segment_points_intro _ (S i) n K1 (S (S n)) P2 qn
             (set_parent (Some n) P8) (set_y (y P6) (set_x (x P6) p2')) p3');
      state_simpl; try done.
    + rewrite Hafter by lia. done.
    + by rewrite Hqn2.
    + by rewrite Eh13.
Qed.

End InsertionSegments.

(** ** The editor with its history *)

Section SessionProofs.
Context `{JSNumber number} {Hash : Type} `{EqDecision Hash}.
Variable JSON_stringify : list (PointRecord number) -> Hash.
Import HistoryManagerAbstract.
Local Abbreviation session := (Session number Hash).

Lemma setPoints_from_getPoints (points : list (PointRecord number))
    (s : BezierCanvas number) :
  exists s',
    setPoints_from points (snd (reset s)) = (Some tt, s')
    /\ getPoints s' = (Some (round_record <$> points), s')
    /\ getPoints (snd (mouseUp s'))
       = (Some (round_record <$> points), snd (mouseUp s')).
Proof.
  destruct (setPoints_from_spec points (snd (reset s)) [])
    as (s' & Hrun & Hall & _); [constructor|].
  exists s'. split; [done|]. simpl in Hall.
  assert (Forall2 (fun r rec => export_knot (store s') r = Some rec)
            (constructionPoints s') (round_record <$> points)) as Hexp.
  { eapply Forall2_impl; [exact Hall|]. by intros ? ? [? _]. }
  split; by apply getPoints_export.
Qed.

(** X15: an undo on a non-empty history does not throw, puts the state below
    the cursor (the oldest at the bottom) on the editor, every coordinate
    rounded, and empties the history: [applyHistoryState] is [setPoints],
    which starts with [reset()], which calls [historyReset()].  A redo
    right after it finds the stack empty and does nothing. *)
Theorem undo_resets_history (z : session) :
  statesStack (history z) <> [] ->
  let c := Z.to_nat (Z.max 0 (Z.min (Z.of_nat (length (statesStack (history z))) - 1)
                                (statesCursor (history z) - 1))) in
  exists (points : list (PointRecord number)) (z' : session),
    statesStack (history z) !! c = Some points
    /\ session_statesBackward z = (Some tt, z')
    /\ getPoints (editor z') = (Some (round_record <$> points), editor z')
    /\ statesStack (history z') = []
    /\ statesCursor (history z') = 0%Z
    /\ lastHistoryStateHash (history z') = None
    /\ session_statesForward z' = (Some tt, z').
Proof.
  intros Hne c.
  assert (c < length (statesStack (history z)))%nat as Hc.
  { unfold c. destruct (statesStack (history z)); [done|]. simpl in *. lia. }
  destruct (lookup_lt_is_Some_2 _ _ Hc) as [points Hpoints].
  destruct (setPoints_from_getPoints points (editor z)) as (s' & Hrun & Hget & _).
  assert (statesBackward (history z)
          = (safeStatesCursor (statesCursor (history z) - 1) (history z),
             Some points)) as Hback.
  { unfold statesBackward. rewrite bool_decide_eq_false_2 by done. cbv zeta.
    f_equal. unfold safeStatesCursor. simpl. exact Hpoints. }
  exists points,
    (mkSession s' (historyReset
                     (safeStatesCursor (statesCursor (history z) - 1) (history z)))).
  split; [done|].
  unfold session_statesBackward, session_statesForward.
  rewrite bool_decide_eq_false_2 by done. cbv zeta. rewrite Hback.
  cbn [fst snd applyHistoryState]. unfold session_setPoints.
  cbn [editor history session_reset]. rewrite Hrun. cbn [fst snd].
  repeat split; try done.
Qed.

(** X16: after an undo and the next mouseup the history holds one state, the
    restored one: the states that were above and below it are gone. *)
Theorem undo_then_mouseUp (z : session) :
  statesStack (history z) <> [] ->
  let c := Z.to_nat (Z.max 0 (Z.min (Z.of_nat (length (statesStack (history z))) - 1)
                                (statesCursor (history z) - 1))) in
  exists (points : list (PointRecord number)) (z1 z2 : session),
    statesStack (history z) !! c = Some points
    /\ session_statesBackward z = (Some tt, z1)
    /\ session_mouseUp JSON_stringify z1 = (Some tt, z2)
    /\ statesStack (history z2) = [round_record <$> points]
    /\ statesCursor (history z2) = 0%Z.
Proof.
  intros Hne c.
  assert (c < length (statesStack (history z)))%nat as Hc.
  { unfold c. destruct (statesStack (history z)); [done|]. simpl in *. lia. }
  destruct (lookup_lt_is_Some_2 _ _ Hc) as [points Hpoints].
  destruct (setPoints_from_getPoints points (editor z)) as (s' & Hrun & _ & Hget).
  assert (statesBackward (history z)
          = (safeStatesCursor (statesCursor (history z) - 1) (history z),
             Some points)) as Hback.
  { unfold statesBackward. rewrite bool_decide_eq_false_2 by done. cbv zeta.
    f_equal. unfold safeStatesCursor. simpl. exact Hpoints. }
  eexists points, _, _. split; [done|]. split.
  { unfold session_statesBackward.
    rewrite bool_decide_eq_false_2 by done. cbv zeta. rewrite Hback.
    cbn [fst snd applyHistoryState]. unfold session_setPoints.
    cbn [editor history session_reset]. rewrite Hrun. reflexivity. }
  unfold session_mouseUp. cbn [editor history fst snd]. rewrite Hget.
  split; [reflexivity|]. cbn [history].
  unfold pushHistoryStateIfChanged, historyReset.
  cbn [lastHistoryStateHash].
  rewrite bool_decide_eq_true_2 by done.
  unfold pushHistoryState, slice_to.
  cbn [statesCursor statesStack historySize lastHistoryStateHash].
  change (0 + 1 <? 0)%Z with false. cbv iota. rewrite take_nil.
  cbn [length].
  match goal with
  | |- context [(?a =? ?b)%Z] => destruct (a =? b)%Z
  end; by cbn.
Qed.

End SessionProofs.

Lemma undo_resets_history_witness :
  let state := [mkRecord (XR 1) (XR 2) (XR 3, XR 4) None] in
  let z := mkSession (Hash := nat) arch
             (HistoryManagerAbstract.mk 0 [state] None 50) in
  exists (points : list (PointRecord xreal)) (z' : Session xreal nat),
    [state] !! O = Some points
    /\ session_statesBackward z = (Some tt, z')
    /\ getPoints (editor z') = (Some (round_record <$> points), editor z')
    /\ HistoryManagerAbstract.statesStack (history z') = []
    /\ HistoryManagerAbstract.statesCursor (history z') = 0%Z
    /\ HistoryManagerAbstract.lastHistoryStateHash (history z') = None
    /\ session_statesForward z' = (Some tt, z').
Proof.
  intros state z. apply (undo_resets_history z). discriminate.
Defined.

Lemma undo_then_mouseUp_witness :
  let state := [mkRecord (XR 1) (XR 2) (XR 3, XR 4) None] in
  let z := mkSession (Hash := nat) arch
             (HistoryManagerAbstract.mk 0 [state] None 50) in
  exists (points : list (PointRecord xreal)) (z1 z2 : Session xreal nat),
    [state] !! O = Some points
    /\ session_statesBackward z = (Some tt, z1)
    /\ session_mouseUp (fun _ => O) z1 = (Some tt, z2)
    /\ HistoryManagerAbstract.statesStack (history z2) = [round_record <$> points]
    /\ HistoryManagerAbstract.statesCursor (history z2) = 0%Z.
Proof.
  intros state z. apply (undo_then_mouseUp (fun _ => O) z). discriminate.
Defined.

(** ** Handles, tangents and removal *)

Section Handles.
Context `{JSNumber number}.
Local Abbreviation M := (M number).
Local Abbreviation canvas := (BezierCanvas number).

Lemma run_deref_opt {A} (r : ref) (p : Point number) (k : Point number -> M A)
    (s : canvas) :
  store s !! r = Some p -> (deref_opt (Some r) ≫= k) s = k p s.
Proof. apply run_deref. Qed.

Lemma run_update_opt {A} (r : ref) (f : Point number -> Point number)
    (k : unit -> M A) (s : canvas) :
  (update_opt (Some r) f ≫= k) s = k tt (set_store (alter f r (store s)) s).
Proof. apply run_update. Qed.




End Handles.

Section ExactMirroring.
Local Open Scope R_scope.



End ExactMirroring.

Section OrdinaryRemoval.
Context `{JSNumber number}.
Local Abbreviation M := (M number).
Local Abbreviation canvas := (BezierCanvas number).

Lemma removal_scan_index (s : canvas) (point : ref) (i : nat) :
  NoDup (constructionPoints s) ->
  constructionPoints s !! i = Some point ->
  (forall r, r ∈ constructionPoints s -> is_Some (store s !! r)) ->
  exists found,
    removal_scan point s = (Some found, s) /\ foundIndex found = Some i.
Proof.
  intros Hnd Hi Hex.
  assert (i < length (constructionPoints s))%nat as Hlen
    by (by eapply lookup_lt_Some).
  assert (exists found,
            forEach_from 1 i (fun curPoint index acc =>
              if bool_decide (curPoint = point) then
                s ← get_canvas;
                let P0 := at_index (constructionPoints s) (Z.of_nat index - 1) in
                P1 ← match P0 with
                     | Some r0 =>
                         p0 ← deref r0;
                         mret (match handler2 p0 with
                               | Some h => Some h
                               | None => handler1 p0
                               end)
                     | None => mret None
                     end;
                let P3 := at_index (constructionPoints s) (Z.of_nat index + 1) in
                P2 ← match P3 with
                     | Some r3 => p3 ← deref r3; mret (handler1 p3)
                     | None => mret None
                     end;
                mret (mkRemoval (Some index) (Some curPoint) P0 P1 P2 P3)
              else mret acc) (mkRemoval None None None None None None) s
            = (Some found, s) /\ foundIndex found = Some i) as (found & Hone & Hidx).
  { rewrite (forEach_from_one i _ _ _ point) by done.
    rewrite bool_decide_eq_true_2 by done.
    rewrite run_get. cbv zeta.
    destruct (at_index (constructionPoints s) (Z.of_nat i - 1)) as [r0|] eqn:E0.
    - destruct (Hex r0) as [p0 Hp0].
      { unfold at_index in E0. destruct (_ <? _)%Z; [done|].
        by eapply list_elem_of_lookup_2. }
      rewrite run_assoc, (run_deref r0 p0), run_ret by done.
      destruct (at_index (constructionPoints s) (Z.of_nat i + 1)) as [r3|] eqn:E3.
      + destruct (Hex r3) as [p3 Hp3].
        { unfold at_index in E3. destruct (_ <? _)%Z; [done|].
          by eapply list_elem_of_lookup_2. }
        rewrite run_assoc, (run_deref r3 p3), run_ret by done.
        eexists. split; reflexivity.
      + rewrite run_ret. eexists. split; reflexivity.
    - rewrite run_ret.
      destruct (at_index (constructionPoints s) (Z.of_nat i + 1)) as [r3|] eqn:E3.
      + destruct (Hex r3) as [p3 Hp3].
        { unfold at_index in E3. destruct (_ <? _)%Z; [done|].
          by eapply list_elem_of_lookup_2. }
        rewrite run_assoc, (run_deref r3 p3), run_ret by done.
        eexists. split; reflexivity.
      + rewrite run_ret. eexists. split; reflexivity. }
  exists found. split; [|done].
  unfold removal_scan. rewrite (forEach_split i) by done.
  erewrite run_bind; cycle 1.
  { apply forEach_from_idle. intros j r Hj Hr.
    rewrite bool_decide_eq_false_2; [done|].
    intros ->. assert (j = i) by (by eapply NoDup_lookup). lia. }
  erewrite run_bind; [|exact Hone].
  apply forEach_from_idle. intros j r Hj Hr.
  rewrite bool_decide_eq_false_2; [done|].
  intros ->. assert (j = i) by (by eapply NoDup_lookup). lia.
Qed.

(** The removal of a knot that did not come from a subdivision, up to the
    treatment of the end knots. *)
Lemma removeConstructionPoint_splice (s : canvas) (i : nat) (point : ref)
    (pointObj : Point number) :
  NoDup (constructionPoints s) ->
  constructionPoints s !! i = Some point ->
  (forall r, r ∈ constructionPoints s -> is_Some (store s !! r)) ->
  store s !! point = Some pointObj -> get_fromCasteljau pointObj = false ->
  removeConstructionPoint point s
  = keepOneHandlerAtEnds
      (mkCanvas (store s) (Point_count s) (delete i (constructionPoints s))
         (if bool_decide (currentMovingPoint s = Some point)
          then None else currentMovingPoint s)
         (isMouseDown s) (ctrlKeyIsDown s)
         (mouseReleaseAfterConstructionPointCreation s) (options s)).
Proof.
  intros Hnd Hi Hex Hp Hfc.
  unfold removeConstructionPoint. rewrite run_get.
  set (st := mkCanvas (store s) (Point_count s) (constructionPoints s)
               (if bool_decide (currentMovingPoint s = Some point)
                then None else currentMovingPoint s)
               (isMouseDown s) (ctrlKeyIsDown s)
               (mouseReleaseAfterConstructionPointCreation s) (options s)).
  destruct (removal_scan_index st point i Hnd Hi Hex) as (found & Hscan & Hidx).
  assert (forall {A} (k : unit -> M A),
            ((if bool_decide (currentMovingPoint s = Some point)
              then modify (set_currentMovingPoint None) else mret tt) ≫= k) s
            = k tt st) as Hfirst.
  { intros A k. unfold st. destruct (bool_decide _).
    - rewrite run_modify. reflexivity.
    - rewrite run_ret. by destruct s. }
  rewrite Hfirst. rewrite (run_bind _ _ _ _ _ Hscan).
  rewrite (run_deref point pointObj) by done. rewrite Hfc.
  case_guard; [done|].
  cbn [mthrow option_mfail].
  cbn beta iota. rewrite run_ret, run_modify, Hidx. reflexivity.
Qed.

(** X19: in natural draw mode, the removal of a knot that did not come from a
    subdivision takes that knot out of the spline and changes nothing else:
    no object of the store is touched, the other knots keep their order,
    and the moving point is cleared only if it was the removed knot. *)
Theorem removeConstructionPoint_ordinary (s : canvas) (i : nat) (point : ref)
    (pointObj : Point number) :
  NoDup (constructionPoints s) ->
  constructionPoints s !! i = Some point ->
  (forall r, r ∈ constructionPoints s -> is_Some (store s !! r)) ->
  store s !! point = Some pointObj -> get_fromCasteljau pointObj = false ->
  naturalDrawMode (options s) = true ->
  removeConstructionPoint point s
  = (Some tt,
     mkCanvas (store s) (Point_count s) (delete i (constructionPoints s))
       (if bool_decide (currentMovingPoint s = Some point)
        then None else currentMovingPoint s)
       (isMouseDown s) (ctrlKeyIsDown s)
       (mouseReleaseAfterConstructionPointCreation s) (options s)).
Proof.
  intros Hnd Hi Hex Hp Hfc Hnat.
  rewrite (removeConstructionPoint_splice s i point pointObj) by done.
  unfold keepOneHandlerAtEnds. rewrite run_get.
  cbn [constructionPoints options]. rewrite Hnat. cbn [negb].
  by destruct (delete i (constructionPoints s) !! O),
       (last (delete i (constructionPoints s))).
Qed.

End OrdinaryRemoval.

Section NormalModeRemoval.
Context `{JSNumber number}.
Local Abbreviation M := (M number).
Local Abbreviation canvas := (BezierCanvas number).

(** [keepOneHandlerAtEnds] outside natural draw mode, on a spline that is
    not empty: the first knot's second handle, if any, is cloned into its
    first handle and dropped, and the last knot's second handle is
    dropped. *)
Lemma keepOneHandlerAtEnds_run (s : canvas) (first final : ref)
    (firstObj : Point number) :
  naturalDrawMode (options s) = false -> bounded s ->
  constructionPoints s !! O = Some first ->
  last (constructionPoints s) = Some final ->
  store s !! first = Some firstObj -> is_Some (store s !! final) ->
  (forall h, handler2 firstObj = Some h -> is_Some (store s !! h)) ->
  exists s',
    keepOneHandlerAtEnds s = (Some tt, s')
    /\ constructionPoints s' = constructionPoints s
    /\ currentMovingPoint s' = currentMovingPoint s
    /\ (forall r p, store s' !! r = Some p -> r = first \/ r = final ->
          handler2 p = None)
    /\ (forall r p, store s !! r = Some p ->
          exists p', store s' !! r = Some p' /\ xy p' = xy p
                     /\ (r <> first -> handler1 p' = handler1 p))
    /\ (forall h hObj, handler2 firstObj = Some h -> store s !! h = Some hObj ->
          exists p' clone,
            store s' !! first = Some p'
            /\ handler1 p' = Some (Point_count s)
            /\ store s' !! Point_count s = Some clone
            /\ parent clone = Some first
            /\ xy clone = xy (new_Point (x hObj) (y hObj)))
    /\ (handler2 firstObj = None -> Point_count s' = Point_count s
        /\ forall p', store s' !! first = Some p' ->
                      handler1 p' = handler1 firstObj).
Proof.
  intros Hnat Hb Hfirst Hfinal Hobj Hfobj Hh2.
  set (n := Point_count s).
  assert (final < n)%nat as Hln by (by apply Hb).
  assert (forall r p, store s !! r = Some p -> (r < n)%nat) as Hold.
  { intros r p Hp. apply Hb. by rewrite Hp. }
  assert (first < n)%nat as Hfn by (by eapply Hold).
  unfold keepOneHandlerAtEnds. rewrite run_get, Hfirst, Hfinal, Hnat.
  cbn [negb]. rewrite (run_deref first firstObj) by done.
  destruct firstObj as [fx fy fa fp fc]. 
  destruct (handler2 (mkPoint fx fy fa fp fc)) as [h|] eqn:Eh.
  - destruct (Hh2 h eq_refl) as [hObj EhObj].
    assert (h < n)%nat as Hhn by (by eapply Hold).
    destruct fc as [c|]; [|done].
    rewrite run_assoc, (run_deref h hObj) by done.
    run_steps. fold n.
    eexists. split.
    { unfold set_handler2, update, modify. state_simpl. reflexivity. }
    state_simpl. split; [done|]. split; [done|]. split.
    { intros r p Hp [->| ->].
      - destruct (decide (first = final)) as [<-|Hne].
        + revert Hp. lk. rewrite Hobj. by intros [= <-].
        + revert Hp. lk. rewrite Hobj. by intros [= <-].
      - destruct (decide (first = final)) as [<-|Hne].
        + revert Hp. lk. rewrite Hobj. by intros [= <-].
        + revert Hp. rewrite lookup_alter_eq.
          match goal with
          | |- _ <$> ?o = _ -> _ => destruct o as [q|]; [|done]
          end.
          cbn [fmap option_fmap option_map]. intros [= <-].
          unfold handler2. cbn. by destruct (construction q). }
    split.
    { intros r p Hp. assert (r < n)%nat as Hr by (by eapply Hold).
      destruct (decide (r = first)) as [->|Hr1].
      - rewrite Hobj in Hp. injection Hp as <-.
        destruct (decide (first = final)) as [<-|Hne].
        + eexists. split; [lk; rewrite Hobj; reflexivity|done].
        + eexists. split; [lk; rewrite Hobj; reflexivity|done].
      - destruct (decide (r = final)) as [->|Hrf].
        + eexists. split; [lk; rewrite Hp; reflexivity|].
          split; [done|]. intros _. unfold handler1. cbn.
          by destruct (construction p).
        + exists p. split; [by lk|done]. }
    split.
    { intros h0 hObj0 [= <-] EhObj0. rewrite EhObj in EhObj0.
      injection EhObj0 as <-.
      fold n. destruct (decide (first = final)) as [<-|Hne].
      - eexists _, _. split; [lk; rewrite Hobj; reflexivity|].
        split; [reflexivity|]. split; [by lk|]. done.
      - eexists _, _. split; [lk; rewrite Hobj; reflexivity|].
        split; [reflexivity|]. split; [by lk|]. done. }
    done.
  - rewrite run_ret.
    eexists. split.
    { unfold set_handler2, update, modify. state_simpl. reflexivity. }
    state_simpl. split; [done|]. split; [done|]. split.
    { intros r p Hp [->| ->].
      - destruct (decide (first = final)) as [<-|Hne].
        + revert Hp. lk. rewrite Hobj. intros [= <-].
          unfold handler2 in *. cbn in *. by destruct fc.
        + revert Hp. lk. rewrite Hobj. by intros [= <-].
      - revert Hp. rewrite lookup_alter_eq.
        match goal with
        | |- _ <$> ?o = _ -> _ => destruct o as [q|]; [|done]
        end.
        cbn [fmap option_fmap option_map]. intros [= <-].
        unfold handler2. cbn. by destruct (construction q). }
    split.
    { intros r p Hp.
      destruct (decide (r = final)) as [->|Hrf].
      - eexists. split; [lk; rewrite Hp; reflexivity|].
        split; [done|]. intros _. unfold handler1. cbn.
        by destruct (construction p).
      - exists p. split; [by lk|done]. }
    split; [done|]. intros _. split; [done|].
    intros p'. destruct (decide (first = final)) as [<-|Hne].
    + lk. rewrite Hobj. intros [= <-]. unfold handler1. cbn. by destruct fc.
    + lk. rewrite Hobj. by intros [= <-].
Qed.

(** X20: outside natural draw mode, the removal of a knot that did not come
    from a subdivision takes that knot out of the spline and then leaves
    the end knots with one handle: the first and the last of the remaining
    knots have no second handle afterwards.  No coordinate of a point that
    was there changes; a first knot that had a second handle gets a fresh
    first handle, a clone of the second one. *)
Theorem removeConstructionPoint_single_handle_ends (s : canvas) (i : nat)
    (point : ref) (pointObj : Point number) :
  naturalDrawMode (options s) = false ->
  NoDup (constructionPoints s) -> bounded s -> knots_exist s ->
  constructionPoints s !! i = Some point ->
  store s !! point = Some pointObj -> get_fromCasteljau pointObj = false ->
  exists s',
    removeConstructionPoint point s = (Some tt, s')
    /\ constructionPoints s' = delete i (constructionPoints s)
    /\ (forall r p,
          constructionPoints s' !! O = Some r \/ last (constructionPoints s') = Some r ->
          store s' !! r = Some p -> handler2 p = None)
    /\ (forall r p, store s !! r = Some p ->
          exists p', store s' !! r = Some p' /\ xy p' = xy p)
    /\ (forall first firstObj h hObj,
          constructionPoints s' !! O = Some first ->
          store s !! first = Some firstObj -> handler2 firstObj = Some h ->
          store s !! h = Some hObj ->
          exists p' clone,
            store s' !! first = Some p'
            /\ handler1 p' = Some (Point_count s)
            /\ store s' !! Point_count s = Some clone
            /\ parent clone = Some first
            /\ xy clone = xy (new_Point (x hObj) (y hObj))).
Proof.
  intros Hnat Hnd Hb Hk Hi Hp Hfc.
  rewrite (removeConstructionPoint_splice s i point pointObj); try done; cycle 1.
  { intros r Hr. destruct (Hk r Hr) as (p & -> & _). by eexists. }
  set (st := mkCanvas _ _ _ _ _ _ _ _).
  assert (forall r, r ∈ delete i (constructionPoints s) ->
                    r ∈ constructionPoints s) as Hsub.
  { intros r Hr. eapply elem_of_sublist; [exact Hr|apply sublist_delete]. }
  destruct (delete i (constructionPoints s) !! O) as [first|] eqn:Efirst.
  - destruct (last (delete i (constructionPoints s))) as [final|] eqn:Efinal;
      cycle 1.
    { apply last_None in Efinal. by rewrite Efinal in Efirst. }
    destruct (Hk first) as (firstObj & Hobj & Hh2);
      [by eapply Hsub, list_elem_of_lookup_2|].
    destruct (Hk final) as (finalObj & Hfobj & _);
      [by eapply Hsub, last_Some_elem_of|].
    destruct (keepOneHandlerAtEnds_run st first final firstObj Hnat Hb
                Efirst Efinal Hobj (mk_is_Some _ _ Hfobj) Hh2)
      as (s' & Hrun & Hcps & _ & Hends & Hxy & Hclone & _).
    exists s'. split; [exact Hrun|]. split; [exact Hcps|]. split.
    { intros r p Hr Hrp. apply (Hends r p Hrp).
      rewrite Hcps in Hr. cbn [st constructionPoints] in Hr.
      rewrite Efirst, Efinal in Hr. destruct Hr as [[= ->]|[= ->]]; auto. }
    split.
    { intros r p Hrp. destruct (Hxy r p Hrp) as (p' & Hp' & Exy & _).
      by exists p'. }
    intros first0 firstObj0 h hObj Hfirst0 Hobj0 Eh EhObj.
    rewrite Hcps in Hfirst0. cbn [st constructionPoints] in Hfirst0.
    rewrite Efirst in Hfirst0. injection Hfirst0 as <-.
    assert (firstObj0 = firstObj) as -> by congruence.
    exact (Hclone h hObj Eh EhObj).
  - exists st. split.
    { unfold keepOneHandlerAtEnds. rewrite run_get.
      cbn [st constructionPoints]. by rewrite Efirst. }
    cbn [st constructionPoints store]. split; [done|]. split.
    { intros r p [Hr|Hr] _; [by rewrite Efirst in Hr|].
      apply last_Some_elem_of, list_elem_of_lookup_1 in Hr as [j Hj].
      destruct (delete i (constructionPoints s)); [done|done]. }
    split; [by eauto|].
    intros first firstObj h hObj Hfirst. by rewrite Efirst in Hfirst.
Qed.

End NormalModeRemoval.

(** ** The projection onto the spline *)

Section Projection.
Context `{JSNumber number}.
Local Abbreviation M := (M number).
Local Abbreviation canvas := (BezierCanvas number).


(** A loop that returns leaves the state alone and keeps what its callback
    keeps. *)
Lemma forEach_from_returns {A} (I : A -> Prop) (n k : nat)
    (cb : ref -> nat -> A -> M A) (acc : A) (s : canvas) :
  I acc ->
  (forall j r a a' s', constructionPoints s !! j = Some r -> I a ->
     cb r j a s = (Some a', s') -> s' = s /\ I a') ->
  forall a' s', forEach_from n k cb acc s = (Some a', s') -> s' = s /\ I a'.
Proof.
  intros Hacc Hcb. revert k acc Hacc.
  induction n as [|n IH]; intros k acc Hacc a' s' Hrun; simpl in Hrun.
  - by injection Hrun as <- <-.
  - unfold mbind, M_bind, get_canvas in Hrun. simpl in Hrun.
    destruct (constructionPoints s !! k) as [r|] eqn:E.
    + destruct (cb r k acc s) as [[a1|] s1] eqn:Ecb; [|done].
      destruct (Hcb k r acc a1 s1 E Hacc Ecb) as [-> Ha1].
      by apply (IH (S k) a1).
    + by apply (IH (S k) acc).
Qed.

(** A loop whose callback returns without changing the state returns, and
    keeps what the callback keeps. *)
Lemma forEach_from_total {A} (I : nat -> A -> Prop) (n k : nat)
    (cb : ref -> nat -> A -> M A) (acc : A) (s : canvas) :
  I k acc ->
  (forall j a, I j a ->
     match constructionPoints s !! j with
     | Some r => exists a', cb r j a s = (Some a', s) /\ I (S j) a'
     | None => I (S j) a
     end) ->
  exists a', forEach_from n k cb acc s = (Some a', s) /\ I (k + n)%nat a'.
Proof.
  intros Hacc Hcb. revert k acc Hacc.
  induction n as [|n IH]; intros k acc Hacc; simpl.
  - exists acc. by rewrite Nat.add_0_r.
  - unfold mbind, M_bind, get_canvas. simpl.
    specialize (Hcb k acc Hacc).
    replace (k + S n)%nat with (S k + n)%nat by lia.
    destruct (constructionPoints s !! k) as [r|].
    + destruct Hcb as (a1 & -> & Ha1). by apply IH.
    + by apply IH.
Qed.

Lemma deref_returns {A} (r : ref) (k : Point number -> M A) (s s' : canvas)
    (res : A) :
  (deref r ≫= k) s = (Some res, s') ->
  exists p, store s !! r = Some p /\ k p s = (Some res, s').
Proof.
  unfold deref, mbind, M_bind. destruct (store s !! r) as [p|]; [|done].
  intros Hk. by exists p.
Qed.

Lemma deref_opt_returns {A} (o : option ref) (k : Point number -> M A)
    (s s' : canvas) (res : A) :
  (deref_opt o ≫= k) s = (Some res, s') ->
  exists h p, o = Some h /\ store s !! h = Some p /\ k p s = (Some res, s').
Proof.
  destruct o as [h|]; [|done]. cbn [deref_opt].
  intros Hk. apply deref_returns in Hk as (p & Hp & Hk). by exists h, p.
Qed.

Lemma projection_fold (s : canvas) (clickPosition : Point number) (index : nat)
    (k0 k3 : ref) (r1 r2 : option ref) (p0 p1 p2 p3 : Point number)
    (l : list nat) (acc : @ProjectionLocals number) :
  segment_controls s index = Some ((Some k0, r1, r2, Some k3), (p0, p1, p2, p3)) ->
  Forall (fun i => (i <= 100)%nat) l ->
  (forall q, projection_result acc = Some q -> projects s clickPosition q) ->
  forall q,
    projection_result
      (foldl (projection_step (maxDistance (options s)) clickPosition index
                (Some k0) r1 r2 (Some k3) p0 p1 p2 p3) acc l) = Some q ->
    projects s clickPosition q.
Proof.
  intros Hseg Hl. revert acc. induction Hl as [|i l Hi Hl IH]; intros acc Hacc.
  - exact Hacc.
  - cbn [foldl]. apply IH. unfold projection_step.
    destruct (_ && _) eqn:Hcond; [|exact Hacc].
    apply andb_true_iff in Hcond as [Hreach _].
    intros q [= <-]. exists index, i, p0, p1, p2, p3.
    cbn [on_P0 on_P1 on_P2 on_P3 on_position on_t on_point on_distance default].
    by repeat split.
Qed.

(** The loop of [findPointOnSpline]: when it returns, the state is the one
    it started in and the locals describe a sample within reach. *)
Lemma projection_loop_returns (s s' : canvas) (clickPosition : Point number)
    (found : @ProjectionLocals number) :
  forEach (fun currentPoint index acc =>
    s ← get_canvas;
    match constructionPoints s !! S index with
    | None => mret acc
    | Some nextPoint =>
        p0 ← deref currentPoint;
        let r1 := match handler2 p0 with
                  | Some h => Some h
                  | None => handler1 p0
                  end in
        p1 ← deref_opt r1;
        p3 ← deref nextPoint;
        p2 ← deref_opt (handler1 p3);
        mret (foldl (projection_step (maxDistance (options s)) clickPosition
                       index (Some currentPoint) r1 (handler1 p3)
                       (Some nextPoint) p0 p1 p2 p3)
                    acc (seq 0 101))
    end)
    (mkProjection None NaN None NaN None None None None) s
  = (Some found, s') ->
  s' = s /\ forall q, projection_result found = Some q ->
                      projects s clickPosition q.
Proof.
  unfold forEach. rewrite run_get. intros Eloop.
  apply (forEach_from_returns
           (fun a => forall q, projection_result a = Some q ->
                               projects s clickPosition q)) in Eloop.
  - exact Eloop.
  - by intros q'.
  - clear. intros j k0 a a' s' Hj Ha. rewrite run_get.
    destruct (constructionPoints s !! S j) as [k3|] eqn:Ek3.
    { intros Hrun. apply deref_returns in Hrun as (p0 & Ep0 & Hrun).
      set (r1 := match handler2 p0 with Some h => Some h | None => handler1 p0 end)
        in *.
      apply deref_opt_returns in Hrun as (h1 & p1 & Er1 & Ep1 & Hrun).
      apply deref_returns in Hrun as (p3 & Ep3 & Hrun).
      apply deref_opt_returns in Hrun as (h2 & p2 & Er2 & Ep2 & Hrun).
      unfold mret, M_ret in Hrun. apply pair_equal_spec in Hrun as [Ha' <-].
      apply (inj Some) in Ha'. subst a'. split; [done|].
      apply (projection_fold s _ j k0 k3 r1 (handler1 p3) p0 p1 p2 p3).
      - unfold segment_controls. rewrite Hj, Ek3. cbn [mbind option_bind].
        rewrite Ep0. cbn [mbind option_bind]. fold r1. rewrite Er1.
        cbn [mbind option_bind]. rewrite Ep1, Ep3. cbn [mbind option_bind].
        rewrite Er2. cbn [mbind option_bind]. by rewrite Ep2.
      - apply Forall_forall. intros i Hi. apply elem_of_seq in Hi. lia.
      - exact Ha. }
    unfold mret, M_ret. by intros [= <- <-].
Qed.

(** X21: whatever the arithmetic, [findPointOnSpline] does not change the
    editor, and the projection it returns is one of the 101 samples of a
    segment of the spline, at most [maxDistance] from the click, reported
    with that segment's four control points, its parameter and the index of
    the knot the segment ends at. *)
Theorem findPointOnSpline_sound (s s' : canvas) (vx vy : number)
    (q : @Projection number) :
  findPointOnSpline vx vy s = (Some (Some q), s') ->
  s' = s /\ projects s (new_Point vx vy) q.
Proof.
  unfold findPointOnSpline. intros Hrun.
  unfold mbind at 1, M_bind at 1 in Hrun.
  match type of Hrun with
  | context [forEach ?cb ?acc s] =>
      destruct (forEach cb acc s) as [[found|] s1] eqn:Eloop; [|done]
  end.
  apply projection_loop_returns in Eloop as [-> Hfound].
  unfold mret, M_ret in Hrun. injection Hrun as Hq <-.
  split; [done|]. by apply Hfound.
Qed.

End Projection.

Section ExactProjection.
Local Open Scope R_scope.
Local Abbreviation M := (M xreal).
Local Abbreviation canvas := (BezierCanvas xreal).


Lemma sample_real (p0 p1 p2 p3 click : Point xreal) (u : R) :
  real_point p0 -> real_point p1 -> real_point p2 -> real_point p3 ->
  real_point click ->
  exists c, getDistance (cubicBezierInterpolate (XR u) p0 p1 p2 p3) click = XR c.
Proof.
  intros [F0x F0y] [F1x F1y] [F2x F2y] [F3x F3y] [Fcx Fcy].
  apply finite_XR in F0x as [a0 E0x], F0y as [b0 E0y], F1x as [a1 E1x],
    F1y as [b1 E1y], F2x as [a2 E2x], F2y as [b2 E2y], F3x as [a3 E3x],
    F3y as [b3 E3y], Fcx as [cx Ecx], Fcy as [cy Ecy].
  rewrite (cubicBezierInterpolate_XR u p0 p1 p2 p3 a0 a1 a2 a3 b0 b1 b2 b3)
    by done.
  eexists. by apply getDistance_XR.
Qed.

Lemma parameter_XR (i : nat) : (of_nat i / of_Z 100)%js = XR (INR i / 100).
Proof.
  rewrite of_nat_XR. change (of_Z 100 : xreal) with (XR 100).
  apply div_XR. lra.
Qed.

Lemma nearest_fold (s : canvas) (clickPosition : Point xreal) (m : R)
    (Hm : maxDistance (options s) = XR m) (Hclick : real_point clickPosition)
    (index : nat) (k0 k3 : ref) (r1 r2 : option ref)
    (p0 p1 p2 p3 : Point xreal) (n i0 : nat) (acc : @ProjectionLocals xreal) :
  segment_controls s index = Some ((Some k0, r1, r2, Some k3), (p0, p1, p2, p3)) ->
  real_point p0 -> real_point p1 -> real_point p2 -> real_point p3 ->
  nearest_so_far s clickPosition m
    (fun index' i' => (index' < index)%nat \/ index' = index /\ (i' < i0)%nat) acc ->
  nearest_so_far s clickPosition m
    (fun index' i' => (index' < index)%nat \/ index' = index /\ (i' < i0 + n)%nat)
    (foldl (projection_step (maxDistance (options s)) clickPosition index
              (Some k0) r1 r2 (Some k3) p0 p1 p2 p3) acc (seq i0 n)).
Proof.
  intros Hseg F0 F1 F2 F3. revert i0 acc.
  induction n as [|n IH]; intros i0 acc Hacc.
  - by rewrite Nat.add_0_r.
  - cbn [seq foldl]. replace (i0 + S n)%nat with (S i0 + n)%nat by lia.
    apply IH. clear IH.
    assert (sample_distance s clickPosition index i0
            = Some (getDistance
                      (cubicBezierInterpolate (of_nat i0 / of_Z 100)%js p0 p1 p2 p3)
                      clickPosition)) as Hhere.
    { unfold sample_distance. by rewrite Hseg. }
    unfold projection_step. rewrite parameter_XR in *.
    destruct (sample_real p0 p1 p2 p3 clickPosition (INR i0 / 100))
      as [c Ec]; [done..|].
    rewrite Ec in *. rewrite Hm.
    assert (forall (seenP : R -> Prop),
              (forall index' i' d', ((index' < index)%nat
                                     \/ index' = index /\ (i' < i0)%nat) ->
                 (i' <= 100)%nat ->
                 sample_distance s clickPosition index' i' = Some (XR d') ->
                 seenP d') ->
              seenP c ->
              forall index' i' d', ((index' < index)%nat
                                    \/ index' = index /\ (i' < S i0)%nat) ->
                (i' <= 100)%nat ->
                sample_distance s clickPosition index' i' = Some (XR d') ->
                seenP d') as Hgrow.
    { intros seenP Hold Hc index' i' d' [Hlt|[-> Hi']] Hle Hd.
      - by apply (Hold index' i' d'); [left|..].
      - destruct (decide (i' = i0)) as [->|Hne].
        + rewrite Hhere in Hd. by injection Hd as <-.
        + apply (Hold index i' d'); [right; split; [done|lia]|done..]. }
    unfold nearest_so_far in Hacc |- *.
    destruct (proj_point acc) as [pt|] eqn:Ept.
    + destruct Hacc as (d & Ed & Hdm & Hmin). rewrite Ed.
      change (isNaN (XR d)) with false. cbn [orb].
      destruct (Rle_dec c m) as [Hcm|Hcm].
      * rewrite (le_XR_true c m Hcm). cbn [andb].
        destruct (Rlt_dec c d) as [Hcd|Hcd].
        -- rewrite (lt_XR_true c d Hcd). cbn [proj_point proj_distance].
           exists c. split; [done|]. split; [done|].
           apply (Hgrow (fun d' => c <= d')); [|lra].
           intros index' i' d' Hs Hi Hd.
           pose proof (Hmin index' i' d' Hs Hi Hd). lra.
        -- rewrite (lt_XR_false c d) by lra. rewrite Ept.
           exists d. split; [done|]. split; [done|].
           apply (Hgrow (fun d' => d <= d')); [exact Hmin|lra].
      * assert ((XR c <=? XR m)%js = false) as ->.
        { simpl. destruct (Rle_dec c m); [lra|done]. }
        cbn [andb]. rewrite Ept.
        exists d. split; [done|]. split; [done|].
        apply (Hgrow (fun d' => d <= d')); [exact Hmin|lra].
    + destruct Hacc as (Ed & Hfar). rewrite Ed.
      change (isNaN XNaN) with true. cbn [orb]. rewrite andb_true_r.
      destruct (Rle_dec c m) as [Hcm|Hcm].
      * rewrite (le_XR_true c m Hcm). cbn [proj_point proj_distance].
        exists c. split; [done|]. split; [done|].
        apply (Hgrow (fun d' => c <= d')); [|lra].
        intros index' i' d' Hs Hi Hd.
        pose proof (Hfar index' i' d' Hs Hi Hd). lra.
      * assert ((XR c <=? XR m)%js = false) as ->.
        { simpl. destruct (Rle_dec c m); [lra|done]. }
        rewrite Ept. split; [done|].
        apply (Hgrow (fun d' => m < d')); [exact Hfar|lra].
Qed.

Lemma nearest_so_far_mono (s : canvas) (clickPosition : Point xreal) (m : R)
    (seen seen' : nat -> nat -> Prop) (acc : @ProjectionLocals xreal) :
  (forall index i, (i <= 100)%nat -> seen' index i -> seen index i) ->
  nearest_so_far s clickPosition m seen acc ->
  nearest_so_far s clickPosition m seen' acc.
Proof.
  intros Hsub. unfold nearest_so_far. destruct (proj_point acc).
  - intros (d & Ed & Hdm & Hmin). exists d. split; [done|]. split; [done|].
    intros index i d' Hs Hi. apply Hmin; [by apply Hsub|done].
  - intros [Ed Hfar]. split; [done|].
    intros index i d' Hs Hi. apply Hfar; [by apply Hsub|done].
Qed.

Lemma segment_readable (s : canvas) (index : nat) (k0 k3 : ref) :
  resettable s -> children_ok (store s) ->
  constructionPoints s !! index = Some k0 ->
  constructionPoints s !! S index = Some k3 ->
  exists (h1 h2 : ref) (p0 p1 p2 p3 : Point xreal),
    store s !! k0 = Some p0
    /\ match handler2 p0 with Some h => Some h | None => handler1 p0 end = Some h1
    /\ store s !! h1 = Some p1
    /\ store s !! k3 = Some p3
    /\ handler1 p3 = Some h2
    /\ store s !! h2 = Some p2
    /\ segment_controls s index
       = Some ((Some k0, Some h1, Some h2, Some k3), (p0, p1, p2, p3)).
Proof.
  intros Hres Hch E0 E3.
  destruct (Hres k0) as (p0 & h01 & Ep0 & Eh01); [by eapply list_elem_of_lookup_2|].
  destruct (Hres k3) as (p3 & h2 & Ep3 & Eh2); [by eapply list_elem_of_lookup_2|].
  destruct (Hch k3 p3 h2 Ep3 (or_introl Eh2)) as (p2 & Ep2 & _).
  assert (exists h1 p1,
            match handler2 p0 with Some h => Some h | None => handler1 p0 end
            = Some h1 /\ store s !! h1 = Some p1) as (h1 & p1 & Eh1 & Ep1).
  { destruct (handler2 p0) as [h|] eqn:Eh.
    - destruct (Hch k0 p0 h Ep0 (or_intror Eh)) as (p1 & Ep1 & _). by exists h, p1.
    - destruct (Hch k0 p0 h01 Ep0 (or_introl Eh01)) as (p1 & Ep1 & _).
      by exists h01, p1. }
  exists h1, h2, p0, p1, p2, p3. repeat (split; [done|]).
  unfold segment_controls. rewrite E0, E3. cbn [mbind option_bind].
  rewrite Ep0. cbn [mbind option_bind]. rewrite Eh1. cbn [mbind option_bind].
  rewrite Ep1, Ep3. cbn [mbind option_bind]. rewrite Eh2.
  cbn [mbind option_bind]. by rewrite Ep2.
Qed.

(** X22: in exact arithmetic, on a spline whose knots and handles exist with
    real coordinates, [findPointOnSpline] returns without changing the
    editor.  Every sample of every segment has a real distance to the
    click; the answer is null exactly when all of them exceed
    [maxDistance], and otherwise the distance it reports is within
    [maxDistance] and is the least one over all samples. *)
Theorem findPointOnSpline_nearest (s : canvas) (a b m : R) :
  resettable s -> children_ok (store s) ->
  (forall r p, store s !! r = Some p -> real_point p) ->
  maxDistance (options s) = XR m ->
  exists r,
    findPointOnSpline (XR a) (XR b) s = (Some r, s)
    /\ (forall index i, (S index < length (constructionPoints s))%nat ->
          exists d', sample_distance s (new_Point (XR a) (XR b)) index i
                     = Some (XR d'))
    /\ match r with
       | None =>
           forall index i d', (i <= 100)%nat ->
             sample_distance s (new_Point (XR a) (XR b)) index i = Some (XR d') ->
             m < d'
       | Some q =>
           exists d, on_distance q = XR d /\ d <= m
             /\ forall index i d', (i <= 100)%nat ->
                  sample_distance s (new_Point (XR a) (XR b)) index i
                  = Some (XR d') ->
                  d <= d'
       end.
Proof.
  intros Hres Hch Hfin Hm.
  set (click := new_Point (XR a) (XR b)).
  assert (real_point click) as Hclick by (split; exact I).
  unfold findPointOnSpline, forEach. rewrite run_assoc, run_get. fold click.
  match goal with
  | |- context [forEach_from ?n ?k ?cb ?acc0] =>
      destruct (forEach_from_total
                  (fun j locals => nearest_so_far s click m
                                     (fun index' _ => (index' < j)%nat) locals)
                  n k cb acc0 s) as (found & Erun & Hfound)
  end.
  - split; [reflexivity|]. intros index i d' Hlt. lia.
  - intros j acc Hacc.
    destruct (constructionPoints s !! j) as [k0|] eqn:E0.
    + rewrite run_get.
      destruct (constructionPoints s !! S j) as [k3|] eqn:E3.
      * destruct (segment_readable s j k0 k3 Hres Hch E0 E3)
          as (h1 & h2 & p0 & p1 & p2 & p3 & Ep0 & Eh1 & Ep1 & Ep3 & Eh2 & Ep2
              & Hseg).
        rewrite (run_deref k0 p0) by done. rewrite Eh1.
        rewrite (run_deref_opt h1 p1) by done.
        rewrite (run_deref k3 p3) by done. rewrite Eh2.
        rewrite (run_deref_opt h2 p2) by done.
        eexists. split; [reflexivity|].
        eapply nearest_so_far_mono; cycle 1.
        { apply (nearest_fold s click m Hm Hclick j k0 k3 (Some h1) (Some h2)
                   p0 p1 p2 p3 101 0 acc Hseg); eauto.
          eapply nearest_so_far_mono; [|exact Hacc].
          intros index i _ Hs. cbv beta. lia. }
        intros index i Hi Hs. cbv beta in *. lia.
      * eexists. split; [reflexivity|].
        unfold nearest_so_far in *.
        assert (forall i, sample_distance s click j i = None) as Hnone.
        { intros i. unfold sample_distance, segment_controls.
          rewrite E0, E3. reflexivity. }
        destruct (proj_point acc).
        -- destruct Hacc as (d & Ed & Hdm & Hmin). exists d.
           split; [done|]. split; [done|]. intros index i d' Hs Hi Hd.
           destruct (decide (index = j)) as [->|Hne].
           ++ by rewrite Hnone in Hd.
           ++ apply (Hmin index i d'); [lia|done..].
        -- destruct Hacc as [Ed Hfar]. split; [done|].
           intros index i d' Hs Hi Hd.
           destruct (decide (index = j)) as [->|Hne].
           ++ by rewrite Hnone in Hd.
           ++ apply (Hfar index i d'); [lia|done..].
    + unfold nearest_so_far in *.
      assert (forall i, sample_distance s click j i = None) as Hnone.
      { intros i. unfold sample_distance, segment_controls.
        rewrite E0. reflexivity. }
      destruct (proj_point acc).
      * destruct Hacc as (d & Ed & Hdm & Hmin). exists d.
        split; [done|]. split; [done|]. intros index i d' Hs Hi Hd.
        destruct (decide (index = j)) as [->|Hne].
        -- by rewrite Hnone in Hd.
        -- apply (Hmin index i d'); [lia|done..].
      * destruct Hacc as [Ed Hfar]. split; [done|].
        intros index i d' Hs Hi Hd.
        destruct (decide (index = j)) as [->|Hne].
        -- by rewrite Hnone in Hd.
        -- apply (Hfar index i d'); [lia|done..].
  - rewrite (run_bind _ _ _ _ _ Erun). unfold mret, M_ret.
    eexists. split; [reflexivity|]. split.
    + intros index i Hlen.
      destruct (lookup_lt_is_Some_2 (constructionPoints s) index) as [k0 E0];
        [lia|].
      destruct (lookup_lt_is_Some_2 (constructionPoints s) (S index)) as [k3 E3];
        [lia|].
      destruct (segment_readable s index k0 k3 Hres Hch E0 E3)
        as (h1 & h2 & p0 & p1 & p2 & p3 & Ep0 & Eh1 & Ep1 & Ep3 & Eh2 & Ep2
            & Hseg).
      unfold sample_distance. rewrite Hseg, parameter_XR.
      destruct (sample_real p0 p1 p2 p3 click (INR i / 100)) as [c Ec];
        [by eapply Hfin..|done|].
      exists c. by rewrite Ec.
    + assert (forall index i d', sample_distance s click index i = Some d' ->
                (index < 0 + length (constructionPoints s))%nat) as Hin.
      { intros index i d'. unfold sample_distance, segment_controls.
        destruct (constructionPoints s !! index) eqn:E; [|done].
        intros _. apply lookup_lt_Some in E. lia. }
      unfold nearest_so_far in Hfound.
      destruct (proj_point found) as [pt|].
      * destruct Hfound as (d & Ed & Hdm & Hmin).
        cbn [on_distance]. exists d. split; [done|]. split; [done|].
        intros index i d' Hi Hd. apply (Hmin index i d'); [by eapply Hin|done..].
      * destruct Hfound as [Ed Hfar].
        intros index i d' Hi Hd. apply (Hfar index i d'); [by eapply Hin|done..].
Qed.

End ExactProjection.

(** ** The mouse handlers *)

Section Selection.
Context `{JSNumber number}.
Local Abbreviation M := (M number).
Local Abbreviation canvas := (BezierCanvas number).



End Selection.

Section ActivePoint.
Context `{JSNumber number}.
Local Abbreviation M := (M number).
Local Abbreviation canvas := (BezierCanvas number).


Lemma cleared_alter_eq (σ : gmap ref (Point number)) (r : ref) :
  cleared (alter (set_active false) r σ) r.
Proof.
  intros p. rewrite lookup_alter_eq. destruct (σ !! r); [|done].
  by intros [= <-].
Qed.

Lemma cleared_alter (σ : gmap ref (Point number)) (r r' : ref) :
  cleared σ r' -> cleared (alter (set_active false) r σ) r'.
Proof.
  intros Hc. destruct (decide (r = r')) as [->|Hne].
  - apply cleared_alter_eq.
  - intros p. rewrite lookup_alter_ne by done. apply Hc.
Qed.

Lemma resetActivePoint_clears_from (s : canvas) (n k : nat)
    (σ : gmap ref (Point number)) :
  resettable s -> same_geometry (store s) σ ->
  exists σ',
    forEach_from n k
      (fun point (_ : nat) (_ : unit) =>
         update point (set_active false);;
         p ← deref point;
         update_opt (handler1 p) (set_active false);;
         match handler2 p with
         | Some h => update h (set_active false)
         | None => mret tt
         end) tt (set_store σ s)
    = (Some tt, set_store σ' s)
    /\ same_geometry (store s) σ'
    /\ (forall r, cleared σ r -> cleared σ' r)
    /\ (forall j kn p, (k <= j < k + n)%nat ->
          constructionPoints s !! j = Some kn -> store s !! kn = Some p ->
          cleared σ' kn
          /\ forall h, handler1 p = Some h \/ handler2 p = Some h -> cleared σ' h).
Proof.
  intros Hres. revert k σ. induction n as [|n IH]; intros k σ Hσ; simpl.
  - exists σ. split; [done|]. split; [done|]. split; [done|]. intros; lia.
  - unfold mbind at 1, M_bind at 1, get_canvas. simpl.
    destruct (constructionPoints s !! k) as [r|] eqn:E.
    2:{ destruct (IH (S k) σ Hσ) as (σ' & Hrun & Hσ' & Hkeep & Hdone).
        exists σ'. split; [done|]. split; [done|]. split; [done|].
        intros j kn p Hj Hkn Hq.
        destruct (decide (j = k)) as [->|Hne]; [congruence|].
        apply (Hdone j kn p); [lia|done..]. }
    destruct (Hres r) as (p & h1 & Hp & Hh1); [by eapply list_elem_of_lookup_2|].
    pose (σ1 := alter (set_active false) r σ).
    assert (same_geometry (store s) σ1) as H1
      by (apply same_geometry_alter; [apply keeps_geometry_set_active|done]).
    destruct (same_geometry_lookup _ _ r p H1 Hp) as (p' & Hp' & _ & _ & _ & Ec).
    assert (handler1 p' = Some h1) as Hh1' by (unfold handler1 in *; by rewrite Ec).
    assert (handler2 p' = handler2 p) as Hh2' by (unfold handler2; by rewrite Ec).
    pose (σ2 := alter (set_active false) h1 σ1).
    assert (same_geometry (store s) σ2) as H2
      by (apply same_geometry_alter; [apply keeps_geometry_set_active|done]).
    pose (σ3 := match handler2 p with
                | Some h => alter (set_active false) h σ2
                | None => σ2
                end).
    assert (same_geometry (store s) σ3) as H3.
    { unfold σ3. destruct (handler2 p);
        [apply same_geometry_alter; [apply keeps_geometry_set_active|done]|done]. }
    assert (forall r', cleared σ2 r' -> cleared σ3 r') as H23.
    { intros r'. unfold σ3. destruct (handler2 p); [apply cleared_alter|done]. }
    destruct (IH (S k) σ3 H3) as (σ' & Hrun & Hσ' & Hkeep & Hdone).
    exists σ'. split.
    { rewrite <- Hrun.
      unfold mbind, M_bind, update, modify, deref. simpl.
      fold σ1. rewrite Hp'. simpl. rewrite Hh1'. simpl. fold σ2.
      rewrite Hh2'. unfold σ3. by destruct (handler2 p). }
    split; [done|]. split.
    { intros r' Hr'. apply Hkeep, H23. unfold σ2, σ1. by do 2 apply cleared_alter. }
    intros j kn q Hj Hkn Hq. destruct (decide (j = k)) as [->|Hne].
    + assert (kn = r) as -> by congruence. assert (q = p) as -> by congruence.
      split.
      * apply Hkeep, H23. unfold σ2. apply cleared_alter, cleared_alter_eq.
      * intros h [Hh|Hh].
        -- assert (h = h1) as -> by congruence.
           apply Hkeep, H23, cleared_alter_eq.
        -- apply Hkeep. unfold σ3. rewrite Hh. apply cleared_alter_eq.
    + apply (Hdone j kn q); [lia|done..].
Qed.

(** X23: [setActivePoint] on a spline whose knots exist and have a first handle
    returns with [point] as the moving point, and afterwards [point] is the
    one active point among the knots and handles of the spline; only
    [active] flags have changed. *)
Theorem setActivePoint_exclusive (s : canvas) (point : ref) :
  resettable s ->
  exists s',
    setActivePoint (Some point) s = (Some tt, s')
    /\ constructionPoints s' = constructionPoints s
    /\ currentMovingPoint s' = Some point
    /\ same_geometry (store s) (store s')
    /\ forall r p', selectable s r -> store s' !! r = Some p' ->
                    active p' = bool_decide (r = point).
Proof.
  intros Hres.
  destruct (resetActivePoint_clears_from s (length (constructionPoints s)) 0
              (store s) Hres (same_geometry_refl _))
    as (σ' & Hrun & Hσ' & _ & Hdone).
  assert (resetActivePoint s = (Some tt, set_store σ' s)) as Hreset.
  { unfold resetActivePoint, forEach. unfold mbind at 1, M_bind at 1, get_canvas.
    simpl. rewrite <- Hrun. by destruct s. }
  unfold setActivePoint. rewrite (run_bind _ _ _ _ _ Hreset).
  rewrite run_update_opt.
  eexists. split; [reflexivity|]. cbn.
  split; [done|]. split; [done|]. split.
  { apply same_geometry_alter; [apply keeps_geometry_set_active|done]. }
  intros r p' Hsel. destruct (decide (r = point)) as [->|Hne].
  - rewrite lookup_alter_eq, bool_decide_eq_true_2 by done.
    match goal with
    | |- _ <$> ?o = _ -> _ => destruct o; [|done]
    end.
    cbn [fmap option_fmap option_map]. by intros [= <-].
  - rewrite lookup_alter_ne, bool_decide_eq_false_2 by done.
    intros Hp'. revert p' Hp'. fold (cleared σ' r).
    destruct Hsel as [Hr|(kn & p & Hkn & Hp & Hh)].
    + apply list_elem_of_lookup_1 in Hr as [j Hj].
      destruct (Hres r) as (p & _ & Hp & _); [by eapply list_elem_of_lookup_2|].
      destruct (Hdone j r p) as [Hc _]; [|done..|exact Hc].
      apply lookup_lt_Some in Hj. lia.
    + apply list_elem_of_lookup_1 in Hkn as [j Hj].
      destruct (Hdone j kn p) as [_ Hc]; [|done..|exact (Hc r Hh)].
      apply lookup_lt_Some in Hj. lia.
Qed.

End ActivePoint.

Section ClickOnSpline.
Context `{JSNumber number}.
Local Abbreviation M := (M number).
Local Abbreviation canvas := (BezierCanvas number).

Lemma segment_controls_inv (s : canvas) (index : nat)
    (a b c d : option ref) (p0 p1 p2 p3 : Point number) :
  segment_controls s index = Some ((a, b, c, d), (p0, p1, p2, p3)) ->
  exists k0 h1 h2 k3,
    a = Some k0 /\ b = Some h1 /\ c = Some h2 /\ d = Some k3
    /\ constructionPoints s !! index = Some k0
    /\ constructionPoints s !! S index = Some k3
    /\ store s !! k0 = Some p0 /\ store s !! h1 = Some p1
    /\ store s !! h2 = Some p2 /\ store s !! k3 = Some p3.
Proof.
  unfold segment_controls.
  destruct (constructionPoints s !! index) as [k0|]; [|done].
  destruct (constructionPoints s !! S index) as [k3|]; [|done].
  cbn [mbind option_bind].
  destruct (store s !! k0) as [q0|] eqn:E0; [|done]. cbn [mbind option_bind].
  destruct (match handler2 q0 with Some h => Some h | None => handler1 q0 end)
    as [h1|]; [|done]. cbn [mbind option_bind].
  destruct (store s !! h1) as [q1|] eqn:E1; [|done]. cbn [mbind option_bind].
  destruct (store s !! k3) as [q3|] eqn:E3; [|done]. cbn [mbind option_bind].
  destruct (handler1 q3) as [h2|]; [|done]. cbn [mbind option_bind].
  destruct (store s !! h2) as [q2|] eqn:E2; [|done]. cbn [mbind option_bind].
  intros [= <- <- <- <- <- <- <- <-]. by exists k0, h1, h2, k3.
Qed.

(** X25: a left mousedown without Ctrl within reach of the spline appends
    nothing: it inserts one new knot into the segment [findPointOnSpline]
    found, between the two knots of that segment, and picks it for moving.
    The knots that were there keep their order. *)
Theorem mouseDownLeft_inserts_on_spline (s : canvas) (ex ey : number)
    (q : @Projection number) :
  ctrlKeyIsDown s = false ->
  NoDup (constructionPoints s) -> bounded s -> resettable s ->
  let position := new_Point ex ey in
  let n := Point_count s in
  findPointOnSpline (x position) (y position) (set_isMouseDown true s)
  = (Some (Some q), set_isMouseDown true s) ->
  exists s' k0 k3 kp,
    mouseDownLeft ex ey s = (Some tt, s')
    /\ on_P0 q = Some k0 /\ on_P3 q = Some k3
    /\ constructionPoints s !! (on_position q - 1)%nat = Some k0
    /\ constructionPoints s !! on_position q = Some k3
    /\ constructionPoints s'
       = take (on_position q) (constructionPoints s)
         ++ n :: drop (on_position q) (constructionPoints s)
    /\ currentMovingPoint s' = Some n
    /\ store s' !! n = Some kp /\ get_fromCasteljau kp = true
    /\ is_Some (handler1 kp) /\ is_Some (handler2 kp).
Proof.
  intros Hctrl Hnd Hb Hres position n Hrun.
  set (s1 := set_isMouseDown true s) in *.
  unfold mouseDownLeft. rewrite run_modify, run_get. fold s1 position.
  change (ctrlKeyIsDown s1) with (ctrlKeyIsDown s). rewrite Hctrl.
  rewrite (run_bind _ _ _ _ _ Hrun).
  unfold findPointOnSpline in Hrun.
  unfold mbind at 1, M_bind at 1 in Hrun.
  match type of Hrun with
  | context [forEach ?cb ?acc s1] =>
      destruct (forEach cb acc s1) as [[found|] s2] eqn:Eloop; [|done]
  end.
  apply projection_loop_returns in Eloop as [-> Hfound].
  unfold mret, M_ret in Hrun. injection Hrun as Hq.
  destruct (Hfound q Hq)
    as (index & i & p0 & p1 & p2 & p3 & _ & Hseg & Epos & _).
  apply segment_controls_inv in Hseg
    as (k0 & h1 & h2 & k3 & E0 & E1 & E2 & E3 & Hi & HSi & Hp0 & Hp1 & Hp2 & Hp3).
  rewrite E0, E1, E2, E3.
  destruct (knotInsertion_run s1 index k0 k3 h1 h2 p0 p1 p2 p3 (on_t q))
    as (σ & Hgeo & Hrun1); try done.
  change (Point_count s1) with n in *. change (store s1) with (store s) in *.
  cbn [s1 set_isMouseDown constructionPoints isMouseDown ctrlKeyIsDown options
       currentMovingPoint mouseReleaseAfterConstructionPointCreation] in Hrun1.
  set (N := new_ConstructionPoint _ _) in Hgeo.
  destruct (same_geometry_lookup _ σ n
              (set_construction
                 (fun c => mkConstruction (_handler1 c) (_handler2 c) true) N) Hgeo)
    as (N' & HN' & _ & _ & _ & EcN); [by lk|].
  assert (h1 < n)%nat as Hh1 by (apply Hb; by rewrite Hp1).
  assert (h2 < n)%nat as Hh2 by (apply Hb; by rewrite Hp2).
  eexists _, k0, k3, _. split; [exact Hrun1|].
  cbn [constructionPoints currentMovingPoint store].
  rewrite Epos. replace (index + 1 - 1)%nat with index by lia.
  replace (index + 1)%nat with (S index) by lia.
  split; [done|]. split; [done|]. split; [done|]. split; [done|].
  split; [reflexivity|]. split; [done|]. split.
  { unfold inserted_store. cbv zeta. lk. rewrite HN'. reflexivity. }
  unfold get_fromCasteljau, handler1, handler2. cbn. rewrite EcN. cbn.
  split; [done|]. split; by eexists.
Qed.

End ClickOnSpline.

Section Creation.
Context `{JSNumber number}.
Local Abbreviation M := (M number).
Local Abbreviation canvas := (BezierCanvas number).


Lemma created_store_knot (σ : gmap ref (Point number)) (n : ref)
    (position : Point number) :
  created_store σ n position !! n
  = Some (mkPoint (Math_round (x position)) (Math_round (y position)) false None
            (Some (mkConstruction (Some (S n)) (Some (S (S n))) false))).
Proof. unfold created_store. lk. reflexivity. Qed.

Lemma created_store_handler1 (σ : gmap ref (Point number)) (n : ref)
    (position : Point number) :
  created_store σ n position !! S n
  = Some (mkPoint (Math_round (x position)) (Math_round (y position)) false
            (Some n) None).
Proof. unfold created_store. lk. reflexivity. Qed.

Lemma created_store_handler2 (σ : gmap ref (Point number)) (n : ref)
    (position : Point number) :
  created_store σ n position !! S (S n)
  = Some (mkPoint (Math_round (x position)) (Math_round (y position)) false
            (Some n) None).
Proof. unfold created_store. lk. reflexivity. Qed.

Lemma created_store_old (σ : gmap ref (Point number)) (n r : ref)
    (position : Point number) :
  (r < n)%nat -> created_store σ n position !! r = σ !! r.
Proof. intros Hr. unfold created_store. lk. reflexivity. Qed.

(** The mousedown handler up to [setActivePoint], in natural draw mode. *)
Lemma createConstructionPoint_prefix (s : canvas) (position : Point number) :
  naturalDrawMode (options s) = true -> bounded s -> resettable s ->
  let n := Point_count s in
  exists σ,
    same_geometry (created_store (store s) n position) σ
    /\ createConstructionPoint position s
       = (s ← get_canvas;
          if (2 <? length (constructionPoints s))%nat then
            match constructionPoints s !! (length (constructionPoints s) - 2)%nat with
            | Some D =>
                d ← deref D;
                let sf := smoothFactor (options s) in
                if naturalDrawMode (options s) then
                  dh2 ← deref_opt (handler2 d);
                  h ← alloc (new_Point (x d - sf * (x dh2 - x d))%js
                                       (y d - sf * (y dh2 - y d))%js);
                  set_handler1 D (Some h)
                else
                  dh1 ← deref_opt (handler1 d);
                  h ← alloc (new_Point (x d - sf * (x dh1 - x d))%js
                                       (y d - sf * (y dh1 - y d))%js);
                  set_handler2 D (Some h)
            | None => throw
            end
          else mret tt)
         (mkCanvas (alter (set_active true) (S (S n)) σ) (S (S (S n)))
            (constructionPoints s ++ [n]) (Some (S (S n))) (isMouseDown s)
            (ctrlKeyIsDown s) false (options s)).
Proof.
  intros Hnat Hb Hres n.
  assert (forall k, k ∈ constructionPoints s -> (k < n)%nat) as Hlt.
  { intros k Hk. destruct (Hres k Hk) as (p & _ & Hp & _). apply Hb. by rewrite Hp. }
  pose (st := mkCanvas (created_store (store s) n position) (S (S (S n)))
                (constructionPoints s ++ [n]) (currentMovingPoint s)
                (isMouseDown s) (ctrlKeyIsDown s) false (options s)).
  destruct (resetActivePoint_run st) as (σ & Hrun & Hσ).
  { intros k Hk. cbn [st constructionPoints] in Hk.
    apply elem_of_app in Hk as [Hk|Hk].
    - destruct (Hres k Hk) as (p & h1 & Hp & Hh1). exists p, h1.
      split; [|done]. cbn [st store].
      rewrite created_store_old by (by apply Hlt). done.
    - apply list_elem_of_singleton in Hk as ->. eexists _, (S n).
      split; [apply created_store_knot|done]. }
  exists σ. split; [exact Hσ|].
  unfold createConstructionPoint.
  run_steps. fold n. rewrite Hnat. run_steps. fold n.
  erewrite run_deref; cycle 1.
  { cbn [store]. apply (created_store_knot (store s) n position). }
  cbn [handler2 construction _handler2].
  unfold setActivePoint. rewrite !run_assoc.
  fold (created_store (store s) n position). fold st.
  rewrite (run_bind _ _ _ _ _ Hrun). unfold st.
  repeat match goal with
  | |- context [handler2 (mkPoint ?a ?b ?c ?d (Some (mkConstruction ?e ?f ?g)))] =>
      change (handler2 (mkPoint a b c d (Some (mkConstruction e f g)))) with f
  end.
  rewrite run_assoc, run_update_opt. run_steps. reflexivity.
Qed.

Lemma last_before_push (l : list ref) (n : ref) :
  (1 <= length l)%nat ->
  (l ++ [n]) !! (length (l ++ [n]) - 2)%nat = last l.
Proof.
  rewrite length_app. cbn [length].
  destruct l as [|a l] using rev_ind; [cbn [length]; lia|]. intros _.
  rewrite last_snoc, length_app. cbn [length].
  replace (length l + 1 + 1 - 2)%nat with (length l) by lia.
  rewrite lookup_app_l by (rewrite length_app; cbn [length]; lia).
  by rewrite lookup_app_r, Nat.sub_diag by lia.
Qed.

(** X26: in natural draw mode, a left mousedown without Ctrl that is not within
    reach of the spline appends one knot at the pointer, with both its
    handles on it, and picks its second handle for moving; the coordinates
    of the points that were there are untouched.  When there were at least
    two knots, the knot before the new one gets a fresh first handle:
    the mirror image of its second handle through the knot, scaled by
    [smoothFactor]. *)
Theorem mouseDownLeft_appends_knot (s : canvas) (ex ey : number) :
  ctrlKeyIsDown s = false -> naturalDrawMode (options s) = true ->
  bounded s -> resettable s ->
  let position := new_Point ex ey in
  let n := Point_count s in
  findPointOnSpline (x position) (y position) (set_isMouseDown true s)
  = (Some None, set_isMouseDown true s) ->
  ((2 <= length (constructionPoints s))%nat ->
   exists D d g dg, last (constructionPoints s) = Some D
                    /\ store s !! D = Some d /\ handler2 d = Some g
                    /\ store s !! g = Some dg) ->
  exists s',
    mouseDownLeft ex ey s = (Some tt, s')
    /\ constructionPoints s' = constructionPoints s ++ [n]
    /\ currentMovingPoint s' = Some (S (S n))
    /\ isMouseDown s' = true
    /\ (exists kp h1 h2,
          store s' !! n = Some kp /\ store s' !! S n = Some h1
          /\ store s' !! S (S n) = Some h2
          /\ handler1 kp = Some (S n) /\ handler2 kp = Some (S (S n))
          /\ parent h1 = Some n /\ parent h2 = Some n /\ active h2 = true
          /\ xy kp = xy (new_Point (x position) (y position))
          /\ xy h1 = xy kp /\ xy h2 = xy kp)
    /\ (forall r p, store s !! r = Some p ->
          exists p', store s' !! r = Some p' /\ xy p' = xy p)
    /\ (forall D d g dg,
          (2 <= length (constructionPoints s))%nat ->
          last (constructionPoints s) = Some D ->
          store s !! D = Some d -> handler2 d = Some g ->
          store s !! g = Some dg ->
          exists d' h,
            store s' !! D = Some d' /\ handler1 d' = Some (S (S (S n)))
            /\ handler2 d' = Some g
            /\ store s' !! S (S (S n)) = Some h /\ parent h = Some D
            /\ xy h
               = xy (new_Point
                       (x d - smoothFactor (options s) * (x dg - x d))%js
                       (y d - smoothFactor (options s) * (y dg - y d))%js)).
Proof.
  intros Hctrl Hnat Hb Hres position n Hfar Hprev.
  set (s1 := set_isMouseDown true s) in *.
  assert (forall k, k ∈ constructionPoints s -> (k < n)%nat) as Hlt.
  { intros k Hk. destruct (Hres k Hk) as (p & _ & Hp & _). apply Hb. by rewrite Hp. }
  assert (forall r p, store s !! r = Some p -> (r < n)%nat) as Hold.
  { intros r p Hp. apply Hb. by rewrite Hp. }
  destruct (createConstructionPoint_prefix s1 position Hnat Hb Hres)
    as (σ & Hσ & Hcreate).
  change (Point_count s1) with n in *. change (store s1) with (store s) in *.
  cbn [s1 set_isMouseDown constructionPoints isMouseDown ctrlKeyIsDown options]
    in Hcreate.
  destruct (same_geometry_lookup _ _ n _ Hσ (created_store_knot _ _ _))
    as (kp & Ekp & Ekx & Eky & _ & Ekc).
  destruct (same_geometry_lookup _ _ (S n) _ Hσ (created_store_handler1 _ _ _))
    as (kh1 & Ekh1 & Eh1x & Eh1y & Eh1p & _).
  destruct (same_geometry_lookup _ _ (S (S n)) _ Hσ (created_store_handler2 _ _ _))
    as (kh2 & Ekh2 & Eh2x & Eh2y & Eh2p & _).
  cbn [x y parent construction] in *.
  assert (forall r p, store s !! r = Some p ->
            exists p', σ !! r = Some p' /\ x p' = x p /\ y p' = y p
                       /\ parent p' = parent p
                       /\ construction p' = construction p) as Hkeep.
  { intros r p Hp. apply (same_geometry_lookup _ _ r p Hσ).
    rewrite created_store_old by (by eapply Hold). done. }
  unfold mouseDownLeft. rewrite run_modify, run_get. fold s1 position.
  change (ctrlKeyIsDown s1) with (ctrlKeyIsDown s). rewrite Hctrl.
  rewrite (run_bind _ _ _ _ _ Hfar). rewrite Hcreate. clear Hcreate.
  rewrite run_get. cbn [constructionPoints options].
  destruct (decide (2 <= length (constructionPoints s))%nat) as [Hlen|Hlen].
  1: rewrite last_before_push by lia.
  all: rewrite length_app; cbn [length].
  - destruct (Hprev Hlen) as (D & d & g & dg & ED & Ed & Eg & Edg).
    assert (D < n)%nat as HD by (by eapply Hold).
    assert (g < n)%nat as Hg by (by eapply Hold).
    destruct (Hkeep D d Ed) as (d' & Ed' & Edx & Edy & _ & Edc).
    destruct (Hkeep g dg Edg) as (dg' & Edg' & Egx & Egy & _ & _).
    assert (handler2 d' = Some g) as Eg' by (unfold handler2 in *; by rewrite Edc).
    clear Edc. destruct d' as [dx' dy' da' dp' [dc'|]]; [|done].
    cbn [x y] in Edx, Edy.
    replace (2 <? length (constructionPoints s) + 1)%nat with true
      by (symmetry; apply Nat.ltb_lt; lia).
    rewrite ED.
    erewrite run_deref; cycle 1.
    { cbn [store]. rewrite lookup_alter_ne by lia. exact Ed'. }
    rewrite Hnat, Eg'.
    erewrite run_deref_opt; cycle 1.
    { cbn [store]. rewrite lookup_alter_ne by lia. exact Edg'. }
    rewrite run_alloc. state_simpl.
    eexists. split.
    { unfold set_handler1. rewrite run_update. unfold update, modify.
      state_simpl. reflexivity. }
    state_simpl.
    split; [done|]. split; [done|]. split; [done|]. split.
    { exists kp, kh1, (set_active true kh2).
      split. { by lk. }
      split. { by lk. }
      split. { lk. by rewrite Ekh2. }
      unfold handler1, handler2, xy. rewrite Ekc. cbn.
      by rewrite Ekx, Eky, Eh1x, Eh1y, Eh2x, Eh2y, Eh1p, Eh2p. }
    split.
    { intros r p Hp. assert (r < n)%nat as Hr by (by eapply Hold).
      destruct (Hkeep r p Hp) as (p' & Ep' & Epx & Epy & _).
      destruct (decide (r = D)) as [->|Hne].
      - eexists. split; [lk; rewrite Ep'; reflexivity|].
        unfold xy. cbn. by rewrite Epx, Epy.
      - exists p'. split; [by lk|]. unfold xy. by rewrite Epx, Epy. }
    intros D0 d0 g0 dg0 _ ED0 Ed0 Eg0 Edg0.
    assert (D0 = D) as -> by congruence.
    assert (d0 = d) as -> by congruence.
    assert (g0 = g) as -> by congruence.
    assert (dg0 = dg) as -> by congruence.
    eexists _, _. split; [lk; rewrite Ed'; reflexivity|].
    split; [reflexivity|]. split; [exact Eg'|].
    split; [by lk|]. split; [reflexivity|].
    unfold xy. cbn. by rewrite Edx, Edy, Egx, Egy.
  - replace (2 <? length (constructionPoints s) + 1)%nat with false
      by (symmetry; apply Nat.ltb_ge; lia).
    eexists. split; [reflexivity|]. state_simpl.
    split; [done|]. split; [done|]. split; [done|]. split.
    { exists kp, kh1, (set_active true kh2).
      split. { by lk. }
      split. { by lk. }
      split. { lk. by rewrite Ekh2. }
      unfold handler1, handler2, xy. rewrite Ekc. cbn.
      by rewrite Ekx, Eky, Eh1x, Eh1y, Eh2x, Eh2y, Eh1p, Eh2p. }
    split.
    { intros r p Hp. assert (r < n)%nat as Hr by (by eapply Hold).
      destruct (Hkeep r p Hp) as (p' & Ep' & Epx & Epy & _).
      exists p'. split; [by lk|]. unfold xy. by rewrite Epx, Epy. }
    intros D d g dg Hlen'. lia.
Qed.

(** X27: in natural draw mode, on a spline of at least two knots whose last knot
    has no second handle (as [setPoints] stores a record without [hp2]), a
    left mousedown without Ctrl away from the spline throws: the read of
    [D.handler2.x] fails.  By then the new knot is appended and its second
    handle is picked for moving. *)
Theorem mouseDownLeft_throws_on_single_handle (s : canvas) (ex ey : number)
    (D : ref) (d : Point number) :
  ctrlKeyIsDown s = false -> naturalDrawMode (options s) = true ->
  bounded s -> resettable s ->
  let position := new_Point ex ey in
  let n := Point_count s in
  findPointOnSpline (x position) (y position) (set_isMouseDown true s)
  = (Some None, set_isMouseDown true s) ->
  (2 <= length (constructionPoints s))%nat ->
  last (constructionPoints s) = Some D ->
  store s !! D = Some d -> handler2 d = None ->
  exists s',
    mouseDownLeft ex ey s = (None, s')
    /\ constructionPoints s' = constructionPoints s ++ [n]
    /\ currentMovingPoint s' = Some (S (S n))
    /\ isMouseDown s' = true
    /\ Point_count s' = S (S (S n)).
Proof.
  intros Hctrl Hnat Hb Hres position n Hfar Hlen ED Ed Eg.
  set (s1 := set_isMouseDown true s) in *.
  assert (D < n)%nat as HD by (apply Hb; by rewrite Ed).
  destruct (createConstructionPoint_prefix s1 position Hnat Hb Hres)
    as (σ & Hσ & Hcreate).
  change (Point_count s1) with n in *. change (store s1) with (store s) in *.
  cbn [s1 set_isMouseDown constructionPoints isMouseDown ctrlKeyIsDown options]
    in Hcreate.
  destruct (same_geometry_lookup _ _ D d Hσ) as (d' & Ed' & _ & _ & _ & Edc).
  { by rewrite created_store_old. }
  assert (handler2 d' = None) as Eg' by (unfold handler2 in *; by rewrite Edc).
  unfold mouseDownLeft. rewrite run_modify, run_get. fold s1 position.
  change (ctrlKeyIsDown s1) with (ctrlKeyIsDown s). rewrite Hctrl.
  rewrite (run_bind _ _ _ _ _ Hfar). rewrite Hcreate. clear Hcreate.
  rewrite run_get. cbn [constructionPoints options].
  rewrite last_before_push by lia. rewrite length_app. cbn [length].
  replace (2 <? length (constructionPoints s) + 1)%nat with true
    by (symmetry; apply Nat.ltb_lt; lia).
  rewrite ED.
  erewrite run_deref; cycle 1.
  { cbn [store]. rewrite lookup_alter_ne by lia. exact Ed'. }
  rewrite Hnat, Eg'.
  eexists. split; [reflexivity|]. by state_simpl.
Qed.

End Creation.

Section ExactDrag.
Local Open Scope R_scope.
Local Abbreviation canvas := (BezierCanvas xreal).




End ExactDrag.

(** ** Instances of the statements above *)

Lemma map_inverts_table_witness :
  let bz := BezierUtils.new (exact_point 0 0) (exact_point 1 0)
              (exact_point 2 0) (exact_point 3 0) 200 in
  exists (rs : list R) (j : nat) (f : R),
    BezierUtils.arcLengths bz = XR <$> rs
    /\ (j <= 200)%nat /\ (0 <= f < 1)%R /\ ((j < 200)%nat \/ f = 0%R)
    /\ BezierUtils.map bz (XR (/ 2)) = XR ((INR j + f) / INR 200)
    /\ (entry rs j + f * (entry rs (S j) - entry rs j) = / 2 * entry rs 200)%R
    /\ (0 <= (INR j + f) / INR 200 <= 1)%R.
Proof.
  apply (map_inverts_table (exact_point 0 0) (exact_point 1 0)
           (exact_point 2 0) (exact_point 3 0) 200 (/ 2));
    [split; exact I | split; exact I | split; exact I | split; exact I
    | lia | lra].
Defined.

Lemma subdivision_keeps_curve_witness :
  let p0 := mkPoint (XR 0) (XR 0) false None None in
  let p1 := mkPoint (XR 0) (XR 8) false None None in
  let p2 := mkPoint (XR 8) (XR 8) false None None in
  let p3 := mkPoint (XR 8) (XR 0) false None None in
  let t := XR (/ 2) in
  let P4 := weighted p0 p1 t in
  let P5 := weighted p1 p2 t in
  let P6 := weighted p2 p3 t in
  let P7 := weighted P4 P5 t in
  let P8 := weighted P5 P6 t in
  let P9 := weighted P7 P8 t in
  let N := new_ConstructionPoint (x P9) (y P9) in
  cubicBezierInterpolate (XR (/ 4)) p0 P4 P7 N
  = cubicBezierInterpolate (XR (/ 2 * / 4)) p0 p1 p2 p3
  /\ cubicBezierInterpolate (XR (/ 4)) N P8 P6 p3
     = cubicBezierInterpolate (XR (/ 2 + (1 - / 2) * / 4)) p0 p1 p2 p3
  /\ xy N = xy (cubicBezierInterpolate t p0 p1 p2 p3).
Proof.
  intros p0 p1 p2 p3.
  destruct (weighted_on_grid p0 p1 0 0 0 8 (/ 2) 0 4)
    as (U01 & E4x & E4y); [reflexivity..|lra|lra|].
  destruct (weighted_on_grid p1 p2 0 8 8 8 (/ 2) 4 8)
    as (U12 & E5x & E5y); [reflexivity..|lra|lra|].
  destruct (weighted_on_grid p2 p3 8 8 8 0 (/ 2) 8 4)
    as (U23 & E6x & E6y); [reflexivity..|lra|lra|].
  destruct (weighted_on_grid _ _ _ _ _ _ (/ 2) 2 6 E4x E4y E5x E5y)
    as (U45 & E7x & E7y); [lra|lra|].
  destruct (weighted_on_grid _ _ _ _ _ _ (/ 2) 6 6 E5x E5y E6x E6y)
    as (U56 & E8x & E8y); [lra|lra|].
  destruct (weighted_on_grid _ _ _ _ _ _ (/ 2) 4 6 E7x E7y E8x E8y)
    as (U78 & _ & _); [lra|lra|].
  apply (subdivision_keeps_curve p0 p1 p2 p3 (/ 2) (/ 4)); try done;
    split; exact I.
Defined.

Lemma findClosestConstructionPoint_last_hit_witness :
  findClosestConstructionPoint (XR 0) (XR 0) arch
  = (Some (last (filter (fun r => hit arch (new_Point (XR 0) (XR 0)) r = true)
                   (constructionPoints arch))), arch).
Proof.
  apply (findClosestConstructionPoint_last_hit (XR 0) (XR 0) arch).
  intros r Hr. destruct well_formed_arch as (_ & _ & Hres & _).
  destruct (Hres r Hr) as (p & h1 & -> & _). done.
Defined.

Lemma knotInsertion_segments_witness :
  let p0 := mkPoint (XR 0) (XR 0) false None
              (Some (mkConstruction (Some 1%nat) None false)) in
  let p1 := mkPoint (XR 0) (XR 8) false (Some 0%nat) None in
  let p2 := mkPoint (XR 8) (XR 8) false (Some 2%nat) None in
  let p3 := mkPoint (XR 8) (XR 0) false None
              (Some (mkConstruction (Some 3%nat) None false)) in
  let t := XR (/ 2) in
  let P4 := weighted p0 p1 t in
  let P5 := weighted p1 p2 t in
  let P6 := weighted p2 p3 t in
  let P7 := weighted P4 P5 t in
  let P8 := weighted P5 P6 t in
  let P9 := weighted P7 P8 t in
  let N := new_ConstructionPoint (x P9) (y P9) in
  exists s1,
    knotInsertion t (Some 0%nat) (Some 1%nat) (Some 3%nat) (Some 2%nat) arch
    = (Some tt, s1)
    /\ constructionPoints s1
       = take 1 (constructionPoints arch)
         ++ Point_count arch :: drop 1 (constructionPoints arch)
    /\ currentMovingPoint s1 = Some (Point_count arch)
    /\ segment_points s1 0 = Some [xy p0; xy P4; xy P7; xy N]
    /\ segment_points s1 1 = Some [xy N; xy P8; xy P6; xy p3].
Proof.
  intros p0 p1 p2 p3 t.
  destruct well_formed_arch as (Hnd & Hb & Hres & _).
  apply (knotInsertion_segments arch 0 0%nat 2%nat 1%nat 3%nat p0 p1 p2 p3 t);
    try done.
  by apply (bool_decide_unpack _).
Defined.

Lemma far_XR (p q : Point xreal) (a b c d m : R) :
  x p = XR a -> y p = XR b -> x q = XR c -> y q = XR d ->
  (0 <= m)%R -> (m * m <= (a - c) * (a - c) + (b - d) * (b - d))%R ->
  (getDistance p q <? XR m)%js = false.
Proof.
  intros Ea Eb Ec Ed Hm Hfar.
  rewrite (getDistance_XR p q a b c d Ea Eb Ec Ed).
  apply lt_XR_false. rewrite <- (sqrt_square m) at 1 by done.
  by apply sqrt_le_1_alt.
Qed.

Lemma contextMenu_away_from_knots_witness :
  contextMenu (XR 100) (XR 100) arch = (Some tt, arch).
Proof.
  apply (contextMenu_away_from_knots (XR 100) (XR 100) arch).
  intros r Hr. simpl in Hr. rewrite !elem_of_cons in Hr.
  assert (forall q : Point xreal,
            x (new_Point (x (new_Point (XR 100) (XR 100)))
                 (y (new_Point (XR 100) (XR 100)))) = XR 100
            /\ y (new_Point (x (new_Point (XR 100) (XR 100)))
                    (y (new_Point (XR 100) (XR 100)))) = XR 100) as Hpos.
  { intros _. unfold new_Point. cbn [x y]. by rewrite !(round_IZR 100). }
  destruct (Hpos (exact_point 0 0)) as [Hx Hy].
  destruct Hr as [->|[->|Hr]]; [| |by apply elem_of_nil in Hr].
  - eexists. split; [reflexivity|].
    apply (far_XR _ _ 100 100 0 0 10);
      [exact Hx|exact Hy|reflexivity|reflexivity|lra|lra].
  - eexists. split; [reflexivity|].
    apply (far_XR _ _ 100 100 8 0 10);
      [exact Hx|exact Hy|reflexivity|reflexivity|lra|lra].
Defined.

Lemma linked_arch : linked arch.
Proof.
  split; [apply well_formed_arch|].
  intros k p h Hk Hh. unfold arch in *. cbn [store] in *.
  repeat (apply lookup_insert_Some in Hk as [[<- <-]|[? Hk]]);
    [..|by rewrite lookup_empty in Hk];
    cbn in Hh; destruct Hh as [Hh|Hh]; try done;
    injection Hh as <-; by eexists.
Qed.

Lemma removeConstructionPoint_ordinary_witness :
  removeConstructionPoint 0%nat arch
  = (Some tt,
     mkCanvas (store arch) 4 [2%nat] None false false true defaultOptions).
Proof.
  apply (removeConstructionPoint_ordinary arch 0 0%nat
           (mkPoint (XR 0) (XR 0) false None
              (Some (mkConstruction (Some 1%nat) None false)))).
  - apply well_formed_arch.
  - reflexivity.
  - intros r Hr. destruct well_formed_arch as (_ & _ & Hres & _).
    destruct (Hres r Hr) as (p & _ & -> & _). by eexists.
  - reflexivity.
  - reflexivity.
  - reflexivity.
Defined.



Lemma findPointOnSpline_sound_witness :
  exists q : Projection,
    findPointOnSpline (of_Z 35) (of_Z 0) long_segment
    = (Some (Some q), long_segment)
    /\ projects long_segment (new_Point (of_Z 35) (of_Z 0)) q.
Proof.
  destruct (findPointOnSpline (of_Z 35) (of_Z 0) long_segment)
    as [[[q|]|] s'] eqn:E.
  - exists q.
    destruct (findPointOnSpline_sound long_segment s' (of_Z 35) (of_Z 0) q E)
      as [-> Hq].
    split; [reflexivity|exact Hq].
  - exfalso. vm_compute in E. discriminate E.
  - exfalso. vm_compute in E. discriminate E.
Defined.

Lemma real_points_arch (r : ref) (p : Point xreal) :
  store arch !! r = Some p -> real_point p.
Proof.
  unfold arch. cbn [store]. intros Hp.
  repeat (apply lookup_insert_Some in Hp as [[<- <-]|[? Hp]]);
    [..|by rewrite lookup_empty in Hp]; split; exact I.
Qed.

Lemma findPointOnSpline_nearest_witness :
  exists r,
    findPointOnSpline (XR 4) (XR 6) arch = (Some r, arch)
    /\ (forall index i, (S index < length (constructionPoints arch))%nat ->
          exists d', sample_distance arch (new_Point (XR 4) (XR 6)) index i
                     = Some (XR d'))
    /\ match r with
       | None =>
           forall index i d', (i <= 100)%nat ->
             sample_distance arch (new_Point (XR 4) (XR 6)) index i
             = Some (XR d') ->
             (10 < d')%R
       | Some q =>
           exists d, on_distance q = XR d /\ (d <= 10)%R
             /\ forall index i d', (i <= 100)%nat ->
                  sample_distance arch (new_Point (XR 4) (XR 6)) index i
                  = Some (XR d') ->
                  (d <= d')%R
       end.
Proof.
  apply (findPointOnSpline_nearest arch 4 6 10).
  - apply well_formed_arch.
  - apply linked_arch.
  - exact real_points_arch.
  - reflexivity.
Defined.

Lemma bounded_two_handles : bounded two_handles.
Proof.
  intros r. unfold two_handles. cbn [store Point_count].
  rewrite !lookup_insert_is_Some', lookup_empty.
  intros [<-|[<-|[<-|[<-|[<-|[<-|[? ?]]]]]]]; [lia..|done].
Qed.

Lemma resettable_two_handles : resettable two_handles.
Proof.
  intros k Hk. unfold two_handles in *. cbn [constructionPoints store] in *.
  rewrite !elem_of_cons in Hk. destruct Hk as [->|[->|Hk]].
  - by eexists _, _.
  - by eexists _, _.
  - by apply elem_of_nil in Hk.
Qed.

Lemma bounded_single_handle : bounded single_handle.
Proof.
  intros r. unfold single_handle. cbn [store Point_count].
  rewrite !lookup_insert_is_Some', lookup_empty.
  intros [<-|[<-|[<-|[<-|[<-|[? ?]]]]]]; [lia..|done].
Qed.

Lemma resettable_single_handle : resettable single_handle.
Proof.
  intros k Hk. unfold single_handle in *. cbn [constructionPoints store] in *.
  rewrite !elem_of_cons in Hk. destruct Hk as [->|[->|Hk]].
  - by eexists _, _.
  - by eexists _, _.
  - by apply elem_of_nil in Hk.
Qed.

Lemma mouseDownLeft_appends_knot_witness :
  exists s',
    mouseDownLeft (of_Z 50) (of_Z 50) two_handles = (Some tt, s')
    /\ constructionPoints s' = [0%nat; 3%nat; 6%nat]
    /\ currentMovingPoint s' = Some 8%nat
    /\ exists d' h,
         store s' !! 3%nat = Some d' /\ handler1 d' = Some 9%nat
         /\ handler2 d' = Some 5%nat
         /\ store s' !! 9%nat = Some h /\ parent h = Some 3%nat
         /\ xy h
            = xy (new_Point
                    (of_Z 100 - smoothFactor defaultOptions * (of_Z 110 - of_Z 100))%js
                    (of_Z 0 - smoothFactor defaultOptions * (of_Z 0 - of_Z 0))%js).
Proof.
  destruct (mouseDownLeft_appends_knot two_handles (of_Z 50) (of_Z 50))
    as (s' & Hrun & Hcps & Hcur & _ & _ & _ & Hsmooth).
  - reflexivity.
  - reflexivity.
  - exact bounded_two_handles.
  - exact resettable_two_handles.
  - vm_compute. reflexivity.
  - intros _. by eexists 3%nat, _, 5%nat, _.
  - exists s'. split; [exact Hrun|]. split; [exact Hcps|]. split; [exact Hcur|].
    apply (Hsmooth 3%nat
             (mkPoint (of_Z 100) (of_Z 0) false None
                (Some (mkConstruction (Some 4%nat) (Some 5%nat) false)))
             5%nat (mkPoint (of_Z 110) (of_Z 0) false (Some 3%nat) None));
      [cbn; lia|reflexivity..].
Defined.

Lemma mouseDownLeft_throws_on_single_handle_witness :
  exists s',
    mouseDownLeft (of_Z 50) (of_Z 50) single_handle = (None, s')
    /\ constructionPoints s' = [0%nat; 3%nat; 5%nat]
    /\ currentMovingPoint s' = Some 7%nat
    /\ isMouseDown s' = true
    /\ Point_count s' = 8%nat.
Proof.
  apply (mouseDownLeft_throws_on_single_handle single_handle (of_Z 50) (of_Z 50)
           3%nat
           (mkPoint (of_Z 100) (of_Z 0) false None
              (Some (mkConstruction (Some 4%nat) None false)))).
  - reflexivity.
  - reflexivity.
  - exact bounded_single_handle.
  - exact resettable_single_handle.
  - vm_compute. reflexivity.
  - cbn. lia.
  - reflexivity.
  - reflexivity.
  - reflexivity.
Defined.



Lemma mouseDownLeft_inserts_on_spline_witness :
  exists (q : Projection) s' k0 k3 kp,
    findPointOnSpline (x (new_Point (of_Z 50) (of_Z 0)))
      (y (new_Point (of_Z 50) (of_Z 0))) (set_isMouseDown true two_handles)
    = (Some (Some q), set_isMouseDown true two_handles)
    /\ mouseDownLeft (of_Z 50) (of_Z 0) two_handles = (Some tt, s')
    /\ on_P0 q = Some k0 /\ on_P3 q = Some k3
    /\ constructionPoints two_handles !! (on_position q - 1)%nat = Some k0
    /\ constructionPoints two_handles !! on_position q = Some k3
    /\ constructionPoints s'
       = take (on_position q) (constructionPoints two_handles)
         ++ 6%nat :: drop (on_position q) (constructionPoints two_handles)
    /\ currentMovingPoint s' = Some 6%nat
    /\ store s' !! 6%nat = Some kp /\ get_fromCasteljau kp = true
    /\ is_Some (handler1 kp) /\ is_Some (handler2 kp).
Proof.
  destruct (findPointOnSpline (x (new_Point (of_Z 50) (of_Z 0)))
              (y (new_Point (of_Z 50) (of_Z 0)))
              (set_isMouseDown true two_handles)) as [[[q|]|] s2] eqn:E.
  - assert (s2 = set_isMouseDown true two_handles) as ->.
    { pose proof (f_equal snd E) as Es. cbn [snd] in Es. rewrite <- Es.
      vm_compute. reflexivity. }
    destruct (mouseDownLeft_inserts_on_spline two_handles (of_Z 50) (of_Z 0) q)
      as (s' & k0 & k3 & kp & Hrun);
      [reflexivity|by apply (bool_decide_unpack _)|exact bounded_two_handles
      |exact resettable_two_handles|exact E|].
    exists q, s', k0, k3, kp. split; [reflexivity|exact Hrun].
  - exfalso. vm_compute in E. discriminate E.
  - exfalso. vm_compute in E. discriminate E.
Defined.

Lemma knots_exist_two_handles : knots_exist (set_options normal_mode two_handles).
Proof.
  intros k Hk. unfold two_handles in *.
  cbn [set_options constructionPoints store] in *.
  rewrite !elem_of_cons in Hk. destruct Hk as [->|[->|Hk]].
  - eexists. split; [reflexivity|]. intros h [= <-]. by eexists.
  - eexists. split; [reflexivity|]. intros h [= <-]. by eexists.
  - by apply elem_of_nil in Hk.
Qed.

Lemma removeConstructionPoint_single_handle_ends_witness :
  exists s' p' clone,
    removeConstructionPoint 0%nat (set_options normal_mode two_handles)
    = (Some tt, s')
    /\ constructionPoints s' = [3%nat]
    /\ store s' !! 3%nat = Some p'
    /\ handler1 p' = Some 6%nat /\ handler2 p' = None
    /\ store s' !! 6%nat = Some clone
    /\ parent clone = Some 3%nat
    /\ xy clone = xy (new_Point (of_Z 110) (of_Z 0)).
Proof.
  destruct (removeConstructionPoint_single_handle_ends
              (set_options normal_mode two_handles) 0 0%nat
              (mkPoint (of_Z 0) (of_Z 0) false None
                 (Some (mkConstruction (Some 1%nat) (Some 2%nat) false))))
    as (s' & Hrun & Hcps & Hends & _ & Hclone).
  - reflexivity.
  - by apply (bool_decide_unpack _).
  - exact bounded_two_handles.
  - exact knots_exist_two_handles.
  - reflexivity.
  - reflexivity.
  - reflexivity.
  - destruct (Hclone 3%nat
                (mkPoint (of_Z 100) (of_Z 0) false None
                   (Some (mkConstruction (Some 4%nat) (Some 5%nat) false)))
                5%nat (mkPoint (of_Z 110) (of_Z 0) false (Some 3%nat) None))
      as (p' & clone & Hp' & Hh1 & Hc & Hpar & Hxy);
      [by rewrite Hcps|reflexivity..|].
    exists s', p', clone. split; [exact Hrun|]. split; [exact Hcps|].
    split; [exact Hp'|]. split; [exact Hh1|]. split.
    { apply (Hends 3%nat p'); [left; by rewrite Hcps|exact Hp']. }
    split; [exact Hc|]. split; [exact Hpar|exact Hxy].
Defined.

Lemma setActivePoint_exclusive_witness :
  exists s',
    setActivePoint (Some 1%nat) arch = (Some tt, s')
    /\ constructionPoints s' = constructionPoints arch
    /\ currentMovingPoint s' = Some 1%nat
    /\ same_geometry (store arch) (store s')
    /\ forall r p', selectable arch r -> store s' !! r = Some p' ->
                    active p' = bool_decide (r = 1%nat).
Proof.
  apply (setActivePoint_exclusive arch 1%nat). apply well_formed_arch.
Defined.

Lemma mx_my_at_ends_witness :
  let bz := BezierUtils.new (exact_point 0 0) (exact_point 1 0)
              (exact_point 2 0) (exact_point 3 0) 200 in
  BezierUtils.mx bz 0%js = Math_round (x (exact_point 0 0))
  /\ BezierUtils.my bz 0%js = Math_round (y (exact_point 0 0))
  /\ BezierUtils.mx bz 1%js = Math_round (x (exact_point 3 0))
  /\ BezierUtils.my bz 1%js = Math_round (y (exact_point 3 0)).
Proof.
  apply (mx_my_at_ends (exact_point 0 0) (exact_point 1 0)
           (exact_point 2 0) (exact_point 3 0) 200);
    [split; exact I | split; exact I | split; exact I | split; exact I | lia].
Defined.
